(** * Market-data dashboard backend: indicator engine, sentiment scoring,
      series generator, bar store, request validation and response cache.

    A shallow embedding of the JavaScript sources

    - [backend/services/marketDataService.js] (schema, generators, reads,
      ticks, historical data, alerts, symbol search),
    - the analysis routes ([validateRequest], [calculateIndicators], the
      [/sentiment] handler),
    - the market routes ([symbolValidation], the cache, [GET /],
      [GET /historical], [POST /invalidate-cache]) and
    - [backend/server.js] (the scheduled refresh and the subscription
      handlers of a socket),

    together with the properties of the repository's specification that
    concern them and further properties of the code.

    Numbers.  A JavaScript number is modelled by [num]: a finite value is an
    exact rational, next to the two infinities and NaN.  Rounding of IEEE
    doubles is not modelled and zero carries no sign; none of the
    properties below depends on either.  The values of [Math.random],
    [Math.sin], [Math.sqrt] and the clock are inputs of the functions that
    consume them. *)

From Stdlib Require Import QArith Qround ZArith Lia Lqa String Ascii List Bool.
From Stdlib Require Import Sorting.Sorted Sorting.Permutation.
From Stdlib Require Import Qabs.
From stdpp Require Import gmap strings list.

Import ListNotations.
Local Open Scope Z_scope.

(** ** JavaScript numbers *)

Module JS.

Inductive num : Type :=
| Fin (q : Q)
| PInf
| NInf
| NaN.

Definition Qltb (a b : Q) : bool := negb (Qle_bool b a).
Definition Qis0 (a : Q) : bool := Qeq_bool a 0.

Definition nneg (a : num) : num :=
  match a with
  | Fin q => Fin (- q)
  | PInf => NInf
  | NInf => PInf
  | NaN => NaN
  end.

Definition nadd (a b : num) : num :=
  match a, b with
  | NaN, _ | _, NaN => NaN
  | Fin x, Fin y => Fin (x + y)
  | PInf, NInf | NInf, PInf => NaN
  | PInf, _ | _, PInf => PInf
  | NInf, _ | _, NInf => NInf
  end.

Definition nsub (a b : num) : num := nadd a (nneg b).

(** Sign of a finite value applied to an infinity; [0 * Infinity] is NaN. *)
Definition scale_inf (q : Q) (pos : bool) : num :=
  if Qis0 q then NaN
  else if Bool.eqb (Qltb 0 q) pos then PInf else NInf.

Definition nmul (a b : num) : num :=
  match a, b with
  | NaN, _ | _, NaN => NaN
  | Fin x, Fin y => Fin (x * y)
  | Fin x, PInf | PInf, Fin x => scale_inf x true
  | Fin x, NInf | NInf, Fin x => scale_inf x false
  | PInf, PInf | NInf, NInf => PInf
  | PInf, NInf | NInf, PInf => NInf
  end.

Definition ndiv (a b : num) : num :=
  match a, b with
  | NaN, _ | _, NaN => NaN
  | Fin x, Fin y =>
      if Qis0 y then scale_inf x true else Fin (x / y)
  | Fin _, _ => Fin 0
  | PInf, Fin y => if Qltb y 0 then NInf else PInf
  | NInf, Fin y => if Qltb y 0 then PInf else NInf
  | _, _ => NaN
  end.

(** [a < b]; every comparison with NaN is false. *)
Definition nlt (a b : num) : bool :=
  match a, b with
  | NaN, _ | _, NaN => false
  | Fin x, Fin y => Qltb x y
  | NInf, NInf | PInf, _ => false
  | NInf, _ => true
  | Fin _, PInf => true
  | Fin _, NInf => false
  end.

Definition ngt (a b : num) : bool := nlt b a.

(** [a === b] on numbers. *)
Definition nseq (a b : num) : bool :=
  match a, b with
  | Fin x, Fin y => Qeq_bool x y
  | PInf, PInf | NInf, NInf => true
  | _, _ => false
  end.

(** Falsy numbers: [0] and [NaN]. *)
Definition nfalsy (a : num) : bool :=
  match a with
  | Fin q => Qis0 q
  | NaN => true
  | _ => false
  end.

(** Equality of numbers up to the representation of a rational. *)
Definition num_eq (a b : num) : Prop :=
  match a, b with
  | Fin x, Fin y => (x == y)%Q
  | PInf, PInf | NInf, NInf | NaN, NaN => True
  | _, _ => False
  end.

(** A value read from a property or an array slot. *)
Inductive val : Type :=
| VNum (n : num)
| VUndef
| VNull.

Definition toNumber (v : val) : num :=
  match v with
  | VNum n => n
  | VUndef => NaN
  | VNull => Fin 0
  end.

Definition vlt (a b : val) : bool := nlt (toNumber a) (toNumber b).
Definition vgt (a b : val) : bool := ngt (toNumber a) (toNumber b).

(** [v !== null] *)
Definition not_null (v : val) : bool :=
  match v with
  | VNull => false
  | _ => true
  end.

(** [arr[j]] for an integer [j]: out of range reads [undefined]. *)
Definition aget (arr : list num) (j : Z) : val :=
  if j <? 0 then VUndef
  else match nth_error arr (Z.to_nat j) with
       | Some x => VNum x
       | None => VUndef
       end.

(** [arr.slice(a, b)] for [0 <= a]. *)
Definition slice {A : Type} (arr : list A) (a b : nat) : list A :=
  firstn (b - a) (skipn a arr).

(** [arr.reduce((a, b) => a + b, 0)] *)
Definition sum (arr : list num) : num := fold_left nadd arr (Fin 0).

Definition ofnat (n : nat) : num := Fin (inject_Z (Z.of_nat n)).
Definition ofZ (z : Z) : num := Fin (inject_Z z).

(** The outcome of a piece of code that may throw. *)
Inductive outcome (A : Type) : Type :=
| Ret (a : A)
| Throws.
Arguments Ret {A} a.
Arguments Throws {A}.

Definition bind {A B : Type} (m : outcome A) (f : A -> outcome B) : outcome B :=
  match m with
  | Ret a => f a
  | Throws => Throws
  end.

End JS.

Import JS.

#[global] Instance outcome_bind : MBind outcome := fun A B f m => JS.bind m f.
#[global] Instance outcome_ret : MRet outcome := fun A a => Ret a.

(** ** Indicator engine ([calculateIndicators]) *)

Module Indicators.

(** [calculateSMA] *)
Definition calculateSMA (data : list num) (periods : nat) : option (list num) :=
  if (length data <? periods)%nat then None
  else Some (map (fun i => ndiv (sum (slice data (i + 1 - periods) (i + 1)))
                                (ofnat periods))
                 (seq (periods - 1) (length data - (periods - 1)))).

(** The loop of [calculateEMA] over the points after the seed. *)
Fixpoint emaLoop (k ema : num) (rest : list num) : list num :=
  match rest with
  | [] => []
  | x :: rest' =>
      let ema' := nadd (nmul x k) (nmul ema (nsub (Fin 1) k)) in
      ema' :: emaLoop k ema' rest'
  end.

(** [calculateEMA] *)
Definition calculateEMA (data : list num) (periods : nat) : option (list num) :=
  if (length data <? periods)%nat then None
  else
    let k := ndiv (Fin 2) (nadd (ofnat periods) (Fin 1)) in
    let ema := ndiv (sum (slice data 0 periods)) (ofnat periods) in
    Some (ema :: emaLoop k ema (skipn periods data)).

(** [changes[i-1] = data[i] - data[i-1]] *)
Fixpoint changes (data : list num) : list num :=
  match data with
  | x :: (y :: _) as rest => nsub y x :: changes rest
  | _ => []
  end.

(** The [forEach] of [calculateRSI]: accumulates [(gains, losses)]. *)
Definition gainLoss (window : list num) : num * num :=
  fold_left (fun acc change =>
               if ngt change (Fin 0) then (nadd (fst acc) change, snd acc)
               else (fst acc, nsub (snd acc) change))
            window (Fin 0, Fin 0).

Definition rsiOfWindow (window : list num) (periods : nat) : num :=
  let gl := gainLoss window in
  let avgGain := ndiv (fst gl) (ofnat periods) in
  let avgLoss := ndiv (snd gl) (ofnat periods) in
  if nseq avgLoss (Fin 0) then Fin 100
  else
    let rs := ndiv avgGain avgLoss in
    nsub (Fin 100) (ndiv (Fin 100) (nadd (Fin 1) rs)).

(** [calculateRSI] *)
Definition calculateRSI (data : list num) (periods : nat) : option (list num) :=
  if (length data <=? periods)%nat then None
  else
    let ch := changes data in
    Some (map (fun i => rsiOfWindow (slice ch (i - periods) i) periods)
              (seq periods (length ch - periods))).

Record MACD : Type := {
  macdLine : list num;
  signalLine : list num;
  histogram : list num
}.

(** The MACD-line loop of [calculateMACD]; [d] is
    [emaSlow.length - emaFast.length]. *)
Definition macdLineOf (emaFast emaSlow : list num) : list num :=
  let d := Z.of_nat (length emaSlow) - Z.of_nat (length emaFast) in
  flat_map (fun i =>
              if Z.of_nat i >=? d
              then [nsub (toNumber (aget emaFast (Z.of_nat i)))
                         (toNumber (aget emaSlow (Z.of_nat i - d)))]
              else [])
           (seq 0 (length emaFast)).

Definition histogramOf (macdL signalL : list num) : list num :=
  let off := Z.of_nat (length macdL) - Z.of_nat (length signalL) in
  map (fun i => nsub (toNumber (aget macdL (Z.of_nat i + off)))
                     (toNumber (aget signalL (Z.of_nat i))))
      (seq 0 (length signalL)).

(** [calculateMACD]; reading [.length] of a [null] EMA throws. *)
Definition calculateMACD (data : list num) (fast slow signal : nat)
  : outcome (option MACD) :=
  if (length data <? Nat.max fast slow + signal)%nat then Ret None
  else
    match calculateEMA data fast, calculateEMA data slow with
    | Some emaFast, Some emaSlow =>
        let macdL := macdLineOf emaFast emaSlow in
        match calculateEMA macdL signal with
        | Some signalL =>
            Ret (Some {| macdLine := macdL;
                         signalLine := signalL;
                         histogram := histogramOf macdL signalL |})
        | None => Throws
        end
    | _, _ => Throws
    end.

(** [getLatestValue]: [arr ? arr[arr.length - 1] : null] *)
Definition getLatestValue (arr : option (list num)) : val :=
  match arr with
  | Some a => aget a (Z.of_nat (length a) - 1)
  | None => VNull
  end.

Record MacdLatest : Type := {
  line : val;
  signal : val;
  hist : val
}.

Record Snapshot : Type := {
  sma20 : val;
  sma50 : val;
  ema12 : val;
  ema26 : val;
  rsi : val;
  macd : MacdLatest
}.

(** [calculateIndicators] on the closing prices; [None] is the empty
    object returned for an empty series. *)
Definition calculateIndicators (closes : list num) : outcome (option Snapshot) :=
  match closes with
  | [] => Ret None
  | _ =>
      m ← calculateMACD closes 12 26 9;
      Ret (Some {|
        sma20 := getLatestValue (calculateSMA closes 20);
        sma50 := getLatestValue (calculateSMA closes 50);
        ema12 := getLatestValue (calculateEMA closes 12);
        ema26 := getLatestValue (calculateEMA closes 26);
        rsi := getLatestValue (calculateRSI closes 14);
        macd := {| line := getLatestValue (option_map macdLine m);
                   signal := getLatestValue (option_map signalLine m);
                   hist := getLatestValue (option_map histogram m) |}
      |})
  end.

End Indicators.

(** ** MACD as the specification words it

    "MACD line = EMA(fast) − EMA(slow), aligned on the overlapping tail
    since the two EMAs have different warm-up lengths; signal line =
    EMA(MACD line, signal period); histogram = MACD line − signal line."
    This second definition follows those words; it is what
    [Indicators.calculateMACD] is compared with. *)

Module Reference.

Import Indicators.

(** Slot [j] of the slow EMA and slot [j + (|fast| - |slow|)] of the fast
    EMA describe the same bar. *)
Definition alignedLine (emaFast emaSlow : list num) : list num :=
  let shift := Z.of_nat (length emaFast) - Z.of_nat (length emaSlow) in
  map (fun j => nsub (toNumber (aget emaFast (Z.of_nat j + shift)))
                     (toNumber (aget emaSlow (Z.of_nat j))))
      (seq 0 (length emaSlow)).

Definition macd (data : list num) (fast slow signal : nat) : option MACD :=
  match calculateEMA data fast, calculateEMA data slow with
  | Some emaFast, Some emaSlow =>
      let macdL := alignedLine emaFast emaSlow in
      match calculateEMA macdL signal with
      | Some signalL =>
          Some {| macdLine := macdL;
                  signalLine := signalL;
                  histogram := histogramOf macdL signalL |}
      | None => None
      end
  | _, _ => None
  end.

End Reference.

(** ** Bars and the series generator *)

Module Market.

Inductive Source : Type := SIMULATED | ALPHA_VANTAGE | YAHOO | IEX | CUSTOM.

(** One OHLCV document.  [timestamp] is in milliseconds. *)
Record Bar : Type := {
  symbol : string;
  timestamp : Z;
  open : Q;
  high : Q;
  low : Q;
  close : Q;
  volume : Z;
  source : Source
}.

(** What a call reads from its surroundings: the clock, the successive
    values of [Math.random()], [Math.sin], [Math.sqrt], and which store
    operations fail (numbered in the order they are issued). *)
Record World : Type := {
  now : Z;
  random : nat -> Q;
  sin : Q -> Q;
  sqrt : Q -> Q;
  faulty : nat -> bool
}.

Definition qmax (a b : Q) : Q := if Qle_bool a b then b else a.
Definition qmin (a b : Q) : Q := if Qle_bool a b then a else b.

Definition basePrice (sym : string) : Q :=
  if String.eqb sym "SPY" then 450
  else if String.eqb sym "AAPL" then 180
  else if String.eqb sym "MSFT" then 350
  else if String.eqb sym "GOOGL" then 140
  else if String.eqb sym "AMZN" then 175
  else 100.

(** [Math.floor(50000 + Math.random() * 150000)] *)
Definition drawVolume (r : Q) : Z := Qfloor (50000 + r * 150000).

(** The body of the loop shared by [generateSampleData] and
    [generateSimulatedData]; they differ in [volatilityFactor].  [r k] is
    the [k]-th value of [Math.random()] drawn in this iteration. *)
Definition backfillBar (w : World) (volatilityFactor : Q) (r : nat -> Q)
    (sym : string) (numPoints : Z) (i : nat) : Bar :=
  let ts := now w - (numPoints - Z.of_nat i) * 5 * 60000 in
  let dayFactor := (sin w (inject_Z (Z.of_nat i) / 30) * 3)%Q in
  let hourFactor := (sin w (inject_Z (Z.of_nat i) / 8) * 2)%Q in
  let minuteFactor := ((r 0%nat - 0.5) * 1.5)%Q in
  let noise := (dayFactor + hourFactor + minuteFactor)%Q in
  let c := (basePrice sym * (1 + noise * volatilityFactor))%Q in
  let range := (c * 0.002)%Q in
  let o := (c - (r 1%nat - 0.5) * range)%Q in
  let h := (qmax c o + r 2%nat * range)%Q in
  let l := (qmin c o - r 3%nat * range)%Q in
  {| symbol := sym; timestamp := ts;
     open := o; high := h; low := l; close := c;
     volume := drawVolume (r 4%nat); source := SIMULATED |}.

(** Five random values are drawn per bar; [start] values were drawn before
    the loop began. *)
Definition drawsOf (w : World) (start i : nat) : nat -> Q :=
  fun k => random w (start + 5 * i + k)%nat.

Definition backfill (w : World) (volatilityFactor : Q) (start : nat)
    (sym : string) (numPoints : Z) : list Bar :=
  map (fun i => backfillBar w volatilityFactor (drawsOf w start i) sym numPoints i)
      (seq 0 (Z.to_nat numPoints)).

(** [dailyVol * Math.sqrt(1/288)] of [generateSampleData] *)
Definition sampleVolatility (w : World) : Q := (0.015 * sqrt w (1 / 288))%Q.

(** [volatilityFactor] of [generateSimulatedData] *)
Definition simulatedVolatility : Q := 0.001%Q.

(** The loop of [generateHistoricalSimulation], carrying [currentPrice]. *)
Fixpoint historicalLoop (w : World) (start : nat) (sym : string)
    (numPoints : Z) (currentPrice : Q) (idx : list nat) : list Bar :=
  match idx with
  | [] => []
  | i :: idx' =>
      let r := drawsOf w start i in
      let ts := now w - (numPoints - Z.of_nat i) * 5 * 60000 in
      let intervalDrift := (0.08 / (252 * 78))%Q in
      let intervalVol := (0.15 / sqrt w (252 * 78))%Q in
      let diffusion := (intervalVol * (r 0%nat * 2 - 1))%Q in
      let price := (currentPrice * (1 + intervalDrift + diffusion))%Q in
      let range := (price * 0.002)%Q in
      let o := (price - (r 1%nat - 0.5) * range)%Q in
      let c := price in
      let h := (qmax o c + r 2%nat * range)%Q in
      let l := (qmin o c - r 3%nat * range)%Q in
      {| symbol := sym; timestamp := ts;
         open := o; high := h; low := l; close := c;
         volume := drawVolume (r 4%nat); source := SIMULATED |}
      :: historicalLoop w start sym numPoints price idx'
  end.

(** [generateHistoricalSimulation] *)
Definition generateHistoricalSimulation (w : World) (start : nat)
    (sym : string) (numPoints : Z) : list Bar :=
  historicalLoop w start sym numPoints (basePrice sym)
                 (seq 0 (Z.to_nat numPoints)).

(** The new data point that [fetchMarketData] builds from the latest stored
    bar.  [timeElapsed] is in minutes; four random values are drawn. *)
Definition incrementalBar (w : World) (start : nat) (sym : string)
    (latestData : Bar) : Bar :=
  let r := fun k => random w (start + k)%nat in
  let prevClose := close latestData in
  let timeElapsed := (inject_Z (now w - timestamp latestData) / (1000 * 60))%Q in
  let volatilityFactor := (0.0007 * sqrt w timeElapsed)%Q in
  let change := (prevClose * (r 0%nat - 0.5) * 2 * volatilityFactor)%Q in
  let newClose := (prevClose + change)%Q in
  let range := (prevClose * 0.001)%Q in
  {| symbol := sym; timestamp := now w;
     open := prevClose;
     high := (qmax prevClose newClose + r 1%nat * range)%Q;
     low := (qmin prevClose newClose - r 2%nat * range)%Q;
     close := newClose;
     volume := drawVolume (r 3%nat); source := SIMULATED |}.

(** The invariants of a bar. *)
Definition wellShaped (b : Bar) : Prop :=
  (qmax (open b) (close b) <= high b)%Q /\ (low b <= qmin (open b) (close b))%Q.

Definition positive (b : Bar) : Prop :=
  (0 < open b)%Q /\ (0 < high b)%Q /\ (0 < low b)%Q /\ (0 < close b)%Q
  /\ 0 <= volume b.

(** What the store's validators ask of open, high and low. *)
Definition aroundOpen (b : Bar) : Prop :=
  (open b <= high b)%Q /\ (low b <= open b)%Q.

(** The volatility factor of the incremental bar:
    [0.0007 * Math.sqrt(timeElapsed)]. *)
Definition stepVolatility (w : World) (latestData : Bar) : Q :=
  (0.0007 * sqrt w (inject_Z (now w - timestamp latestData) / (1000 * 60)))%Q.

(** What is known of the surroundings: [Math.random()] lies in [0, 1),
    [Math.sin] in [-1, 1], and [Math.sqrt] is non-negative and does not
    cross 1. *)
Record plausible (w : World) : Prop := {
  random_range : forall k, (0 <= random w k < 1)%Q;
  sin_range : forall x, (-1 <= sin w x <= 1)%Q;
  sqrt_nonneg : forall x, (0 <= x)%Q -> (0 <= sqrt w x)%Q;
  sqrt_below_1 : forall x, (0 <= x <= 1)%Q -> (sqrt w x <= 1)%Q;
  sqrt_above_1 : forall x, (1 <= x)%Q -> (1 <= sqrt w x)%Q
}.

End Market.

(** ** Symbols

    Strings are sequences of ASCII characters. *)

Module Symbol.

Definition code (c : ascii) : nat := nat_of_ascii c.

Definition isDigit (c : ascii) : bool := (48 <=? code c)%nat && (code c <=? 57)%nat.
Definition isUpper (c : ascii) : bool := (65 <=? code c)%nat && (code c <=? 90)%nat.
Definition isLower (c : ascii) : bool := (97 <=? code c)%nat && (code c <=? 122)%nat.
Definition isDot (c : ascii) : bool := (code c =? 46)%nat.

(** Space, tab, line feed, vertical tab, form feed, carriage return. *)
Definition isSpace (c : ascii) : bool :=
  (code c =? 32)%nat || ((9 <=? code c)%nat && (code c <=? 13)%nat).

Definition chars (s : string) : list ascii := list_ascii_of_string s.

(** The classes [[A-Za-z0-9.]] and [[A-Z0-9.]]. *)
Definition requestChar (c : ascii) : bool :=
  isUpper c || isLower c || isDigit c || isDot c.
Definition schemaChar (c : ascii) : bool := isUpper c || isDigit c || isDot c.

(** [/^[A-Za-z0-9.]{1,10}$/] of [validateRequest] and [symbolValidation] *)
Definition matchesRequestPattern (s : string) : bool :=
  (1 <=? String.length s)%nat && (String.length s <=? 10)%nat
  && forallb requestChar (chars s).

(** [/^[A-Z0-9.]{1,10}$/] of the schema *)
Definition matchesSchemaPattern (s : string) : bool :=
  (1 <=? String.length s)%nat && (String.length s <=? 10)%nat
  && forallb schemaChar (chars s).

Definition upperChar (c : ascii) : ascii :=
  if isLower c then ascii_of_nat (code c - 32) else c.

(** [toUpperCase], on ASCII texts *)
Fixpoint toUpperCase (s : string) : string :=
  match s with
  | EmptyString => EmptyString
  | String c rest => String (upperChar c) (toUpperCase rest)
  end.

Fixpoint trimStart (s : string) : string :=
  match s with
  | String c rest => if isSpace c then trimStart rest else s
  | EmptyString => EmptyString
  end.

Fixpoint trimEnd (s : string) : string :=
  match s with
  | EmptyString => EmptyString
  | String c rest =>
      match trimEnd rest with
      | EmptyString => if isSpace c then EmptyString else String c EmptyString
      | kept => String c kept
      end
  end.

(** [trim], on ASCII texts *)
Definition trim (s : string) : string := trimEnd (trimStart s).

(** The schema's setters on [symbol]: [trim: true, uppercase: true]. *)
Definition normalize (s : string) : string := toUpperCase (trim s).

End Symbol.

(** ** The bar collection and the reads of [marketDataService]

    The collection is the list of stored documents.  The schema's setters
    and validators run on every write; the setters also run on the
    [symbol] of a query filter. *)

Module Service.

Import Market.

Inductive Event : Type :=
| StoreFind             (* [MarketData.find({symbol}).limit(1)] *)
| StoreInsertMany       (* [MarketData.insertMany] *)
| StoreQuery            (* [MarketData.find(..).sort(..).limit(..).lean().exec()] *)
| SampleGeneration      (* the loop of [generateSampleData] ran *)
| SimulatedGeneration.  (* [generateSimulatedData] was called *)

Record State : Type := {
  bars : list Bar;      (* the collection *)
  drawn : nat;          (* values of [Math.random()] consumed so far *)
  issued : nat;         (* store operations issued so far *)
  log : list Event      (* most recent first *)
}.

(** A computation reads the world, changes the state, and returns or
    throws. *)
Definition M (A : Type) : Type := World -> State -> outcome A * State.

Definition ret {A : Type} (a : A) : M A := fun _ s => (Ret a, s).
Definition throw {A : Type} : M A := fun _ s => (Throws, s).

Definition mbindM {A B : Type} (m : M A) (f : A -> M B) : M B :=
  fun w s => match m w s with
             | (Ret a, s') => f a w s'
             | (Throws, s') => (Throws, s')
             end.

(** [try { m } catch { handler }] *)
Definition tryCatch {A : Type} (m handler : M A) : M A :=
  fun w s => match m w s with
             | (Ret a, s') => (Ret a, s')
             | (Throws, s') => handler w s'
             end.

Definition record (e : Event) : M unit :=
  fun _ s => (Ret tt, {| bars := bars s; drawn := drawn s;
                         issued := issued s; log := e :: log s |}).

(** Consume [n] random values; returns the index of the first. *)
Definition draw (n : nat) : M nat :=
  fun _ s => (Ret (drawn s), {| bars := bars s; drawn := (drawn s + n)%nat;
                                issued := issued s; log := log s |}).

(** Issue a store operation: it fails when the world says so, otherwise
    [op] computes its result and the new collection. *)
Definition storeOp {A : Type} (e : Event) (op : list Bar -> A * list Bar) : M A :=
  fun w s =>
    let s1 := {| bars := bars s; drawn := drawn s;
                 issued := S (issued s); log := e :: log s |} in
    if faulty w (issued s) then (Throws, s1)
    else let '(a, bs) := op (bars s) in
         (Ret a, {| bars := bs; drawn := drawn s1;
                    issued := issued s1; log := log s1 |}).

(** *** Schema *)

(** A rejected write: a validator failed, the pre-save hook passed an
    error on, or the unique index was violated. *)
Inductive WriteError : Type := ValidationError | HookError | DuplicateKey.

(** The field validators of [MarketDataSchema], on the document after its
    setters ran. *)
Definition validators (b : Bar) : bool :=
  Symbol.matchesSchemaPattern (symbol b)
  && Qltb 0 (open b)
  && Qle_bool (open b) (high b)
  && Qle_bool (low b) (open b)
  && Qltb 0 (close b)
  && (0 <=? volume b).

(** [MarketDataSchema.pre('save')] *)
Definition preSave (b : Bar) : bool := negb (Qltb (high b) (low b)).

Definition applySetters (b : Bar) : Bar :=
  {| symbol := Symbol.normalize (symbol b); timestamp := timestamp b;
     open := open b; high := high b; low := low b; close := close b;
     volume := volume b; source := source b |}.

(** The unique index on [(symbol, timestamp)]. *)
Definition sameKey (a b : Bar) : bool :=
  String.eqb (symbol a) (symbol b) && (timestamp a =? timestamp b).

Definition clashes (b : Bar) (coll : list Bar) : bool := existsb (sameKey b) coll.

(** [new MarketData(doc).save()] on the collection: validation runs
    before the pre-save hook. *)
Definition save (doc : Bar) (coll : list Bar) : WriteError + list Bar :=
  let b := applySetters doc in
  if negb (validators b) then inl ValidationError
  else if negb (preSave b) then inl HookError
  else if clashes b coll then inl DuplicateKey
  else inr (coll ++ [b]).

(** [insertMany(docs, { ordered: false })]: every document that passes
    validation and does not clash is inserted; [true] reports that some
    document clashed (error code 11000). *)
Fixpoint insertMany (docs : list Bar) (coll : list Bar) : bool * list Bar :=
  match docs with
  | [] => (false, coll)
  | doc :: docs' =>
      let b := applySetters doc in
      if negb (validators b) then insertMany docs' coll
      else if clashes b coll then (true, snd (insertMany docs' coll))
      else insertMany docs' (coll ++ [b])
  end.

(** *** Queries *)

Definition ofSymbol (sym : string) (b : Bar) : bool :=
  String.eqb (symbol b) (Symbol.normalize sym).

(** [find({ symbol })] *)
Definition find (sym : string) (coll : list Bar) : list Bar :=
  List.filter (ofSymbol sym) coll.

Fixpoint insertDescending (b : Bar) (sorted : list Bar) : list Bar :=
  match sorted with
  | [] => [b]
  | x :: rest =>
      if timestamp x <? timestamp b then b :: sorted
      else x :: insertDescending b rest
  end.

(** [.sort({ timestamp: -1 })] *)
Definition sortDescending (l : list Bar) : list Bar :=
  fold_right insertDescending [] l.

(** [find({ symbol }).sort({ timestamp: -1 }).limit(limit)] *)
Definition latest (sym : string) (limit : Z) (coll : list Bar) : list Bar :=
  firstn (Z.to_nat limit) (sortDescending (find sym coll)).

(** *** [generateSimulatedData] *)

Definition generateSimulatedData (sym : string) (numPoints : Z) : M (list Bar) :=
  mbindM (record SimulatedGeneration) (fun _ =>
  tryCatch
    (if String.eqb sym EmptyString then throw
     else if (numPoints =? 0) || (numPoints <=? 0) || (1000 <? numPoints) then throw
     else
       mbindM (draw (5 * Z.to_nat numPoints)) (fun start =>
       fun w => ret (backfill w simulatedVolatility start sym numPoints) w))
    (ret [])).

(** *** [generateSampleData] *)

Definition generateSampleData (sym : string) (numPoints : Z) : M unit :=
  tryCatch
    (if String.eqb sym EmptyString then throw
     else if (numPoints =? 0) || (numPoints <=? 0) || (1000 <? numPoints) then throw
     else
       mbindM (storeOp StoreFind (fun coll => (firstn 1 (find sym coll), coll)))
         (fun existingData =>
       if (0 <? length existingData)%nat then ret tt
       else
         mbindM (record SampleGeneration) (fun _ =>
         mbindM (draw (5 * Z.to_nat numPoints)) (fun start =>
         fun w =>
           let marketData := backfill w (sampleVolatility w) start sym numPoints in
           mbindM (storeOp StoreInsertMany (insertMany marketData))
                  (fun _duplicates => ret tt) w))))
    throw.

(** *** [getLatestMarketData] *)

Definition getLatestMarketData (sym : string) (limit : Z) : M (list Bar) :=
  tryCatch
    (if String.eqb sym EmptyString then throw
     else if (limit =? 0) || (limit <=? 0) || (1000 <? limit) then throw
     else
       mbindM (generateSampleData sym (Z.max limit 100)) (fun _ =>
       mbindM (storeOp StoreQuery (fun coll => (latest sym limit coll, coll)))
         (fun data =>
       if (length data =? 0)%nat then generateSimulatedData sym limit
       else ret (rev data))))
    (generateSimulatedData sym limit).

(** Arguments the reads accept: a non-empty symbol and a count between 1
    and 1000. *)
Definition acceptable (sym : string) (n : Z) : Prop := sym <> EmptyString /\ 1 <= n <= 1000.


(** The state after one more event, store operation or batch of draws. *)
Definition after (s : State) (coll : list Bar) (draws ops : nat)
    (events : list Event) : State :=
  {| bars := coll; drawn := (drawn s + draws)%nat;
     issued := (issued s + ops)%nat; log := events ++ log s |}.


(** Orders on bars by timestamp. *)
Definition newerFirst (a b : Bar) : Prop := timestamp b <= timestamp a.
Definition olderFirst (a b : Bar) : Prop := timestamp a <= timestamp b.


(** Running a read on a collection, from a fresh call. *)
Definition initial (coll : list Bar) : State :=
  {| bars := coll; drawn := 0; issued := 0; log := [] |}.

Definition count (e : Event) (l : list Event) : nat :=
  length (List.filter (fun x => match e, x with
                                | StoreFind, StoreFind
                                | StoreInsertMany, StoreInsertMany
                                | StoreQuery, StoreQuery
                                | SampleGeneration, SampleGeneration
                                | SimulatedGeneration, SimulatedGeneration => true
                                | _, _ => false
                                end) l).

End Service.

(** ** Sentiment scoring (the [/sentiment] handler) *)

Module Sentiment.

Import Indicators Market.

(** [bar[name]]: a bar carries the schema's fields and nothing else, so
    any other property reads [undefined]. *)
Definition barProp (b : Bar) (name : string) : val :=
  if String.eqb name "open" then VNum (Fin (open b))
  else if String.eqb name "high" then VNum (Fin (high b))
  else if String.eqb name "low" then VNum (Fin (low b))
  else if String.eqb name "close" then VNum (Fin (close b))
  else if String.eqb name "volume" then VNum (ofZ (volume b))
  else VUndef.

(** [marketData[j]] *)
Definition barAt (marketData : list Bar) (j : Z) : option Bar :=
  if j <? 0 then None else nth_error marketData (Z.to_nat j).

(** [v?.name] on a plain value: [undefined] and [null] short-circuit to
    [undefined], and a number has no such property. *)
Definition optionalProp (v : val) (name : string) : val :=
  match v with
  | VUndef | VNull => VUndef
  | VNum _ => VUndef
  end.

(** [marketData[marketData.length - 2].macd?.histogram]; reading [.macd]
    of a missing bar throws. *)
Definition previousHistogram (marketData : list Bar) : outcome val :=
  match barAt marketData (Z.of_nat (length marketData) - 2) with
  | None => Throws
  | Some b => Ret (optionalProp (barProp b "macd") "histogram")
  end.

(** [a && b], where evaluating [b] may throw. *)
Definition andAlso (a : bool) (b : outcome bool) : outcome bool :=
  if a then b else Ret false.

(** [v.toFixed(2)] throws on [undefined] and [null]. *)
Definition toFixed (v : val) : outcome unit :=
  match v with
  | VNum _ => Ret tt
  | _ => Throws
  end.

Definition lit (q : Q) : val := VNum (Fin q).

(** RSI analysis *)
Definition rsiBlock (ind : Snapshot) (score : Q) : outcome Q :=
  if not_null (rsi ind) then
    let score' :=
      if vlt (rsi ind) (lit 30) then (score + 1)%Q
      else if vgt (rsi ind) (lit 70) then (score - 1)%Q
      else if vgt (rsi ind) (lit 50) then (score + 0.2)%Q
      else (score - 0.2)%Q in
    _ ← toFixed (rsi ind); Ret score'
  else Ret score.

(** Histogram analysis for momentum *)
Definition histogramBlock (ind : Snapshot) (marketData : list Bar) (score : Q)
  : outcome Q :=
  let h := hist (macd ind) in
  let above := fun prev : val => Ret (vgt h prev) in
  let below := fun prev : val => Ret (vlt h prev) in
  if not_null h then
    JS.bind (andAlso (vgt h (lit 0)) (JS.bind (previousHistogram marketData) above))
      (fun increasingPositive : bool =>
    if increasingPositive then Ret (score + 0.5)%Q
    else
      JS.bind (andAlso (vlt h (lit 0)) (JS.bind (previousHistogram marketData) below))
        (fun decreasingNegative : bool =>
      if decreasingNegative then Ret (score - 0.5)%Q else Ret score))
  else Ret score.

(** MACD analysis *)
Definition macdBlock (ind : Snapshot) (marketData : list Bar) (score : Q)
  : outcome Q :=
  if not_null (line (macd ind)) && not_null (signal (macd ind)) then
    let score' :=
      if vgt (line (macd ind)) (signal (macd ind)) then (score + 0.75)%Q
      else (score - 0.75)%Q in
    histogramBlock ind marketData score'
  else Ret score.

(** Moving average analysis *)
Definition movingAverageBlock (ind : Snapshot) (score : Q) : Q :=
  if not_null (sma20 ind) && not_null (sma50 ind) then
    if vgt (sma20 ind) (sma50 ind) then (score + 0.75)%Q else (score - 0.75)%Q
  else score.

(** [priceChange = (latestPrice - prevClose) / prevClose] with
    [prevClose = marketData[length - 2]?.close || latestPrice] *)
Definition priceChange (marketData : list Bar) : outcome num :=
  match barAt marketData (Z.of_nat (length marketData) - 1) with
  | None => Throws
  | Some lastBar =>
      let latestPrice := Fin (close lastBar) in
      let prevClose :=
        match barAt marketData (Z.of_nat (length marketData) - 2) with
        | Some b => if nfalsy (Fin (close b)) then latestPrice else Fin (close b)
        | None => latestPrice
        end in
      Ret (ndiv (nsub latestPrice prevClose) prevClose)
  end.

(** Price action analysis *)
Definition priceActionBlock (change : num) (score : Q) : Q :=
  if ngt change (Fin 0.01) then (score + 0.5)%Q
  else if nlt change (Fin (-0.01)) then (score - 0.5)%Q
  else score.

(** [latestVolume / avgVolume] with the average over [slice(-10)] divided
    by 10 *)
Definition volumeRatio (marketData : list Bar) : outcome num :=
  match barAt marketData (Z.of_nat (length marketData) - 1) with
  | None => Throws
  | Some lastBar =>
      let lastTen := skipn (length marketData - 10) marketData in
      let total := fold_left (fun acc d => nadd acc (ofZ (volume d))) lastTen (Fin 0) in
      Ret (ndiv (ofZ (volume lastBar)) (ndiv total (Fin 10)))
  end.

(** Volume analysis *)
Definition volumeBlock (ratio change : num) (score : Q) : Q :=
  if ngt ratio (Fin 1.5) && ngt change (Fin 0) then (score + 0.5)%Q
  else if ngt ratio (Fin 1.5) && nlt change (Fin 0) then (score - 0.5)%Q
  else score.

(** The raw [sentimentScore] of the handler. *)
Definition sentimentScore (ind : Snapshot) (marketData : list Bar) : outcome Q :=
  s1 ← rsiBlock ind 0;
  s2 ← macdBlock ind marketData s1;
  let s3 := movingAverageBlock ind s2 in
  change ← priceChange marketData;
  let s4 := priceActionBlock change s3 in
  ratio ← volumeRatio marketData;
  Ret (volumeBlock ratio change s4).

Inductive Label : Type :=
  Bearish | SlightlyBearish | Neutral | SlightlyBullish | Bullish.

Definition labelOf (score : Q) : Label :=
  if Qltb score (-2) then Bearish
  else if Qltb score (-0.5) then SlightlyBearish
  else if Qltb score 0.5 then Neutral
  else if Qltb score 2 then SlightlyBullish
  else Bullish.

(** [Math.round(Math.max(-100, Math.min(100, sentimentScore * 25)))],
    on the exact value of the score: where the double the source rounds
    lies just off a half, the two can differ by one. *)
Definition normalizedScore (score : Q) : Z :=
  Qfloor (qmax (-100) (qmin 100 (score * 25)) + 0.5).

Record Report : Type := {
  sentiment : Label;
  score : Z;
  technicalIndicators : Snapshot
}.

(** The handler's work once the market data is at hand. *)
Definition analyse (marketData : list Bar) : outcome Report :=
  snapshot ← calculateIndicators (map (fun d => Fin (close d)) marketData);
  match snapshot with
  | None => Throws
  | Some ind =>
      raw ← sentimentScore ind marketData;
      Ret {| sentiment := labelOf raw; score := normalizedScore raw;
             technicalIndicators := ind |}
  end.

End Sentiment.

(** ** Response cache ([node-cache] behind [cacheMiddleware]) *)

Module Cache.

Section WithPayload.

Context {P : Type}.

Record Entry : Type := {
  payload : P;
  expiresAt : Z     (* milliseconds; [0] never expires *)
}.

(** [key.includes(pattern)] *)
Fixpoint includes (key pattern : string) : bool :=
  String.prefix pattern key
  || match key with
     | EmptyString => false
     | String _ rest => includes rest pattern
     end.

(** [cache.keys()] *)
Definition keys (c : gmap string Entry) : list string := (map_to_list c).*1.

(** [cache.get(key)]: an entry past its expiry reads as absent. *)
Definition get (nowMs : Z) (key : string) (c : gmap string Entry) : option P :=
  match c !! key with
  | Some e =>
      if negb (expiresAt e =? 0) && (expiresAt e <? nowMs) then None
      else Some (payload e)
  | None => None
  end.

(** [cache.set(key, data, ttl)] with [ttl] in seconds *)
Definition set (nowMs : Z) (key : string) (data : P) (ttl : Z)
    (c : gmap string Entry) : gmap string Entry :=
  <[key := {| payload := data;
              expiresAt := if ttl =? 0 then 0 else nowMs + ttl * 1000 |}]> c.

(** [invalidateCache] *)
Definition invalidateCache (pattern : string) (c : gmap string Entry)
  : gmap string Entry :=
  let matchingKeys := List.filter (fun key => includes key pattern) (keys c) in
  fold_left (fun acc key => delete key acc) matchingKeys c.

End WithPayload.

Arguments Entry P : clear implicits.

End Cache.

(** ** Routes

    A query parameter is absent or a text. *)

Module Routes.

Import Market Service.

Inductive Reply (B : Type) : Type :=
| Ok (body : B)         (* 200 *)
| BadRequest            (* 400, validation error *)
| NotFound              (* 404 *)
| ServerError.          (* 500 *)
Arguments Ok {B} body.
Arguments BadRequest {B}.
Arguments NotFound {B}.
Arguments ServerError {B}.

Record Request : Type := {
  originalUrl : string;
  symbolParam : option string;
  limitParam : option Z
}.

(** [validateRequest] of the analysis routes: [true] calls [next()],
    [false] replies 400. *)
Definition validateRequest (req : Request) : bool :=
  match symbolParam req with
  | None => true
  | Some sym =>
      if String.eqb sym EmptyString then true
      else Symbol.matchesRequestPattern sym
  end.

(** [symbolValidation] of the market routes: [optional()] skips only an
    absent parameter. *)
Definition symbolValidation (req : Request) : bool :=
  match symbolParam req with
  | None => true
  | Some sym =>
      (1 <=? String.length sym)%nat && (String.length sym <=? 10)%nat
      && Symbol.matchesRequestPattern sym
  end.

(** [limitValidation] *)
Definition limitValidation (req : Request) : bool :=
  match limitParam req with
  | None => true
  | Some n => (1 <=? n) && (n <=? 500)
  end.

(** [const { symbol = 'SPY' } = req.query] *)
Definition symbolOrDefault (req : Request) : string :=
  match symbolParam req with
  | Some sym => sym
  | None => "SPY"
  end.

Definition limitOrDefault (req : Request) : Z :=
  match limitParam req with
  | Some n => n
  | None => 100
  end.

(** [GET /sentiment]: [validateRequest], then the handler. *)
Definition sentimentRoute (req : Request) : M (Reply Sentiment.Report) :=
  if negb (validateRequest req) then ret (A := Reply Sentiment.Report) BadRequest
  else
    tryCatch (A := Reply Sentiment.Report)
      (mbindM (getLatestMarketData (symbolOrDefault req) 50) (fun marketData =>
       if (length marketData =? 0)%nat
       then ret (A := Reply Sentiment.Report) NotFound
       else match Sentiment.analyse marketData with
            | Ret report => ret (Ok report)
            | Throws => throw
            end))
      (ret ServerError).

(** The process state seen by the market routes. *)
Record Server : Type := {
  service : State;
  cache : gmap string (Cache.Entry (list Bar))
}.

(** [GET /] of the market routes: validation chains, [validate],
    [cacheMiddleware(30)], then the handler under [asyncHandler]. *)
Definition marketRoute (req : Request) (w : World) (srv : Server)
  : Reply (list Bar) * Server :=
  if negb (symbolValidation req && limitValidation req) then (BadRequest, srv)
  else
    match Cache.get (now w) (originalUrl req) (cache srv) with
    | Some cachedData => (Ok cachedData, srv)
    | None =>
        match getLatestMarketData (symbolOrDefault req) (limitOrDefault req)
                                  w (service srv) with
        | (Ret data, st) =>
            if (length data =? 0)%nat
            then (NotFound, {| service := st; cache := cache srv |})
            else (Ok data,
                  {| service := st;
                     cache := Cache.set (now w) (originalUrl req) data 30
                                        (cache srv) |})
        | (Throws, st) => (ServerError, {| service := st; cache := cache srv |})
        end
    end.

End Routes.

(** ** Shapes of price series used in the statements *)

Module Series.

(** Every period-over-period delta is strictly positive. *)
Fixpoint strictlyIncreasing (closes : list Q) : Prop :=
  match closes with
  | x :: (y :: _) as rest => (x < y)%Q /\ strictlyIncreasing rest
  | _ => True
  end.

(** Every period-over-period delta is strictly negative. *)
Fixpoint strictlyDecreasing (closes : list Q) : Prop :=
  match closes with
  | x :: (y :: _) as rest => (y < x)%Q /\ strictlyDecreasing rest
  | _ => True
  end.

(** [100, 101, ..., 100 + n - 1] *)
Definition ramp (n : nat) : list Q :=
  map (fun i => inject_Z (Z.of_nat (100 + i))) (seq 0 n).

(** [100, 99, ..., 100 - n + 1] *)
Definition slope (n : nat) : list Q :=
  map (fun i => inject_Z (100 - Z.of_nat i)) (seq 0 n).

(** [100 + i * i]: a series that accelerates upwards. *)
Definition accelerating (n : nat) : list Q :=
  map (fun i => inject_Z (100 + Z.of_nat (i * i))) (seq 0 n).

(** Bars at a five-minute cadence with the given closes and constant
    volume. *)
Definition barsOf (closes : list Q) : list Market.Bar :=
  map (fun ic => {| Market.symbol := "SPY";
                    Market.timestamp := Z.of_nat (fst ic) * 300000;
                    Market.open := snd ic;
                    Market.high := snd ic + 1;
                    Market.low := snd ic - 1;
                    Market.close := snd ic;
                    Market.volume := 100000;
                    Market.source := Market.SIMULATED |})
      (combine (seq 0 (length closes)) closes).

(** The three values [calculateIndicators] surfaces for MACD. *)
Definition surfacedMacd (closes : list Q) : option Indicators.MacdLatest :=
  match Indicators.calculateIndicators (map Fin closes) with
  | Ret (Some s) => Some (Indicators.macd s)
  | _ => None
  end.

(** The latest line, signal and histogram of the MACD of the
    specification, when all three are finite numbers. *)
Definition referenceMacd (closes : list Q) : option (Q * Q * Q) :=
  match Reference.macd (map Fin closes) 12 26 9 with
  | Some m =>
      match Indicators.getLatestValue (Some (Indicators.macdLine m)),
            Indicators.getLatestValue (Some (Indicators.signalLine m)),
            Indicators.getLatestValue (Some (Indicators.histogram m)) with
      | VNum (Fin l), VNum (Fin g), VNum (Fin h) => Some (l, g, h)
      | _, _, _ => None
      end
  | None => None
  end.

(** An array whose last slot holds NaN. *)
Definition ends_NaN (arr : list num) : Prop := exists init, arr = init ++ [NaN].


(** A positive, respectively negative, finite delta. *)
Definition gain (c : num) : Prop := exists q, c = Fin q /\ (0 < q)%Q.
Definition loss (c : num) : Prop := exists q, c = Fin q /\ (q < 0)%Q.


(** The histogram is the line minus the signal. *)
Definition histogramIsDifference (figures : option (Q * Q * Q)) : bool :=
  match figures with
  | Some (l, g, h) => Qeq_bool h (l - g)
  | None => false
  end.


(** The figures of the specification's MACD over two successive
    evaluations: line above signal both times, histogram positive and
    grown. *)
Definition figuresGrow (previous current : option (Q * Q * Q)) : bool :=
  match previous, current with
  | Some (l', g', h'), Some (l, g, h) =>
      Qltb g' l' && Qltb g l && Qltb 0 h && Qltb h' h
  | _, _ => false
  end.

(** The raw score of the handler is [expected]. *)
Definition scoreIs (marketData : list Market.Bar) (expected : Q) : bool :=
  match Indicators.calculateIndicators (map (fun d => Fin (Market.close d)) marketData) with
  | Ret (Some ind) =>
      match Sentiment.sentimentScore ind marketData with
      | Ret raw => Qeq_bool raw expected
      | Throws => false
      end
  | _ => false
  end.


End Series.

(** ** Worlds and bars used in the statements *)

Module Scenario.

Import Market.

(** A one-step Heron estimate of the square root; exact at 1. *)
Definition heron (x : Q) : Q := ((x + 1) / 2)%Q.

(** Midday, every random draw in the middle of its range. *)
Definition calmWorld : World :=
  {| now := 1700000000000;
     random := fun _ => 0.5%Q;
     sin := fun _ => 0%Q;
     sqrt := heron;
     faulty := fun _ => false |}.

(** The same surroundings with every store operation failing. *)
Definition brokenStoreWorld : World :=
  {| now := 1700000000000;
     random := fun _ => 0.5%Q;
     sin := fun _ => 0%Q;
     sqrt := heron;
     faulty := fun _ => true |}.

(** Four million minutes (about 7.6 years) after the epoch, every random
    draw at the bottom of its range; the square root of the elapsed
    minutes is exact. *)
Definition staleWorld : World :=
  {| now := 4000000 * 60000;
     random := fun _ => 0%Q;
     sin := fun _ => 0%Q;
     sqrt := fun x => if Qeq_bool x 4000000 then 2000%Q else heron x;
     faulty := fun _ => false |}.

Definition barAtEpoch : Bar :=
  {| symbol := "SPY"; timestamp := 0;
     open := 100; high := 101; low := 99; close := 100;
     volume := 100000; source := SIMULATED |}.

(** One minute before [calmWorld]'s clock. *)
Definition recentBar : Bar :=
  {| symbol := "SPY"; timestamp := 1700000000000 - 60000;
     open := 100; high := 101; low := 99; close := 100;
     volume := 100000; source := SIMULATED |}.

(** A bar that closed above its high. *)
Definition closedAboveHigh : Bar :=
  {| symbol := "SPY"; timestamp := 0;
     open := 100; high := 101; low := 99; close := 102;
     volume := 100000; source := SIMULATED |}.

(** A bar whose high is below its open. *)
Definition highBelowOpen : Bar :=
  {| symbol := "SPY"; timestamp := 0;
     open := 100; high := 99; low := 98; close := 99;
     volume := 100000; source := SIMULATED |}.

(** Twenty stored bars for SPY, five minutes apart, inserted newest
    first. *)
Definition twentyBars : list Bar :=
  map (fun i => {| symbol := "SPY";
                   timestamp := 1700000000000 - Z.of_nat i * 300000;
                   open := 450; high := 451; low := 449; close := 450;
                   volume := 100000; source := SIMULATED |})
      (seq 1 20).

End Scenario.

(** ** Invariants of the collection *)

Module Invariant.

Import Market Service.

(** No two stored bars share [(symbol, timestamp)]. *)
Definition uniqueKeys (coll : list Bar) : Prop :=
  ForallOrdPairs (fun a b => sameKey a b = false) coll.

(** Every stored bar passes the schema's validators, and the unique index
    holds. *)
Definition consistent (coll : list Bar) : Prop :=
  Forall (fun b => validators b = true) coll /\ uniqueKeys coll.

End Invariant.

(** ** The refresh tick ([fetchMarketData]) and [fetchHistoricalData]

    The two store calls of [fetchMarketData] count among the issued
    operations; the log keeps to the events of the reads. *)

Module Tick.

Import Market Service.

(** A store call whose operation may itself reject. *)
Definition storeCall {A : Type} (op : list Bar -> outcome (A * list Bar)) : M A :=
  fun w s =>
    let s1 := {| bars := bars s; drawn := drawn s;
                 issued := S (issued s); log := log s |} in
    if faulty w (issued s) then (Throws, s1)
    else match op (bars s) with
         | Ret (a, bs) =>
             (Ret a, {| bars := bs; drawn := drawn s1;
                        issued := issued s1; log := log s1 |})
         | Throws => (Throws, s1)
         end.

(** [MarketData.findOne({ symbol }).sort({ timestamp: -1 })] *)
Definition findOneLatest (sym : string) (coll : list Bar) : option Bar :=
  List.hd_error (sortDescending (find sym coll)).

(** [new MarketData(newDataPoint).save()]: a rejected write throws. *)
Definition saveDocument (doc : Bar) (coll : list Bar) : outcome (unit * list Bar) :=
  match save doc coll with
  | inr coll' => Ret (tt, coll')
  | inl _ => Throws
  end.

(** [fetchMarketData].  When the latest stored bar is dated after now,
    [timeElapsed] is negative, [Math.sqrt] of it is NaN and so are the
    close, high and low of the new data point: the document is rejected
    before the store is reached. *)
Definition fetchMarketData (sym : string) : M (list Bar) :=
  tryCatch
    (if String.eqb sym EmptyString then throw
     else
       mbindM (storeCall (fun coll => Ret (findOneLatest sym coll, coll)))
         (fun latestData =>
       match latestData with
       | None =>
           mbindM (generateSampleData sym 100) (fun _ =>
           getLatestMarketData sym 100)
       | Some previous =>
           mbindM (draw 4) (fun start =>
           fun w =>
             if now w <? timestamp previous then throw w
             else
               mbindM (storeCall (saveDocument (incrementalBar w start sym previous)))
                      (fun _ => getLatestMarketData sym 100) w)
       end))
    (generateSimulatedData sym 100).

(** The sample counts of [fetchHistoricalData]; [None] for a period that
    is not one of the six. *)
Definition pointsOf (period : string) : option Z :=
  if String.eqb period "1d" then Some 75
  else if String.eqb period "1w" then Some 390
  else if String.eqb period "1m" then Some 1680
  else if String.eqb period "3m" then Some 5000
  else if String.eqb period "6m" then Some 10000
  else if String.eqb period "1y" then Some 20000
  else None.

(** [fetchHistoricalData] *)
Definition fetchHistoricalData (sym period : string) : M (list Bar) :=
  tryCatch
    (if String.eqb sym EmptyString then throw
     else
       match pointsOf period with
       | None => throw
       | Some numPoints =>
           mbindM (generateSampleData sym (Z.min numPoints 1000)) (fun _ =>
           if 1000 <? numPoints
           then mbindM (draw (5 * Z.to_nat numPoints)) (fun start =>
                fun w => ret (generateHistoricalSimulation w start sym numPoints) w)
           else getLatestMarketData sym numPoints)
       end)
    (generateSimulatedData sym 200).

(** The symbols the scheduled job refreshes. *)
Definition trackedSymbols : list string := ["SPY"; "AAPL"; "MSFT"; "GOOGL"]%string.

(** One run of the scheduled job: for each tracked symbol in turn,
    [fetchMarketData], and an emission on [marketUpdate:SYMBOL] when the
    data is not empty.  Returns the emissions in order. *)
Fixpoint refreshAll (symbols : list string) : M (list (string * list Bar)) :=
  match symbols with
  | [] => ret []
  | sym :: rest =>
      mbindM (tryCatch (fetchMarketData sym) (ret [])) (fun marketData =>
      mbindM (refreshAll rest) (fun emitted =>
      ret (if (0 <? length marketData)%nat
           then (String.append "marketUpdate:" sym, marketData) :: emitted
           else emitted)))
  end.

Definition scheduledRefresh : M (list (string * list Bar)) :=
  refreshAll trackedSymbols.

End Tick.

(** ** Alerts ([getMarketAlerts])

    An alert is represented by its kind; the figures formatted into its
    message are left out. *)

Module Alerts.

Import Market Service.

Inductive Alert : Type :=
| PriceMovement     (* Significant price movement *)
| VolumeSpike       (* Unusual volume detected *)
| Consolidation     (* Price consolidation detected *)
| BullishCross      (* 20-period SMA crossed above 50-period SMA *)
| BearishCross.     (* 20-period SMA crossed below 50-period SMA *)

(** [Math.abs] *)
Definition nabs (a : num) : num :=
  match a with
  | Fin q => Fin (Qabs q)
  | PInf | NInf => PInf
  | NaN => NaN
  end.

(** [Math.max(a, b)] and [Math.min(a, b)]: NaN if either is. *)
Definition nmax (a b : num) : num :=
  match a, b with
  | NaN, _ | _, NaN => NaN
  | _, _ => if nlt a b then b else a
  end.

Definition nmin (a b : num) : num :=
  match a, b with
  | NaN, _ | _, NaN => NaN
  | _, _ => if nlt b a then b else a
  end.

(** [Math.max(...xs)] and [Math.min(...xs)] *)
Definition maxOf (xs : list num) : num := fold_left nmax xs NInf.
Definition minOf (xs : list num) : num := fold_left nmin xs PInf.

(** [arr.slice(-n)] for [0 < n]: the whole array when it is shorter. *)
Definition lastN {A : Type} (n : nat) (arr : list A) : list A :=
  skipn (length arr - n) arr.

(** [calcSMA]: the last [periods] closes, summed and divided by
    [periods]. *)
Definition calcSMA (data : list Bar) (periods : nat) : num :=
  ndiv (sum (lastN periods (map (fun d => Fin (close d)) data))) (ofnat periods).

(** [avgVolume]: the last ten volumes, summed and divided by 10. *)
Definition avgVolume (marketData : list Bar) : num :=
  ndiv (fold_left (fun acc d => nadd acc (ofZ (volume d)))
                  (lastN 10 marketData) (Fin 0))
       (Fin 10).

(** [recentRange = (recentHigh - recentLow) / recentLow] over the last
    ten bars *)
Definition recentRange (marketData : list Bar) : num :=
  let recentHigh := maxOf (map (fun d => Fin (high d)) (lastN 10 marketData)) in
  let recentLow := minOf (map (fun d => Fin (low d)) (lastN 10 marketData)) in
  ndiv (nsub recentHigh recentLow) recentLow.

(** The crossover check, made when there are at least 50 bars. *)
Definition crossover (marketData : list Bar) : list Alert :=
  if (50 <=? length marketData)%nat then
    let sma20Today := calcSMA marketData 20 in
    let sma50Today := calcSMA marketData 50 in
    let yesterdayData := firstn (length marketData - 1) marketData in
    let sma20Yesterday := calcSMA yesterdayData 20 in
    let sma50Yesterday := calcSMA yesterdayData 50 in
    if nlt sma20Yesterday sma50Yesterday && ngt sma20Today sma50Today
    then [BullishCross]
    else if ngt sma20Yesterday sma50Yesterday && nlt sma20Today sma50Today
         then [BearishCross]
         else []
  else [].

(** The checks of [getMarketAlerts] on non-empty market data, in the
    order they are made. *)
Definition alertsOf (marketData : list Bar) : outcome (list Alert) :=
  change ← Sentiment.priceChange marketData;
  latest ← match Sentiment.barAt marketData (Z.of_nat (length marketData) - 1) with
           | Some b => Ret b
           | None => Throws
           end;
  Ret ((if ngt (nabs change) (Fin 0.01) then [PriceMovement] else [])
       ++ (if ngt (ofZ (volume latest)) (nmul (avgVolume marketData) (Fin 1.5))
           then [VolumeSpike] else [])
       ++ (if nlt (recentRange marketData) (Fin 0.005) then [Consolidation] else [])
       ++ crossover marketData).

(** [getMarketAlerts] *)
Definition getMarketAlerts (sym : string) : M (list Alert) :=
  tryCatch (A := list Alert)
    (if String.eqb sym EmptyString then throw
     else
       mbindM (getLatestMarketData sym 50) (fun marketData =>
       if (length marketData =? 0)%nat then ret (A := list Alert) []
       else match alertsOf marketData with
            | Ret alerts => ret alerts
            | Throws => throw
            end))
    (ret []).

End Alerts.

(** ** Symbol subscriptions of a socket ([server.js])

    A client message is a text. *)

Module Sockets.

Import Market Service.

(** [new Set(['SPY'])] *)
Definition defaultSubscriptions : gset string := {["SPY"%string]}.

(** The [subscribeSymbol] handler: the new subscription set, and the fetch
    whose non-empty result is emitted on [marketUpdate:symbol]. *)
Definition subscribeSymbol (sym : string) (subscribed : gset string)
  : gset string * M (option (string * list Bar)) :=
  if (0 <? String.length sym)%nat then
    ({[Symbol.toUpperCase sym]} ∪ subscribed,
     tryCatch
       (mbindM (getLatestMarketData sym 100) (fun data =>
        ret (if (0 <? length data)%nat
             then Some (String.append "marketUpdate:" sym, data)
             else None)))
       (ret None))
  else (subscribed, ret None).

(** The [unsubscribeSymbol] handler *)
Definition unsubscribeSymbol (sym : string) (subscribed : gset string)
  : gset string :=
  subscribed ∖ {[Symbol.toUpperCase sym]}.

End Sockets.

(** ** The other market routes

    [GET /historical] and [POST /invalidate-cache]; the latter carries
    its symbol in the request body, absent or a text. *)

Module MarketRoutes.

Import Market Service Routes Tick.

(** [periodValidation] *)
Definition periodValidation (periodParam : option string) : bool :=
  match periodParam with
  | None => true
  | Some period =>
      existsb (String.eqb period) ["1d"; "1w"; "1m"; "3m"; "6m"; "1y"]%string
  end.

(** [const { period = '1m' } = req.query] *)
Definition periodOrDefault (periodParam : option string) : string :=
  match periodParam with
  | Some period => period
  | None => "1m"
  end.

(** [GET /historical]: validation chains, [validate],
    [cacheMiddleware(300)], then the handler under [asyncHandler]. *)
Definition historicalRoute (req : Request) (periodParam : option string)
    (w : World) (srv : Server) : Reply (list Bar) * Server :=
  if negb (symbolValidation req && periodValidation periodParam)
  then (BadRequest, srv)
  else
    match Cache.get (now w) (originalUrl req) (cache srv) with
    | Some cachedData => (Ok cachedData, srv)
    | None =>
        match fetchHistoricalData (symbolOrDefault req)
                                  (periodOrDefault periodParam)
                                  w (service srv) with
        | (Ret data, st) =>
            if (length data =? 0)%nat
            then (NotFound, {| service := st; cache := cache srv |})
            else (Ok data,
                  {| service := st;
                     cache := Cache.set (now w) (originalUrl req) data 300
                                        (cache srv) |})
        | (Throws, st) => (ServerError, {| service := st; cache := cache srv |})
        end
    end.


End MarketRoutes.

(** ** Symbol search ([searchSymbols]) *)

Module Search.

Import Symbol.

(** The characters of an ASCII text: the codes below 128.  On such
    texts [toLowerCase], [toUpperCase] and [trim] below are JavaScript's;
    beyond them JavaScript maps by Unicode and the model does not. *)
Definition isAscii (c : ascii) : bool := (code c <? 128)%nat.

Definition lowerChar (c : ascii) : ascii :=
  if isUpper c then ascii_of_nat (code c + 32) else c.

(** [toLowerCase], on ASCII texts *)
Fixpoint toLowerCase (s : string) : string :=
  match s with
  | EmptyString => EmptyString
  | String c rest => String (lowerChar c) (toLowerCase rest)
  end.

(** The table of [searchSymbols]: symbol and name. *)
Definition symbols : list (string * string) :=
  [ ("SPY", "SPDR S&P 500 ETF Trust");
    ("AAPL", "Apple Inc.");
    ("MSFT", "Microsoft Corporation");
    ("GOOGL", "Alphabet Inc.");
    ("AMZN", "Amazon.com Inc.");
    ("TSLA", "Tesla Inc.");
    ("META", "Meta Platforms Inc.");
    ("NVDA", "NVIDIA Corporation");
    ("JPM", "JPMorgan Chase & Co.");
    ("V", "Visa Inc.");
    ("WMT", "Walmart Inc.");
    ("DIA", "SPDR Dow Jones Industrial Average ETF");
    ("QQQ", "Invesco QQQ Trust");
    ("IWM", "iShares Russell 2000 ETF") ]%string.

(** [searchSymbols]: the empty query throws and the handler returns the
    empty array. *)
Definition searchSymbols (query : string) : list (string * string) :=
  if String.eqb query EmptyString then []
  else
    let normalized := trim (toLowerCase query) in
    firstn 10
      (List.filter
         (fun item =>
            Cache.includes (toLowerCase (fst item)) normalized
            || Cache.includes (toLowerCase (snd item)) normalized)
         symbols).

End Search.

(** ** Further worlds and bars used in the statements *)

Module Scenario2.

Import Market Service Scenario.

(** Five minutes after the newest of [twentyBars]. *)
Definition nextWorld : World :=
  {| now := 1700000000000;
     random := fun _ => 0.5%Q;
     sin := fun _ => 0%Q;
     sqrt := heron;
     faulty := fun _ => false |}.

(** Three stored bars for SPY, five minutes apart, newest last. *)
Definition threeBars : list Bar :=
  map (fun i => {| symbol := "SPY";
                   timestamp := 1700000000000 - (4 - Z.of_nat i) * 300000;
                   open := 450; high := 451; low := 449; close := 450;
                   volume := 100000; source := SIMULATED |})
      (seq 1 3).

(** The newest of [threeBars]. *)
Definition newestOfThree : Bar :=
  {| symbol := "SPY"; timestamp := 1700000000000 - 300000;
     open := 450; high := 451; low := 449; close := 450;
     volume := 100000; source := SIMULATED |}.

(** Two bars of one symbol, five minutes apart. *)
Definition olderBar : Bar :=
  {| symbol := "SPY"; timestamp := 0;
     open := 450; high := 451; low := 449; close := 450;
     volume := 100000; source := SIMULATED |}.

Definition newerBar : Bar :=
  {| symbol := "SPY"; timestamp := 300000;
     open := 450; high := 452; low := 449; close := 451;
     volume := 120000; source := SIMULATED |}.

End Scenario2.

(** * Properties *)

(** ** Arithmetic of [num] *)

Section NumFacts.

Lemma nsub_NaN_r (a : num) : nsub a NaN = NaN.
Proof. destruct a; reflexivity. Qed.

Lemma nadd_NaN_l (a : num) : nadd NaN a = NaN.
Proof. reflexivity. Qed.

Lemma nmul_NaN_l (a : num) : nmul NaN a = NaN.
Proof. reflexivity. Qed.

Lemma Qltb_lt (a b : Q) : Qltb a b = true <-> (a < b)%Q.
Proof.
  unfold Qltb. rewrite negb_true_iff, <- not_true_iff_false, Qle_bool_iff.
  split; [apply Qnot_le_lt | apply Qlt_not_le].
Qed.

Lemma Qltb_ge (a b : Q) : Qltb a b = false <-> (b <= a)%Q.
Proof.
  unfold Qltb. rewrite negb_false_iff. apply Qle_bool_iff.
Qed.

Lemma Qis0_false (a : Q) : ~ (a == 0)%Q -> Qis0 a = false.
Proof.
  intros H. unfold Qis0. apply not_true_iff_false.
  rewrite Qeq_bool_iff. exact H.
Qed.

Lemma ofnat_nonzero (n : nat) : (0 < n)%nat -> Qis0 (inject_Z (Z.of_nat n)) = false.
Proof.
  intros H. apply Qis0_false. intros E.
  assert (L : (inject_Z 0 < inject_Z (Z.of_nat n))%Q)
    by (rewrite <- Zlt_Qlt; lia).
  rewrite E in L. exact (Qlt_irrefl _ L).
Qed.

Lemma ndiv_Fin (x y : Q) : ~ (y == 0)%Q -> ndiv (Fin x) (Fin y) = Fin (x / y).
Proof. intros H. unfold ndiv. rewrite (Qis0_false y H). reflexivity. Qed.

End NumFacts.

(** ** Reading the last slot of an array *)

Section ArrayFacts.

Lemma aget_map_seq (f : nat -> num) (a n i : nat) :
  (i < n)%nat -> aget (map f (seq a n)) (Z.of_nat i) = VNum (f (a + i)%nat).
Proof.
  intros H. unfold aget.
  destruct (Z.ltb_spec (Z.of_nat i) 0) as [L|_]; [lia|].
  rewrite Nat2Z.id, nth_error_map, nth_error_seq.
  destruct (Nat.ltb_spec i n); [reflexivity | lia].
Qed.

Lemma aget_beyond (arr : list num) (j : Z) :
  Z.of_nat (length arr) <= j -> aget arr j = VUndef.
Proof.
  intros H. unfold aget.
  destruct (Z.ltb_spec j 0) as [_|L]; [reflexivity|].
  assert (E : nth_error arr (Z.to_nat j) = None)
    by (apply nth_error_None; lia).
  rewrite E. reflexivity.
Qed.

Lemma aget_last_snoc (arr : list num) (x : num) :
  aget (arr ++ [x]) (Z.of_nat (length (arr ++ [x])) - 1) = VNum x.
Proof.
  rewrite length_app. cbn [length].
  replace (Z.of_nat (length arr + 1) - 1) with (Z.of_nat (length arr)) by lia.
  unfold aget. destruct (Z.ltb_spec (Z.of_nat (length arr)) 0); [lia|].
  rewrite Nat2Z.id, nth_error_app2 by lia.
  rewrite Nat.sub_diag. reflexivity.
Qed.

End ArrayFacts.

(** ** MACD: the misaligned subtraction reads past the slow EMA *)

Section MacdFacts.

Import Indicators Series.

Lemma ends_NaN_latest (arr : list num) :
  ends_NaN arr -> getLatestValue (Some arr) = VNum NaN.
Proof. intros [init ->]. apply aget_last_snoc. Qed.

Lemma flat_map_always {A B : Type} (c : A -> bool) (g : A -> B) (l : list A) :
  (forall x, In x l -> c x = true) ->
  flat_map (fun x => if c x then [g x] else []) l = map g l.
Proof.
  induction l as [|x l IH]; intros H; [reflexivity|].
  cbn [flat_map map]. rewrite (H x (or_introl eq_refl)).
  cbn [app]. f_equal. apply IH. intros y Hy. apply H. right. exact Hy.
Qed.

Lemma macdLineOf_map (emaFast emaSlow : list num) :
  (length emaSlow <= length emaFast)%nat ->
  macdLineOf emaFast emaSlow =
  map (fun i => nsub (toNumber (aget emaFast (Z.of_nat i)))
                     (toNumber (aget emaSlow
                        (Z.of_nat i - (Z.of_nat (length emaSlow)
                                       - Z.of_nat (length emaFast))))))
      (seq 0 (length emaFast)).
Proof.
  intros H. unfold macdLineOf. cbv zeta.
  apply (flat_map_always
           (fun i => Z.of_nat i >=? Z.of_nat (length emaSlow)
                                    - Z.of_nat (length emaFast))).
  intros i _. apply Z.geb_le. lia.
Qed.

Lemma macdLineOf_length (emaFast emaSlow : list num) :
  (length emaSlow <= length emaFast)%nat ->
  length (macdLineOf emaFast emaSlow) = length emaFast.
Proof.
  intros H. rewrite macdLineOf_map by exact H.
  rewrite length_map. apply length_seq.
Qed.

Lemma macdLineOf_ends_NaN (emaFast emaSlow : list num) :
  (length emaSlow < length emaFast)%nat ->
  ends_NaN (macdLineOf emaFast emaSlow).
Proof.
  intros H. rewrite macdLineOf_map by lia.
  destruct (length emaFast) as [|m] eqn:E; [lia|].
  rewrite seq_S, map_app. cbn [map Nat.add].
  eexists. f_equal. f_equal.
  rewrite (aget_beyond emaSlow) by lia. apply nsub_NaN_r.
Qed.

Lemma emaLoop_snoc_NaN (k : num) (rest : list num) :
  forall ema, emaLoop k ema (rest ++ [NaN]) = emaLoop k ema rest ++ [NaN].
Proof.
  induction rest as [|x rest IH]; intros ema; [reflexivity|].
  cbn [app emaLoop]. rewrite IH. reflexivity.
Qed.

Lemma emaLoop_length (k : num) (rest : list num) :
  forall ema, length (emaLoop k ema rest) = length rest.
Proof.
  induction rest as [|x rest IH]; intros ema; [reflexivity|].
  cbn [emaLoop length]. f_equal. apply IH.
Qed.

Lemma calculateEMA_length (data : list num) (periods : nat) (out : list num) :
  calculateEMA data periods = Some out ->
  (periods <= length data)%nat /\ length out = S (length data - periods).
Proof.
  unfold calculateEMA. destruct (Nat.ltb_spec (length data) periods); [discriminate|].
  intros [= <-]. split; [assumption|]. cbn [length].
  rewrite emaLoop_length, length_skipn. reflexivity.
Qed.

Lemma calculateEMA_defined (data : list num) (periods : nat) :
  (periods <= length data)%nat -> exists out, calculateEMA data periods = Some out.
Proof.
  intros H. unfold calculateEMA.
  destruct (Nat.ltb_spec (length data) periods); [lia|]. eauto.
Qed.

Lemma calculateEMA_ends_NaN (data out : list num) (periods : nat) :
  ends_NaN data -> (periods < length data)%nat ->
  calculateEMA data periods = Some out -> ends_NaN out.
Proof.
  intros [init ->] L. unfold calculateEMA.
  destruct (Nat.ltb_spec (length (init ++ [NaN])) periods); [discriminate|].
  intros [= <-]. rewrite length_app in L. cbn [length] in L.
  rewrite skipn_app.
  replace (periods - length init)%nat with 0%nat by lia.
  rewrite skipn_0, emaLoop_snoc_NaN.
  eexists. rewrite app_comm_cons. reflexivity.
Qed.

Lemma histogramOf_ends_NaN (macdL signalL : list num) :
  ends_NaN signalL -> ends_NaN (histogramOf macdL signalL).
Proof.
  intros [init ->]. unfold histogramOf. cbv zeta.
  rewrite length_app. cbn [length]. rewrite Nat.add_1_r.
  rewrite seq_S, map_app. cbn [map Nat.add].
  eexists. f_equal. f_equal.
  unfold aget at 2. destruct (Z.ltb_spec (Z.of_nat (length init)) 0); [lia|].
  rewrite Nat2Z.id, nth_error_app2 by lia.
  rewrite Nat.sub_diag. cbn. apply nsub_NaN_r.
Qed.

(** Whenever the fast period is the shorter one, as in MACD(12,26,9), all
    three series returned by [calculateMACD] end in NaN. *)
Lemma calculateMACD_ends_NaN (data : list num) (fast slow signal : nat) :
  (0 < fast < slow)%nat ->
  (Nat.max fast slow + signal <= length data)%nat ->
  exists m, calculateMACD data fast slow signal = Ret (Some m)
            /\ ends_NaN (macdLine m) /\ ends_NaN (signalLine m)
            /\ ends_NaN (histogram m).
Proof.
  intros Hp Hlen. unfold calculateMACD.
  destruct (Nat.ltb_spec (length data) (Nat.max fast slow + signal)); [lia|].
  destruct (calculateEMA_defined data fast) as [eF EF]; [lia|].
  destruct (calculateEMA_defined data slow) as [eS ES]; [lia|].
  rewrite EF, ES.
  apply calculateEMA_length in EF as [_ LF].
  apply calculateEMA_length in ES as [_ LS].
  assert (NL : ends_NaN (macdLineOf eF eS)) by (apply macdLineOf_ends_NaN; lia).
  assert (LL : length (macdLineOf eF eS) = length eF)
    by (apply macdLineOf_length; lia).
  destruct (calculateEMA_defined (macdLineOf eF eS) signal) as [sg SG]; [lia|].
  rewrite SG. eexists. split; [reflexivity|]. cbn.
  assert (NS : ends_NaN sg)
    by (apply (calculateEMA_ends_NaN _ _ signal NL); [lia | exact SG]).
  split; [exact NL|]. split; [exact NS|].
  apply histogramOf_ends_NaN. exact NS.
Qed.

(** For every series that passes the length guard of MACD(12,26,9), the
    three values surfaced by [calculateIndicators] are NaN. *)
Lemma macd_latest_is_NaN (closes : list num) :
  (35 <= length closes)%nat ->
  exists s, calculateIndicators closes = Ret (Some s)
            /\ line (macd s) = VNum NaN
            /\ signal (macd s) = VNum NaN
            /\ hist (macd s) = VNum NaN.
Proof.
  intros H.
  destruct (calculateMACD_ends_NaN closes 12 26 9) as (m & E & N1 & N2 & N3);
    [lia | cbn; lia |].
  unfold calculateIndicators.
  destruct closes as [|c cs]; [cbn in H; lia|].
  rewrite E. eexists. split; [reflexivity|]. cbn.
  repeat split; apply ends_NaN_latest; assumption.
Qed.

End MacdFacts.

(** ** RSI on monotone series *)

Section RsiFacts.

Import Indicators Series.

Lemma changes_length (data : list num) :
  length (changes data) = (length data - 1)%nat.
Proof.
  induction data as [|x [|y rest] IH]; [reflexivity | reflexivity |].
  cbn [changes length] in *. rewrite IH. lia.
Qed.

Lemma changes_increasing (closes : list Q) :
  strictlyIncreasing closes -> Forall gain (changes (map Fin closes)).
Proof.
  induction closes as [|x [|y rest] IH]; intros H;
    [constructor | constructor |].
  destruct H as [Hxy Hrest]. cbn [map changes]. constructor.
  - exists (y + - x)%Q. split; [reflexivity|]. lra.
  - apply IH. exact Hrest.
Qed.

Lemma changes_decreasing (closes : list Q) :
  strictlyDecreasing closes -> Forall loss (changes (map Fin closes)).
Proof.
  induction closes as [|x [|y rest] IH]; intros H;
    [constructor | constructor |].
  destruct H as [Hxy Hrest]. cbn [map changes]. constructor.
  - exists (y + - x)%Q. split; [reflexivity|]. lra.
  - apply IH. exact Hrest.
Qed.

Lemma slice_Forall {A : Type} (P : A -> Prop) (arr : list A) (a b : nat) :
  Forall P arr -> Forall P (slice arr a b).
Proof. intros H. unfold slice. apply Forall_take, Forall_drop, H. Qed.

Lemma slice_length {A : Type} (arr : list A) (a b : nat) :
  (a <= b <= length arr)%nat -> length (slice arr a b) = (b - a)%nat.
Proof.
  intros H. unfold slice. rewrite length_firstn, length_skipn. lia.
Qed.

(** On a window of gains the loss accumulator is never touched. *)
Lemma gainLoss_gains (window : list num) :
  Forall gain window -> exists g, gainLoss window = (Fin g, Fin 0).
Proof.
  unfold gainLoss.
  enough (G : forall g0, Forall gain window ->
            exists g, fold_left
                        (fun acc change =>
                           if ngt change (Fin 0)
                           then (nadd (fst acc) change, snd acc)
                           else (fst acc, nsub (snd acc) change))
                        window (Fin g0, Fin 0) = (Fin g, Fin 0))
    by apply G.
  induction window as [|c w IH]; intros g0 H; [eexists; reflexivity|].
  inversion H as [|? ? (q & -> & Hq) Hw]; subst.
  cbn [fold_left fst snd]. unfold ngt at 2, nlt.
  rewrite (proj2 (Qltb_lt 0 q) Hq). cbn [nadd]. apply IH. exact Hw.
Qed.

(** On a window of losses the gain accumulator is never touched and the
    loss accumulator grows. *)
Lemma gainLoss_losses (window : list num) :
  Forall loss window ->
  exists l, gainLoss window = (Fin 0, Fin l)
            /\ (0 <= l)%Q /\ (window <> [] -> (0 < l)%Q).
Proof.
  unfold gainLoss.
  enough (G : forall l0, (0 <= l0)%Q -> Forall loss window ->
            exists l, fold_left
                        (fun acc change =>
                           if ngt change (Fin 0)
                           then (nadd (fst acc) change, snd acc)
                           else (fst acc, nsub (snd acc) change))
                        window (Fin 0, Fin l0) = (Fin 0, Fin l)
                      /\ (l0 <= l)%Q /\ (window <> [] -> (l0 < l)%Q)).
  { intros H. destruct (G 0%Q (Qle_refl 0) H) as (l & E & L1 & L2). eauto. }
  induction window as [|c w IH]; intros l0 Hl0 H.
  - exists l0. split; [reflexivity|]. split; [apply Qle_refl | congruence].
  - inversion H as [|? ? (q & -> & Hq) Hw]; subst.
    cbn [fold_left fst snd]. unfold ngt at 2, nlt.
    rewrite (proj2 (Qltb_ge 0 q) (Qlt_le_weak _ _ Hq)). cbn [nsub nneg nadd].
    destruct (IH (l0 + - q)%Q) as (l & E & L1 & _); [lra | exact Hw |].
    exists l. split; [exact E|]. split; [lra | intros _; lra].
Qed.

Lemma rsiOfWindow_gains (window : list num) (periods : nat) :
  (0 < periods)%nat -> Forall gain window ->
  rsiOfWindow window periods = Fin 100.
Proof.
  intros Hp H. destruct (gainLoss_gains window H) as [g E].
  unfold rsiOfWindow. rewrite E. cbn [fst snd]. unfold ofnat, ndiv.
  rewrite (ofnat_nonzero periods Hp). reflexivity.
Qed.

Lemma rsiOfWindow_losses (window : list num) (periods : nat) :
  (0 < periods)%nat -> window <> [] -> Forall loss window ->
  num_eq (rsiOfWindow window periods) (Fin 0).
Proof.
  intros Hp Hne H. destruct (gainLoss_losses window H) as (l & E & _ & Hl).
  specialize (Hl Hne).
  assert (P : (0 < inject_Z (Z.of_nat periods))%Q)
    by (change 0%Q with (inject_Z 0); rewrite <- Zlt_Qlt; lia).
  unfold rsiOfWindow, ofnat. rewrite E. cbn [fst snd].
  set (n := inject_Z (Z.of_nat periods)) in *.
  assert (Q1 : (0 < l / n)%Q) by (apply Qlt_shift_div_l; lra).
  assert (Z1 : (1 + 0 / n / (l / n) == 1)%Q) by (field; split; lra).
  cbv zeta. rewrite !(ndiv_Fin _ n) by lra. cbn [nseq].
  replace (Qeq_bool (l / n) 0) with false
    by (symmetry; apply (Qis0_false (l / n)); lra).
  rewrite (ndiv_Fin _ (l / n)) by lra. cbn [nadd].
  rewrite ndiv_Fin by lra.
  cbn [nsub nneg nadd num_eq]. rewrite Z1. field.
Qed.

Lemma calculateRSI_latest (data : list num) (periods : nat) :
  (S periods < length data)%nat ->
  getLatestValue (calculateRSI data periods) =
  VNum (rsiOfWindow (slice (changes data)
                           (length data - 2 - periods) (length data - 2))
                    periods).
Proof.
  intros H. unfold calculateRSI.
  destruct (Nat.leb_spec (length data) periods); [lia|].
  unfold getLatestValue. rewrite length_map, length_seq, changes_length.
  replace (Z.of_nat (length data - 1 - periods) - 1)
    with (Z.of_nat (length data - 2 - periods)) by lia.
  rewrite aget_map_seq by lia. do 3 f_equal; lia.
Qed.

(** From sixteen closes on, a strictly increasing series has RSI 100. *)
Lemma rsi_increasing (closes : list Q) :
  strictlyIncreasing closes -> (16 <= length closes)%nat ->
  getLatestValue (calculateRSI (map Fin closes) 14) = VNum (Fin 100).
Proof.
  intros H L. rewrite calculateRSI_latest by (rewrite length_map; lia).
  f_equal. apply rsiOfWindow_gains; [lia|].
  apply slice_Forall, changes_increasing, H.
Qed.

(** From sixteen closes on, a strictly decreasing series has RSI 0. *)
Lemma rsi_decreasing (closes : list Q) :
  strictlyDecreasing closes -> (16 <= length closes)%nat ->
  exists r, getLatestValue (calculateRSI (map Fin closes) 14) = VNum r
            /\ num_eq r (Fin 0).
Proof.
  intros H L. rewrite calculateRSI_latest by (rewrite length_map; lia).
  eexists. split; [reflexivity|].
  apply rsiOfWindow_losses; [lia | | apply slice_Forall, changes_decreasing, H].
  intros E. apply (f_equal (@length num)) in E.
  rewrite slice_length in E by (rewrite changes_length, length_map; lia).
  rewrite length_map in E. cbn in E. lia.
Qed.

End RsiFacts.

(** ** The claims on the indicator engine *)

Section IndicatorClaims.

Import Indicators Series.

Lemma histogramIsDifference_spec (figures : option (Q * Q * Q)) :
  histogramIsDifference figures = true ->
  exists l g h, figures = Some (l, g, h) /\ (h == l - g)%Q.
Proof.
  destruct figures as [[[l g] h]|]; [|discriminate].
  intros F. exists l, g, h. split; [reflexivity|].
  apply Qeq_bool_iff. exact F.
Qed.

Lemma reference_at_35 : histogramIsDifference (referenceMacd (ramp 35)) = true.
Proof. vm_compute. reflexivity. Qed.

(** C1.  A series of 35 closes is long enough for MACD(12,26,9): it passes
    the length guard of [calculateMACD].  The claim promises that the
    surfaced [macd.line], [macd.signal] and [macd.histogram] are then
    well-defined numbers with histogram = line − signal, the line being
    EMA(12) − EMA(26) on the overlapping tail.  On the closes
    100, 101, ..., 134 the code surfaces NaN for all three, whereas the
    MACD worded by the specification has three finite values with
    histogram = line − signal: the subtraction in [calculateMACD] indexes
    the slow EMA past its end instead of shifting the fast one. *)
Theorem macd_surfaces_NaN_at_35_closes :
  (Nat.max 12 26 + 9 <= length (ramp 35))%nat
  /\ surfacedMacd (ramp 35)
     = Some {| line := VNum NaN; signal := VNum NaN; hist := VNum NaN |}
  /\ exists l g h, referenceMacd (ramp 35) = Some (l, g, h)
                   /\ (h == l - g)%Q.
Proof.
  split; [vm_compute; lia|]. split.
  - vm_compute. reflexivity.
  - exact (histogramIsDifference_spec _ reference_at_35).
Qed.

(** C5.  Fifteen strictly increasing closes give the fourteen deltas of
    RSI(14) and pass the length guard of [calculateRSI]
    ([data.length > periods]); the claim promises that the most recent RSI
    is 100.  The loop of [calculateRSI] starts at index [periods] of the
    fourteen deltas and so never runs: the result is the empty array, the
    surfaced value is [undefined], and the sentiment handler throws on it.
    Likewise for fifteen strictly decreasing closes. *)
Theorem rsi_of_15_closes_is_undefined :
  strictlyIncreasing (ramp 15) /\ strictlyDecreasing (slope 15)
  /\ (14 < length (ramp 15))%nat /\ (14 < length (slope 15))%nat
  /\ calculateRSI (map Fin (ramp 15)) 14 = Some []
  /\ getLatestValue (calculateRSI (map Fin (ramp 15)) 14) = VUndef
  /\ getLatestValue (calculateRSI (map Fin (slope 15)) 14) = VUndef
  /\ Sentiment.analyse (barsOf (ramp 15)) = Throws.
Proof.
  split; [vm_compute; repeat split|].
  split; [vm_compute; repeat split|].
  split; [vm_compute; lia|]. split; [vm_compute; lia|].
  repeat split; vm_compute; reflexivity.
Qed.

End IndicatorClaims.

(** ** The claims on sentiment scoring *)

Section SentimentClaims.

Import Indicators Series Sentiment Market.

Lemma vgt_undefined (v : val) : vgt v VUndef = false.
Proof. reflexivity. Qed.

Lemma vlt_undefined (v : val) : vlt v VUndef = false.
Proof. unfold vlt. cbn [toNumber]. destruct (toNumber v); reflexivity. Qed.

Lemma previousHistogram_undefined (marketData : list Bar) :
  previousHistogram marketData = Ret VUndef
  \/ previousHistogram marketData = Throws.
Proof.
  unfold previousHistogram.
  destruct (barAt marketData (Z.of_nat (length marketData) - 2)) as [b|];
    [left | right; reflexivity].
  destruct (barProp b "macd"); reflexivity.
Qed.

(** Whatever the snapshot and the bars, the histogram step leaves the
    score as it found it (or throws): the bar it reads the previous
    histogram from has no [macd] property. *)
Lemma histogramBlock_adds_nothing (ind : Snapshot) (marketData : list Bar)
    (score : Q) :
  histogramBlock ind marketData score = Ret score
  \/ histogramBlock ind marketData score = Throws.
Proof.
  unfold histogramBlock. cbv zeta.
  destruct (not_null (hist (macd ind))); [|left; reflexivity].
  destruct (previousHistogram_undefined marketData) as [E|E]; rewrite E;
    cbn [JS.bind andAlso]; rewrite ?vgt_undefined, ?vlt_undefined;
    destruct (vgt (hist (macd ind)) (lit 0));
    destruct (vlt (hist (macd ind)) (lit 0));
    cbn [JS.bind andAlso]; auto.
Qed.

(** With at least two bars the histogram step never throws either. *)
Lemma histogramBlock_is_identity (ind : Snapshot) (marketData : list Bar)
    (score : Q) :
  (2 <= length marketData)%nat ->
  histogramBlock ind marketData score = Ret score.
Proof.
  intros L. destruct (histogramBlock_adds_nothing ind marketData score)
    as [E|E]; [exact E|]. exfalso. revert E.
  unfold histogramBlock, previousHistogram, barAt. cbv zeta.
  destruct (Z.ltb_spec (Z.of_nat (length marketData) - 2) 0); [lia|].
  destruct (nth_error marketData (Z.to_nat (Z.of_nat (length marketData) - 2)))
    as [b|] eqn:N; [|apply nth_error_None in N; lia].
  destruct (not_null (hist (macd ind))); [|discriminate].
  destruct (barProp b "macd"); cbn [optionalProp JS.bind];
    rewrite ?vgt_undefined, ?vlt_undefined;
    destruct (vgt (hist (macd ind)) (lit 0));
    destruct (vlt (hist (macd ind)) (lit 0));
    cbn [JS.bind andAlso]; discriminate.
Qed.

Lemma figuresGrow_spec (previous current : option (Q * Q * Q)) :
  figuresGrow previous current = true ->
  exists l g h l' g' h',
    previous = Some (l', g', h') /\ current = Some (l, g, h)
    /\ (g' < l')%Q /\ (g < l)%Q /\ (0 < h)%Q /\ (h' < h)%Q.
Proof.
  unfold figuresGrow.
  destruct previous as [[[l' g'] h']|]; [|discriminate].
  destruct current as [[[l g] h]|]; [|discriminate].
  rewrite !andb_true_iff, !Qltb_lt. intros F.
  exists l, g, h, l', g', h'. tauto.
Qed.

Lemma scoreIs_spec (marketData : list Bar) (expected : Q) :
  scoreIs marketData expected = true ->
  exists ind raw,
    calculateIndicators (map (fun d => Fin (close d)) marketData)
    = Ret (Some ind)
    /\ sentimentScore ind marketData = Ret raw /\ (raw == expected)%Q.
Proof.
  unfold scoreIs.
  destruct (calculateIndicators _) as [[ind|]|]; [|discriminate..].
  destruct (sentimentScore ind marketData) as [raw|] eqn:R; [|discriminate].
  intros F. exists ind, raw. split; [reflexivity|]. split; [exact R|].
  apply Qeq_bool_iff. exact F.
Qed.

Lemma accelerating_figures :
  figuresGrow (referenceMacd (accelerating 35))
              (referenceMacd (accelerating 36)) = true.
Proof. vm_compute. reflexivity. Qed.

Lemma accelerating_score : scoreIs (barsOf (accelerating 36)) (-1.25) = true.
Proof. vm_compute. reflexivity. Qed.

(** C2.  On thirty-six bars whose closes accelerate upwards (100 + i·i)
    the MACD of the specification has its line above its signal and a
    positive histogram both on the evaluation over the first 35 bars and
    on the evaluation over all 36, and the histogram grew in between; the
    claim promises the +0.5 histogram-acceleration contribution.  The
    handler's histogram step adds nothing (to any score), and the raw
    score is −1.25 = −1 (RSI) − 0.75 (MACD) + 0.5 (price action). *)
Theorem histogram_bonus_missing_on_accelerating_bars :
  (exists l g h l' g' h',
      referenceMacd (accelerating 35) = Some (l', g', h')
      /\ referenceMacd (accelerating 36) = Some (l, g, h)
      /\ (g' < l')%Q /\ (g < l)%Q /\ (0 < h)%Q /\ (h' < h)%Q)
  /\ exists ind raw,
      calculateIndicators (map (fun d => Fin (close d))
                               (barsOf (accelerating 36))) = Ret (Some ind)
      /\ (forall score,
             histogramBlock ind (barsOf (accelerating 36)) score = Ret score)
      /\ sentimentScore ind (barsOf (accelerating 36)) = Ret raw
      /\ (raw == -1.25)%Q.
Proof.
  split.
  - exact (figuresGrow_spec _ _ accelerating_figures).
  - destruct (scoreIs_spec _ _ accelerating_score) as (ind & raw & E & R & V).
    exists ind, raw. split; [exact E|]. split; [|split; [exact R | exact V]].
    intros sc. apply histogramBlock_is_identity.
    unfold barsOf. rewrite length_map, length_combine, length_seq.
    unfold accelerating. rewrite length_map, length_seq. cbn. lia.
Qed.

End SentimentClaims.

(** ** The generator *)

Section GeneratorFacts.

Import Market.

Local Open Scope Q_scope.

Lemma qmax_spec (a b : Q) :
  a <= qmax a b /\ b <= qmax a b /\ (qmax a b == a \/ qmax a b == b).
Proof.
  unfold qmax. destruct (Qle_bool a b) eqn:E.
  - apply Qle_bool_iff in E. split; [lra | split; [lra | right; reflexivity]].
  - assert (L : b < a).
    { apply Qnot_le_lt. intros H. apply Qle_bool_iff in H. congruence. }
    split; [lra | split; [lra | left; reflexivity]].
Qed.

Lemma qmin_spec (a b : Q) :
  qmin a b <= a /\ qmin a b <= b /\ (qmin a b == a \/ qmin a b == b).
Proof.
  unfold qmin. destruct (Qle_bool a b) eqn:E.
  - apply Qle_bool_iff in E. split; [lra | split; [lra | left; reflexivity]].
  - assert (L : b < a).
    { apply Qnot_le_lt. intros H. apply Qle_bool_iff in H. congruence. }
    split; [lra | split; [lra | right; reflexivity]].
Qed.

Lemma scaled (r x : Q) : 0 <= r < 1 -> 0 < x -> 0 <= r * x /\ r * x < x.
Proof. intros [H1 H2] H3. split; nra. Qed.

Lemma basePrice_large (sym : string) : 100 <= basePrice sym.
Proof.
  unfold basePrice.
  repeat (match goal with |- context [String.eqb ?a ?b] =>
            destruct (String.eqb a b) end); lra.
Qed.

Lemma drawVolume_large (r : Q) : 0 <= r -> (50000 <= drawVolume r)%Z.
Proof.
  intros H. unfold drawVolume.
  assert (L : (Qfloor (inject_Z 50000) <= Qfloor (50000 + r * 150000))%Z)
    by (apply Qfloor_resp_le; change (inject_Z 50000) with 50000; lra).
  rewrite Qfloor_Z in L. exact L.
Qed.

(** Close, open, high and low derived from a positive close and a range of
    at most 0.2% of it. *)
Lemma candle_facts (c range r1 r2 r3 o h l : Q) :
  0 < c -> 0 < range <= c * 0.002 ->
  0 <= r1 < 1 -> 0 <= r2 < 1 -> 0 <= r3 < 1 ->
  o == c - (r1 - 0.5) * range ->
  (h == qmax c o + r2 * range \/ h == qmax o c + r2 * range) ->
  (l == qmin c o - r3 * range \/ l == qmin o c - r3 * range) ->
  (qmax o c <= h /\ l <= qmin o c)
  /\ (0 < o /\ 0 < h /\ 0 < l) /\ (o <= h /\ l <= o).
Proof.
  intros Hc [Hr Hr'] R1 R2 R3 Ho Hh Hl.
  destruct (scaled r1 range R1 Hr) as [A1 A2].
  destruct (scaled r2 range R2 Hr) as [B1 B2].
  destruct (scaled r3 range R3 Hr) as [C1 C2].
  destruct (qmax_spec c o) as (M1 & M2 & M3).
  destruct (qmax_spec o c) as (M1' & M2' & M3').
  destruct (qmin_spec c o) as (N1 & N2 & N3).
  destruct (qmin_spec o c) as (N1' & N2' & N3').
  assert (O1 : o == c - r1 * range + 0.5 * range) by (rewrite Ho; ring).
  repeat split; destruct Hh as [Hh|Hh], Hl as [Hl|Hl],
    M3 as [M3|M3], M3' as [M3'|M3'], N3 as [N3|N3], N3' as [N3'|N3'];
    lra.
Qed.

Variable w : World.
Hypothesis W : plausible w.

Lemma backfillBar_valid (vf : Q) (r : nat -> Q) (sym : string) (n : Z) (i : nat) :
  0 <= vf <= 0.015 -> (forall k, 0 <= r k < 1) ->
  let b := backfillBar w vf r sym n i in
  wellShaped b /\ positive b /\ aroundOpen b.
Proof.
  intros V R b.
  pose proof (sin_range w W (inject_Z (Z.of_nat i) / 30)) as S1.
  pose proof (sin_range w W (inject_Z (Z.of_nat i) / 8)) as S2.
  pose proof (basePrice_large sym) as BP.
  set (noise := sin w (inject_Z (Z.of_nat i) / 30) * 3
                + sin w (inject_Z (Z.of_nat i) / 8) * 2
                + (r 0%nat - 0.5) * 1.5).
  assert (NB : -5.75 <= noise <= 5.75).
  { unfold noise. pose proof (R 0%nat). lra. }
  assert (NV : -0.08625 <= noise * vf) by nra.
  set (c := basePrice sym * (1 + noise * vf)).
  assert (Hc : 0 < c) by (unfold c; nra).
  destruct (candle_facts c (c * 0.002) (r 1%nat) (r 2%nat) (r 3%nat)
              (open b) (high b) (low b)) as (F1 & F2 & F3);
    try apply R; try lra;
    [reflexivity | left; reflexivity | left; reflexivity |].
  unfold wellShaped, positive, aroundOpen.
  pose proof (drawVolume_large (r 4%nat) (proj1 (R 4%nat))) as DV.
  change (volume b) with (drawVolume (r 4%nat)).
  change (close b) with c.
  repeat split; try tauto; try lia.
Qed.

Lemma sampleVolatility_range : 0 <= sampleVolatility w <= 0.015.
Proof.
  unfold sampleVolatility.
  assert (A : 0 <= 1 / 288 <= 1) by (split; vm_compute; discriminate).
  pose proof (sqrt_nonneg w W (1 / 288) (proj1 A)).
  pose proof (sqrt_below_1 w W (1 / 288) A). lra.
Qed.

Lemma drawsOf_range (start i k : nat) : 0 <= drawsOf w start i k < 1.
Proof. apply (random_range w W). Qed.

Lemma backfill_valid (vf : Q) (start : nat) (sym : string) (n : Z) :
  0 <= vf <= 0.015 ->
  Forall (fun b => wellShaped b /\ positive b /\ aroundOpen b)
         (backfill w vf start sym n).
Proof.
  intros V. unfold backfill. apply List.Forall_forall. intros b Hb.
  apply in_map_iff in Hb as (i & <- & _).
  apply backfillBar_valid; [exact V | intros k; apply drawsOf_range].
Qed.

(** The interval volatility of the long-horizon walk is at most 0.15. *)
Lemma intervalVol_range : 0 < 0.15 / sqrt w (252 * 78) <= 0.15.
Proof.
  assert (A : 1 <= 252 * 78) by lra.
  pose proof (sqrt_above_1 w W (252 * 78) A) as S.
  set (s := sqrt w (252 * 78)) in *.
  assert (E : 0.15 / s * s == 0.15) by (field; lra).
  set (v := 0.15 / s) in *. split; nra.
Qed.

Lemma historicalLoop_valid (start : nat) (sym : string) (n : Z) (idx : list nat) :
  forall price, 0 < price ->
  Forall (fun b => wellShaped b /\ positive b)
         (historicalLoop w start sym n price idx).
Proof.
  induction idx as [|i idx IH]; intros price P; [constructor|].
  cbn [historicalLoop]. cbv zeta.
  pose proof intervalVol_range as [V1 V2].
  pose proof (drawsOf_range start i) as R.
  set (iv := 0.15 / sqrt w (252 * 78)) in *.
  set (r := drawsOf w start i) in *.
  assert (D : -0.15 <= iv * (r 0%nat * 2 - 1)).
  { pose proof (R 0%nat). nra. }
  set (price' := price * (1 + 0.08 / (252 * 78) + iv * (r 0%nat * 2 - 1))).
  assert (P' : 0 < price').
  { unfold price'. assert (0 < 0.08 / (252 * 78)) by reflexivity. nra. }
  constructor; [|apply IH; exact P'].
  match goal with |- wellShaped ?b /\ positive ?b => set (bar := b) end.
  destruct (candle_facts price' (price' * 0.002) (r 1%nat) (r 2%nat) (r 3%nat)
              (open bar) (high bar) (low bar)) as (F1 & F2 & F3);
    try apply R; try lra;
    [reflexivity | right; reflexivity | right; reflexivity |].
  pose proof (drawVolume_large (r 4%nat) (proj1 (R 4%nat))) as DV.
  unfold wellShaped, positive.
  change (volume bar) with (drawVolume (r 4%nat)).
  change (close bar) with price'.
  repeat split; try tauto; try lia.
Qed.

Lemma generateHistoricalSimulation_valid (start : nat) (sym : string) (n : Z) :
  Forall (fun b => wellShaped b /\ positive b)
         (generateHistoricalSimulation w start sym n).
Proof.
  apply historicalLoop_valid. pose proof (basePrice_large sym). lra.
Qed.

Lemma incrementalBar_valid (start : nat) (sym : string) (latestData : Bar) :
  0 < close latestData -> (timestamp latestData <= now w)%Z ->
  let b := incrementalBar w start sym latestData in
  wellShaped b /\ 0 < open b /\ 0 < high b /\ (0 <= volume b)%Z
  /\ aroundOpen b
  /\ (stepVolatility w latestData <= 0.999 -> 0 < close b /\ 0 < low b).
Proof.
  intros C T b.
  assert (E : 0 <= inject_Z (now w - timestamp latestData) / (1000 * 60)).
  { apply Qle_shift_div_l; [lra|].
    assert (inject_Z 0 <= inject_Z (now w - timestamp latestData))
      by (rewrite <- Zle_Qle; lia).
    change (inject_Z 0) with 0 in *. lra. }
  pose proof (sqrt_nonneg w W _ E) as S.
  pose proof (random_range w W) as R.
  unfold stepVolatility.
  set (sq := sqrt w (inject_Z (now w - timestamp latestData) / (1000 * 60))) in *.
  set (prev := close latestData) in *.
  set (r := fun k => random w (start + k)%nat).
  assert (Rr : forall k, 0 <= r k < 1) by (intros k; apply R).
  set (new := prev + prev * (r 0%nat - 0.5) * 2 * (0.0007 * sq)).
  set (range := prev * 0.001).
  assert (Hr : 0 < range) by (unfold range; lra).
  destruct (scaled (r 1%nat) range (Rr _) Hr) as [A1 A2].
  destruct (scaled (r 2%nat) range (Rr _) Hr) as [B1 B2].
  destruct (qmax_spec prev new) as (M1 & M2 & M3).
  destruct (qmin_spec prev new) as (N1 & N2 & N3).
  pose proof (drawVolume_large (r 3%nat) (proj1 (Rr _))) as DV.
  assert (PT : 0 <= prev * (0.0007 * sq)) by nra.
  assert (NE : new == prev + prev * (0.0007 * sq) * ((r 0%nat - 0.5) * 2))
    by (unfold new; ring).
  assert (SW : - (prev * (0.0007 * sq))
               <= prev * (0.0007 * sq) * ((r 0%nat - 0.5) * 2)
               <= prev * (0.0007 * sq)).
  { pose proof (Rr 0%nat). set (pt := prev * (0.0007 * sq)) in *. split; nra. }
  unfold wellShaped, aroundOpen.
  change (open b) with prev. change (close b) with new.
  change (high b) with (qmax prev new + r 1%nat * range).
  change (low b) with (qmin prev new - r 2%nat * range).
  change (volume b) with (drawVolume (r 3%nat)).
  split; [split; lra|]. split; [lra|]. split; [lra|]. split; [lia|].
  split; [split; lra|].
  intros Small.
  assert (PS : prev * (0.0007 * sq) <= prev * 0.999) by nra.
  unfold range in *. split; [lra|]. destruct N3 as [N3|N3]; lra.
Qed.

End GeneratorFacts.

(** ** The claims on generated bars *)

Section GeneratorClaims.

Import Market Scenario.

Local Open Scope Q_scope.

Lemma heron_plausible (x : Q) :
  (0 <= x -> 0 <= heron x) /\ (0 <= x <= 1 -> heron x <= 1)
  /\ (1 <= x -> 1 <= heron x).
Proof.
  unfold heron. repeat split; intros H.
  - apply Qle_shift_div_l; lra.
  - apply Qle_shift_div_r; lra.
  - apply Qle_shift_div_l; lra.
Qed.

Lemma calmWorld_plausible : plausible calmWorld.
Proof.
  constructor; cbn [random sin sqrt calmWorld]; intros; try lra;
    apply heron_plausible; assumption.
Qed.

Lemma staleWorld_plausible : plausible staleWorld.
Proof.
  constructor; cbn [random sin sqrt staleWorld]; intros; try lra;
    destruct (Qeq_bool x 4000000) eqn:E;
    try (apply heron_plausible; assumption); try lra.
  apply Qeq_bool_iff in E. lra.
Qed.

(** C3, as the code has it.  Every bar of the backfill loops
    ([generateSampleData], [generateSimulatedData]) and of
    [generateHistoricalSimulation] satisfies high ≥ max(open, close),
    low ≤ min(open, close), open, high, low, close > 0 and volume ≥ 0.  So
    does the single bar [fetchMarketData] builds from the latest stored
    bar, provided that bar's close is positive, it is not dated in the
    future, and [0.0007 * sqrt(elapsed minutes)] is at most 0.999. *)
Theorem generated_bars_respect_invariants
    (w : World) (start : nat) (sym : string) (numPoints : Z) (latestData : Bar) :
  plausible w ->
  0 < close latestData ->
  (timestamp latestData <= now w)%Z ->
  stepVolatility w latestData <= 0.999 ->
  Forall (fun b => wellShaped b /\ positive b)
         (backfill w (sampleVolatility w) start sym numPoints)
  /\ Forall (fun b => wellShaped b /\ positive b)
            (backfill w simulatedVolatility start sym numPoints)
  /\ Forall (fun b => wellShaped b /\ positive b)
            (generateHistoricalSimulation w start sym numPoints)
  /\ wellShaped (incrementalBar w start sym latestData)
  /\ positive (incrementalBar w start sym latestData).
Proof.
  intros W C T V.
  assert (Weaken : forall l,
             Forall (fun b => wellShaped b /\ positive b /\ aroundOpen b) l ->
             Forall (fun b => wellShaped b /\ positive b) l).
  { intros l F. induction F; constructor; tauto. }
  split; [apply Weaken, (backfill_valid w W), (sampleVolatility_range w W)|].
  split; [apply Weaken, (backfill_valid w W); unfold simulatedVolatility; lra|].
  split; [apply (generateHistoricalSimulation_valid w W)|].
  destruct (incrementalBar_valid w W start sym latestData C T)
    as (S & O & H & Vol & _ & P).
  destruct (P V) as [Cl Lo]. unfold positive. tauto.
Qed.

Lemma generated_bars_respect_invariants_witness :
  Forall (fun b => wellShaped b /\ positive b)
         (backfill calmWorld (sampleVolatility calmWorld) 0 "SPY" 3)
  /\ Forall (fun b => wellShaped b /\ positive b)
            (backfill calmWorld simulatedVolatility 0 "SPY" 3)
  /\ Forall (fun b => wellShaped b /\ positive b)
            (generateHistoricalSimulation calmWorld 0 "SPY" 3)
  /\ wellShaped (incrementalBar calmWorld 0 "SPY" recentBar)
  /\ positive (incrementalBar calmWorld 0 "SPY" recentBar).
Proof.
  apply (generated_bars_respect_invariants calmWorld 0 "SPY" 3 recentBar).
  - exact calmWorld_plausible.
  - reflexivity.
  - vm_compute. discriminate.
  - vm_compute. discriminate.
Defined.

(** C3, as stated, fails for the incremental bar.  The latest stored bar
    for SPY is a valid one dated four million minutes (some 7.6 years)
    back, with close 100; [Math.sqrt] of the elapsed minutes is 2000, the
    volatility factor is 1.4, and with [Math.random()] returning 0 the new
    bar has close −40 and low −40. *)
Lemma stale_series_yields_negative_close :
  plausible staleWorld
  /\ wellShaped barAtEpoch /\ positive barAtEpoch
  /\ close (incrementalBar staleWorld 0 "SPY" barAtEpoch) == -40
  /\ low (incrementalBar staleWorld 0 "SPY" barAtEpoch) == -40
  /\ ~ positive (incrementalBar staleWorld 0 "SPY" barAtEpoch).
Proof.
  split; [exact staleWorld_plausible|].
  split; [split; vm_compute; discriminate|].
  split; [repeat split; vm_compute; congruence|].
  split; [reflexivity|]. split; [reflexivity|].
  intros (_ & _ & _ & C & _). vm_compute in C. discriminate.
Qed.

End GeneratorClaims.

(** ** The claims on the store's validation *)

Section ValidationClaims.

Import Market Service Scenario.

Local Open Scope Q_scope.

Lemma validators_sound (b : Bar) :
  validators b = true ->
  Symbol.matchesSchemaPattern (symbol b) = true
  /\ 0 < open b /\ open b <= high b /\ low b <= open b /\ 0 < close b
  /\ (0 <= volume b)%Z.
Proof.
  unfold validators.
  rewrite !andb_true_iff, !Qltb_lt, !Qle_bool_iff, Z.leb_le. tauto.
Qed.

(** What an accepted write went through. *)
Lemma save_accepted (doc : Bar) (coll coll' : list Bar) :
  save doc coll = inr coll' ->
  coll' = coll ++ [applySetters doc]
  /\ 0 < open doc /\ open doc <= high doc /\ low doc <= open doc
  /\ low doc <= high doc /\ 0 < close doc /\ (0 <= volume doc)%Z
  /\ clashes (applySetters doc) coll = false.
Proof.
  unfold save.
  destruct (validators (applySetters doc)) eqn:V; [|discriminate].
  destruct (preSave (applySetters doc)); [|discriminate].
  destruct (clashes (applySetters doc) coll); [discriminate|].
  cbn [negb]. intros [= <-].
  apply validators_sound in V. cbn [applySetters open high low close volume] in V.
  repeat split; try tauto. lra.
Qed.

(** C4, as the code has it.  Saving validates before it writes: every bar
    with high < open, or low > open, or high < low is rejected with a
    validation error, and nothing is persisted.  The validators compare
    high and low with the open only. *)
Theorem save_rejects_bars_out_of_range_of_open (doc : Bar) (coll : list Bar) :
  high doc < open doc \/ open doc < low doc \/ high doc < low doc ->
  save doc coll = inl ValidationError.
Proof.
  intros H. unfold save.
  destruct (validators (applySetters doc)) eqn:V; [|reflexivity].
  exfalso. apply validators_sound in V.
  cbn [applySetters open high low close volume] in V. lra.
Qed.

Lemma save_rejects_bars_out_of_range_of_open_witness :
  high highBelowOpen < open highBelowOpen
  /\ save highBelowOpen [] = inl ValidationError.
Proof.
  split; [reflexivity|].
  apply (save_rejects_bars_out_of_range_of_open highBelowOpen []).
  left. reflexivity.
Defined.

(** C4, as stated, fails.  A bar with open 100, high 101, low 99 and close
    102 has its high below max(open, close); saving it into the empty
    collection succeeds and persists it. *)
Lemma save_accepts_bar_closed_above_high :
  high closedAboveHigh < qmax (open closedAboveHigh) (close closedAboveHigh)
  /\ save closedAboveHigh [] = inr [closedAboveHigh].
Proof. split; reflexivity. Qed.

End ValidationClaims.

(** ** Sorting and querying the collection *)

Section QueryFacts.

Import Market Service.

Lemma insertDescending_length (b : Bar) (l : list Bar) :
  length (insertDescending b l) = S (length l).
Proof.
  induction l as [|x l IH]; [reflexivity|]. cbn [insertDescending].
  destruct (timestamp x <? timestamp b); cbn [length]; [reflexivity|].
  rewrite IH. reflexivity.
Qed.

Lemma sortDescending_length (l : list Bar) :
  length (sortDescending l) = length l.
Proof.
  induction l as [|x l IH]; [reflexivity|].
  change (sortDescending (x :: l)) with (insertDescending x (sortDescending l)).
  rewrite insertDescending_length. cbn [length]. f_equal. exact IH.
Qed.

Lemma insertDescending_Forall (P : Bar -> Prop) (b : Bar) (l : list Bar) :
  P b -> Forall P l -> Forall P (insertDescending b l).
Proof.
  intros Hb H. induction H as [|x l Hx H IH]; cbn [insertDescending].
  - constructor; [exact Hb | constructor].
  - destruct (timestamp x <? timestamp b); repeat constructor; assumption.
Qed.

Lemma sortDescending_Forall (P : Bar -> Prop) (l : list Bar) :
  Forall P l -> Forall P (sortDescending l).
Proof.
  intros H. induction H as [|x l Hx H IH]; [constructor|].
  change (sortDescending (x :: l)) with (insertDescending x (sortDescending l)).
  apply insertDescending_Forall; assumption.
Qed.

Lemma insertDescending_sorted (b : Bar) (l : list Bar) :
  StronglySorted newerFirst l -> StronglySorted newerFirst (insertDescending b l).
Proof.
  intros H. induction H as [|x l H IH Hx]; cbn [insertDescending].
  - repeat constructor.
  - destruct (Z.ltb_spec (timestamp x) (timestamp b)) as [L|L].
    + constructor; [constructor; assumption|].
      constructor; [unfold newerFirst; lia|].
      eapply List.Forall_impl; [|exact Hx].
      unfold newerFirst. intros y Hy. lia.
    + constructor; [exact IH|].
      apply insertDescending_Forall; [unfold newerFirst; lia | exact Hx].
Qed.

Lemma sortDescending_sorted (l : list Bar) :
  StronglySorted newerFirst (sortDescending l).
Proof.
  induction l as [|x l IH]; [constructor|].
  change (sortDescending (x :: l)) with (insertDescending x (sortDescending l)).
  apply insertDescending_sorted, IH.
Qed.

Lemma firstn_sorted {A : Type} (R : A -> A -> Prop) (n : nat) (l : list A) :
  StronglySorted R l -> StronglySorted R (firstn n l).
Proof.
  intros H. revert n. induction H as [|x l H IH Hx]; intros [|n];
    cbn [firstn]; try constructor.
  - apply IH.
  - apply Forall_take. exact Hx.
Qed.

Lemma snoc_sorted {A : Type} (R : A -> A -> Prop) (l : list A) (x : A) :
  StronglySorted R l -> Forall (fun y => R y x) l -> StronglySorted R (l ++ [x]).
Proof.
  intros H. induction H as [|y l H IH Hy]; intros F; cbn [app].
  - repeat constructor.
  - inversion F as [|? ? Fy Fl]; subst. constructor; [apply IH, Fl|].
    apply Forall_app. split; [exact Hy | repeat constructor; exact Fy].
Qed.

Lemma rev_sorted {A : Type} (R : A -> A -> Prop) (l : list A) :
  StronglySorted R l -> StronglySorted (fun a b => R b a) (rev l).
Proof.
  intros H. induction H as [|x l H IH Hx]; [constructor|].
  cbn [rev]. apply snoc_sorted; [exact IH|].
  apply Forall_forall. intros y Hy. apply list_elem_of_In, in_rev in Hy.
  rewrite List.Forall_forall in Hx. apply Hx, Hy.
Qed.

Lemma map_seq_sorted {A : Type} (R : A -> A -> Prop) (f : nat -> A) (n : nat) :
  (forall i j, (i < j)%nat -> R (f i) (f j)) ->
  forall a, StronglySorted R (map f (seq a n)).
Proof.
  intros Mono. induction n as [|n IH]; intros a; [constructor|].
  cbn [seq map]. constructor; [apply IH|].
  apply List.Forall_forall. intros y Hy.
  apply in_map_iff in Hy as (j & <- & Hj). apply in_seq in Hj.
  apply Mono. lia.
Qed.

Lemma find_symbol (sym : string) (coll : list Bar) :
  Forall (fun b => symbol b = Symbol.normalize sym) (find sym coll).
Proof.
  unfold find. apply List.Forall_forall. intros b Hb.
  apply filter_In in Hb as [_ Hb]. unfold ofSymbol in Hb.
  apply String.eqb_eq in Hb. exact Hb.
Qed.

(** The query returns the [limit] most recent bars of the symbol, newest
    first. *)
Lemma latest_facts (sym : string) (limit : Z) (coll : list Bar) :
  length (latest sym limit coll)
  = Nat.min (Z.to_nat limit) (length (find sym coll))
  /\ Forall (fun b => symbol b = Symbol.normalize sym) (latest sym limit coll)
  /\ StronglySorted newerFirst (latest sym limit coll).
Proof.
  unfold latest. split; [|split].
  - rewrite length_firstn, sortDescending_length. reflexivity.
  - apply Forall_take, sortDescending_Forall, find_symbol.
  - apply firstn_sorted, sortDescending_sorted.
Qed.

(** The bars of a backfill: as many as asked for, of the symbol passed in,
    oldest first. *)
Lemma backfill_facts (w : World) (vf : Q) (start : nat) (sym : string) (n : Z) :
  length (backfill w vf start sym n) = Z.to_nat n
  /\ Forall (fun b => symbol b = sym) (backfill w vf start sym n)
  /\ StronglySorted olderFirst (backfill w vf start sym n).
Proof.
  unfold backfill. split; [|split].
  - rewrite length_map, length_seq. reflexivity.
  - apply List.Forall_forall. intros b Hb.
    apply in_map_iff in Hb as (i & <- & _). reflexivity.
  - apply (map_seq_sorted olderFirst). intros i j L.
    unfold olderFirst, backfillBar. cbn [timestamp]. lia.
Qed.

End QueryFacts.

(** ** Running the reads *)

Section ServiceFacts.

Import Market Service.

Lemma acceptable_checks (sym : string) (n : Z) :
  acceptable sym n ->
  String.eqb sym EmptyString = false
  /\ ((n =? 0) || (n <=? 0) || (1000 <? n)) = false.
Proof.
  intros [S N]. split; [apply String.eqb_neq, S|].
  rewrite !orb_false_iff, Z.eqb_neq, Z.leb_gt, Z.ltb_ge. lia.
Qed.

Lemma rejected_checks (sym : string) (n : Z) :
  ~ acceptable sym n ->
  (if String.eqb sym EmptyString then true
   else (n =? 0) || (n <=? 0) || (1000 <? n)) = true.
Proof.
  intros H. destruct (String.eqb_spec sym EmptyString) as [|S]; [reflexivity|].
  rewrite !orb_true_iff, Z.eqb_eq, Z.leb_le, Z.ltb_lt.
  assert (N : ~ 1 <= n <= 1000) by (unfold acceptable in H; tauto). lia.
Qed.

Lemma generateSimulatedData_run (sym : string) (n : Z) (w : World) (s : State) :
  acceptable sym n ->
  generateSimulatedData sym n w s
  = (Ret (backfill w simulatedVolatility (drawn s) sym n),
     after s (bars s) (5 * Z.to_nat n) 0 [SimulatedGeneration]).
Proof.
  intros A. destruct (acceptable_checks sym n A) as [E1 E2].
  unfold generateSimulatedData, tryCatch, mbindM, record, draw, ret, after.
  rewrite E1, E2. cbn [bars drawn issued log app]. rewrite Nat.add_0_r.
  reflexivity.
Qed.

Lemma generateSimulatedData_rejects (sym : string) (n : Z) (w : World) (s : State) :
  ~ acceptable sym n ->
  generateSimulatedData sym n w s
  = (Ret [], after s (bars s) 0 0 [SimulatedGeneration]).
Proof.
  intros A. pose proof (rejected_checks sym n A) as E.
  unfold generateSimulatedData, tryCatch, mbindM, record, draw, ret, throw, after.
  destruct (String.eqb sym EmptyString);
    [|rewrite E]; cbn [bars drawn issued log app]; rewrite !Nat.add_0_r;
    reflexivity.
Qed.

(** The four ways [generateSampleData] can go on acceptable arguments. *)
Lemma generateSampleData_run (sym : string) (n : Z) (w : World) (s : State) :
  acceptable sym n ->
  generateSampleData sym n w s =
  if faulty w (issued s) then (Throws, after s (bars s) 0 1 [StoreFind])
  else if (0 <? length (firstn 1 (find sym (bars s))))%nat
       then (Ret tt, after s (bars s) 0 1 [StoreFind])
       else
         let docs := backfill w (sampleVolatility w) (drawn s) sym n in
         if faulty w (S (issued s))
         then (Throws, after s (bars s) (5 * Z.to_nat n) 2
                             [StoreInsertMany; SampleGeneration; StoreFind])
         else (Ret tt, after s (snd (insertMany docs (bars s)))
                             (5 * Z.to_nat n) 2
                             [StoreInsertMany; SampleGeneration; StoreFind]).
Proof.
  intros A. destruct (acceptable_checks sym n A) as [E1 E2].
  unfold generateSampleData, tryCatch, mbindM, storeOp, record, draw, ret,
    throw, after.
  rewrite E1, E2. cbn [bars drawn issued log app].
  rewrite !Nat.add_0_r, Nat.add_1_r.
  replace (issued s + 2)%nat with (S (S (issued s))) by lia.
  destruct (faulty w (issued s)); [reflexivity|].
  destruct (0 <? length (firstn 1 (find sym (bars s))))%nat; [reflexivity|].
  cbn [bars drawn issued log].
  destruct (faulty w (S (issued s))); [reflexivity|].
  destruct (insertMany _ (bars s)) as [dup coll']. reflexivity.
Qed.

End ServiceFacts.

(** ** Symbols under the schema's setters *)

Section SymbolFacts.

Import Symbol.

Lemma requestChar_facts (c : ascii) :
  requestChar c = true -> isSpace c = false /\ schemaChar (upperChar c) = true.
Proof.
  destruct c as [[] [] [] [] [] [] [] []]; vm_compute; intros H;
    try discriminate H; split; reflexivity.
Qed.

Lemma trimStart_id (s : string) :
  forallb requestChar (chars s) = true -> trimStart s = s.
Proof.
  destruct s as [|c s]; [reflexivity|]. cbn [chars list_ascii_of_string forallb].
  intros H. apply andb_true_iff in H as [H _].
  apply requestChar_facts in H as [H _]. cbn [trimStart]. rewrite H. reflexivity.
Qed.

Lemma trimEnd_id (s : string) :
  forallb requestChar (chars s) = true -> trimEnd s = s.
Proof.
  induction s as [|c s IH]; [reflexivity|].
  cbn [chars list_ascii_of_string forallb]. intros H.
  apply andb_true_iff in H as [Hc Hs].
  apply requestChar_facts in Hc as [Hc _].
  cbn [trimEnd]. rewrite (IH Hs). destruct s; [rewrite Hc|]; reflexivity.
Qed.

Lemma toUpperCase_length (s : string) :
  String.length (toUpperCase s) = String.length s.
Proof. induction s as [|c s IH]; [reflexivity|]. cbn. f_equal. exact IH. Qed.

Lemma toUpperCase_chars (s : string) :
  forallb requestChar (chars s) = true ->
  forallb schemaChar (chars (toUpperCase s)) = true.
Proof.
  induction s as [|c s IH]; [reflexivity|].
  cbn [chars list_ascii_of_string forallb toUpperCase]. intros H.
  apply andb_true_iff in H as [Hc Hs].
  apply requestChar_facts in Hc as [_ Hc].
  apply andb_true_iff. split; [exact Hc | apply IH, Hs].
Qed.

(** A symbol the routes accept is one the schema accepts once its setters
    ran. *)
Lemma normalize_matches (s : string) :
  matchesRequestPattern s = true ->
  matchesSchemaPattern (normalize s) = true.
Proof.
  unfold matchesRequestPattern, matchesSchemaPattern, normalize, trim.
  rewrite !andb_true_iff. intros [[L1 L2] C].
  rewrite (trimStart_id s C), (trimEnd_id s C), toUpperCase_length.
  repeat split; try assumption.
  apply (toUpperCase_chars s C).
Qed.

Lemma matches_nonempty (s : string) : matchesRequestPattern s = true -> s <> EmptyString.
Proof. intros H ->. discriminate H. Qed.

End SymbolFacts.

(** ** Bulk insertion *)

Section InsertFacts.

Import Market Service.

Lemma clashes_app (b : Bar) (l1 l2 : list Bar) :
  clashes b (l1 ++ l2) = clashes b l1 || clashes b l2.
Proof. unfold clashes. apply existsb_app. Qed.

(** Valid documents that clash neither with the collection nor with one
    another are all inserted, in order. *)
Lemma insertMany_all (docs coll : list Bar) :
  Forall (fun d => validators (applySetters d) = true) docs ->
  Forall (fun d => clashes (applySetters d) coll = false) docs ->
  ForallOrdPairs (fun d1 d2 => sameKey (applySetters d2) (applySetters d1) = false)
                 docs ->
  insertMany docs coll = (false, coll ++ map applySetters docs).
Proof.
  intros V. revert coll. induction V as [|d docs Vd V IH]; intros coll C P.
  - cbn. rewrite app_nil_r. reflexivity.
  - inversion C as [|? ? Cd C']; subst. inversion P as [|? ? Pd P']; subst.
    cbn [insertMany]. rewrite Vd, Cd. cbn [negb].
    rewrite (IH (coll ++ [applySetters d])).
    + cbn [map]. rewrite <- app_assoc. reflexivity.
    + rewrite List.Forall_forall in C', Pd. apply List.Forall_forall.
      intros d2 H2. rewrite clashes_app, (C' d2 H2). cbn [clashes existsb orb].
      rewrite (Pd d2 H2). reflexivity.
    + exact P'.
Qed.

Lemma map_seq_pairs {A : Type} (R : A -> A -> Prop) (f : nat -> A) (n : nat) :
  (forall i j, (i < j)%nat -> R (f i) (f j)) ->
  forall a, ForallOrdPairs R (map f (seq a n)).
Proof.
  intros Mono. induction n as [|n IH]; intros a; [constructor|].
  cbn [seq map]. constructor; [|apply IH].
  apply List.Forall_forall. intros y Hy.
  apply in_map_iff in Hy as (j & <- & Hj). apply in_seq in Hj.
  apply Mono. lia.
Qed.

End InsertFacts.

(** ** The claims on [getLatestMarketData] *)

Section ReadClaims.

Import Market Service Scenario.

Lemma getLatestMarketData_rejects (sym : string) (limit : Z) (w : World) (s : State) :
  ~ acceptable sym limit ->
  getLatestMarketData sym limit w s
  = (Ret [], after s (bars s) 0 0 [SimulatedGeneration]).
Proof.
  intros A. pose proof (rejected_checks sym limit A) as E.
  unfold getLatestMarketData, tryCatch, throw.
  destruct (String.eqb sym EmptyString);
    [|rewrite E]; apply generateSimulatedData_rejects, A.
Qed.

(** How [getLatestMarketData] goes on acceptable arguments, in terms of
    the run of [generateSampleData]. *)
Lemma getLatestMarketData_run (sym : string) (limit : Z) (w : World) (s : State) :
  acceptable sym limit ->
  getLatestMarketData sym limit w s =
  match generateSampleData sym (Z.max limit 100) w s with
  | (Throws, s1) => generateSimulatedData sym limit w s1
  | (Ret _, s1) =>
      let s2 := after s1 (bars s1) 0 1 [StoreQuery] in
      if faulty w (issued s1) then generateSimulatedData sym limit w s2
      else if (length (latest sym limit (bars s1)) =? 0)%nat
           then generateSimulatedData sym limit w s2
           else (Ret (rev (latest sym limit (bars s1))), s2)
  end.
Proof.
  intros A. destruct (acceptable_checks sym limit A) as [E1 E2].
  unfold getLatestMarketData. rewrite E1, E2.
  unfold tryCatch at 1. unfold mbindM at 1.
  destruct (generateSampleData sym (Z.max limit 100) w s) as [[[]|] s1];
    [|reflexivity].
  unfold mbindM, storeOp, after. cbn [bars drawn issued log app].
  rewrite !Nat.add_0_r, Nat.add_1_r.
  destruct (faulty w (issued s1)); [reflexivity|].
  destruct (length (latest sym limit (bars s1)) =? 0)%nat.
  - rewrite (generateSimulatedData_run sym limit w _ A). reflexivity.
  - reflexivity.
Qed.

Lemma acceptable_max (sym : string) (limit : Z) :
  acceptable sym limit -> acceptable sym (Z.max limit 100).
Proof. intros [S N]. split; [exact S | lia]. Qed.

Lemma count_head (e : Event) (l : list Event) :
  count e (e :: l) = S (count e l).
Proof. unfold count. cbn [List.filter]. destruct e; reflexivity. Qed.

(** C9.  When a store operation fails during [getLatestMarketData],
    [generateSimulatedData] is called exactly once and its result is what
    the caller gets: [limit] bars, so never an empty success.  (The store
    is reached only with arguments the fallback accepts, so the fallback
    cannot fail after a store failure.) *)
Theorem store_failure_falls_back_once
    (w : World) (sym : string) (limit : Z) (coll : list Bar) :
  (exists k, (k < issued (snd (getLatestMarketData sym limit w (initial coll))))%nat
             /\ faulty w k = true) ->
  count SimulatedGeneration
        (log (snd (getLatestMarketData sym limit w (initial coll)))) = 1%nat
  /\ exists data,
       fst (getLatestMarketData sym limit w (initial coll)) = Ret data
       /\ data <> [] /\ length data = Z.to_nat limit.
Proof.
  assert (Fallback : forall s,
             acceptable sym limit -> count SimulatedGeneration (log s) = 0%nat ->
             count SimulatedGeneration
                   (log (snd (generateSimulatedData sym limit w s))) = 1%nat
             /\ exists data,
                  fst (generateSimulatedData sym limit w s) = Ret data
                  /\ data <> [] /\ length data = Z.to_nat limit).
  { intros s A C. rewrite (generateSimulatedData_run sym limit w s A).
    cbn [fst snd after log app]. rewrite count_head, C. split; [reflexivity|].
    eexists. split; [reflexivity|].
    destruct (backfill_facts w simulatedVolatility (drawn s) sym limit) as (L & _).
    split; [|exact L]. intros E. rewrite E in L. cbn in L.
    destruct A as [_ A]. lia. }
  destruct (String.eqb_spec sym EmptyString) as [->|S].
  { rewrite getLatestMarketData_rejects by (unfold acceptable; tauto).
    cbn. intros (k & L & _). lia. }
  destruct (Z_le_gt_dec 1 limit) as [L1|L1];
    [|rewrite getLatestMarketData_rejects by (unfold acceptable; lia);
      cbn; intros (k & L & _); lia].
  destruct (Z_le_gt_dec limit 1000) as [L2|L2];
    [|rewrite getLatestMarketData_rejects by (unfold acceptable; lia);
      cbn; intros (k & L & _); lia].
  assert (A : acceptable sym limit) by (unfold acceptable; tauto).
  rewrite (getLatestMarketData_run sym limit w _ A).
  rewrite (generateSampleData_run sym _ w _ (acceptable_max sym limit A)).
  cbn [initial after bars drawn issued log app Nat.add].
  destruct (faulty w 0) eqn:F0; [intros _; apply Fallback; [exact A|reflexivity]|].
  destruct (0 <? length (firstn 1 (find sym coll)))%nat.
  - cbv zeta. cbn [initial after bars drawn issued log app Nat.add].
    destruct (faulty w 1) eqn:F1;
      [intros _; apply Fallback; [exact A|reflexivity]|].
    destruct (length (latest sym limit coll) =? 0)%nat.
    + intros (k & L & Fk). exfalso.
      rewrite (generateSimulatedData_run sym limit w _ A) in L.
      cbn in L. assert (k = 0 \/ k = 1)%nat as [->| ->] by lia; congruence.
    + cbn. intros (k & L & Fk). exfalso.
      assert (k = 0 \/ k = 1)%nat as [->| ->] by lia; congruence.
  - cbv zeta. cbn [initial after bars drawn issued log app Nat.add].
    destruct (faulty w 1) eqn:F1;
      [intros _; apply Fallback; [exact A|reflexivity]|].
    cbn [initial after bars drawn issued log app Nat.add].
    destruct (faulty w 2) eqn:F2;
      [intros _; apply Fallback; [exact A|reflexivity]|].
    match goal with |- context [(length ?l =? 0)%nat] =>
      destruct (length l =? 0)%nat end.
    + intros (k & L & Fk). exfalso.
      rewrite (generateSimulatedData_run sym limit w _ A) in L.
      cbn in L. assert (k = 0 \/ k = 1 \/ k = 2)%nat as [->|[->| ->]] by lia;
        congruence.
    + cbn. intros (k & L & Fk). exfalso.
      assert (k = 0 \/ k = 1 \/ k = 2)%nat as [->|[->| ->]] by lia; congruence.
Qed.

Lemma store_failure_falls_back_once_witness :
  count SimulatedGeneration
        (log (snd (getLatestMarketData "SPY" 10 brokenStoreWorld (initial []))))
  = 1%nat
  /\ exists data,
       fst (getLatestMarketData "SPY" 10 brokenStoreWorld (initial [])) = Ret data
       /\ data <> [] /\ length data = Z.to_nat 10.
Proof.
  apply (store_failure_falls_back_once brokenStoreWorld "SPY" 10 []).
  exists 0%nat. split; [vm_compute; lia | reflexivity].
Defined.

Lemma filter_nil_inv {A : Type} (f : A -> bool) (l : list A) :
  List.filter f l = [] -> forall x, In x l -> f x = false.
Proof.
  induction l as [|y l IH]; intros E x Hx; [destruct Hx|].
  cbn [List.filter] in E. destruct (f y) eqn:Fy; [discriminate|].
  destruct Hx as [->|Hx]; [exact Fy | apply IH; assumption].
Qed.

Lemma filter_all {A : Type} (f : A -> bool) (l : list A) :
  Forall (fun x => f x = true) l -> List.filter f l = l.
Proof.
  intros H. induction H as [|x l Hx H IH]; [reflexivity|].
  cbn [List.filter]. rewrite Hx, IH. reflexivity.
Qed.

Lemma insertDescending_In (b x : Bar) (l : list Bar) :
  In x (insertDescending b l) <-> x = b \/ In x l.
Proof.
  induction l as [|y l IH]; cbn [insertDescending].
  - cbn. intuition congruence.
  - destruct (timestamp y <? timestamp b); cbn [In]; [intuition congruence|].
    rewrite IH. intuition congruence.
Qed.

Lemma sortDescending_In (x : Bar) (l : list Bar) :
  In x (sortDescending l) <-> In x l.
Proof.
  induction l as [|y l IH]; [reflexivity|].
  change (sortDescending (y :: l)) with (insertDescending y (sortDescending l)).
  rewrite insertDescending_In, IH. cbn [In]. intuition congruence.
Qed.

Lemma sorted_app_order {A : Type} (R : A -> A -> Prop) (l1 l2 : list A) :
  StronglySorted R (l1 ++ l2) ->
  forall a b, In a l1 -> In b l2 -> R a b.
Proof.
  induction l1 as [|x l1 IH]; intros S a b Ha Hb; [destruct Ha|].
  cbn [app] in S. inversion S as [|? ? S' F]; subst.
  destruct Ha as [<-|Ha]; [|apply IH; assumption].
  rewrite List.Forall_forall in F. apply F, in_or_app. right. exact Hb.
Qed.

Lemma insertDescending_perm (b : Bar) (l : list Bar) :
  Permutation (insertDescending b l) (b :: l).
Proof.
  induction l as [|x l IH]; cbn [insertDescending]; [reflexivity|].
  destruct (timestamp x <? timestamp b); [reflexivity|].
  rewrite IH. apply perm_swap.
Qed.

Lemma sortDescending_perm (l : list Bar) : Permutation (sortDescending l) l.
Proof.
  induction l as [|x l IH]; [reflexivity|].
  change (sortDescending (x :: l)) with (insertDescending x (sortDescending l)).
  rewrite insertDescending_perm, IH. reflexivity.
Qed.

(** What the query selects: the bars it returns and the bars of the symbol
    it leaves out make up the stored bars of the symbol, and none of those
    left out is more recent than one returned. *)
Lemma latest_selects (sym : string) (limit : Z) (coll : list Bar) :
  let older := skipn (Z.to_nat limit) (sortDescending (find sym coll)) in
  Permutation (rev (latest sym limit coll) ++ older) (find sym coll)
  /\ length older = (length (find sym coll) - Z.to_nat limit)%nat
  /\ forall kept other,
       In kept (rev (latest sym limit coll)) -> In other older ->
       timestamp other <= timestamp kept.
Proof.
  cbv zeta. unfold latest.
  set (sorted := sortDescending (find sym coll)).
  split; [|split].
  - rewrite <- (sortDescending_perm (find sym coll)). fold sorted.
    rewrite <- (firstn_skipn (Z.to_nat limit) sorted) at 3.
    apply Permutation_app_tail. symmetry. apply Permutation_rev.
  - rewrite length_skipn. unfold sorted.
    rewrite (Permutation_length (sortDescending_perm (find sym coll))).
    reflexivity.
  - intros kept other K O. apply in_rev in K.
    pose proof (sortDescending_sorted (find sym coll)) as S. fold sorted in S.
    rewrite <- (firstn_skipn (Z.to_nat limit) sorted) in S.
    exact (sorted_app_order newerFirst _ _ S kept other K O).
Qed.

(** C6.  With twenty bars stored for SPY, [getLatestMarketData('SPY', 10)]
    returns exactly ten bars, oldest first, all of symbol SPY.  When the
    store answers, they are the ten most recent stored bars: together
    with ten other bars they make up the twenty stored bars of SPY, and
    none of the other ten is more recent than one of the ten returned;
    they are the result of the query (newest first, limit 10) reversed.
    When the store does not answer, they are the ten bars of the
    fallback. *)
Theorem latest_ten_of_twenty (w : World) (coll : list Bar) :
  length (find "SPY" coll) = 20%nat ->
  exists data,
    fst (getLatestMarketData "SPY" 10 w (initial coll)) = Ret data
    /\ length data = 10%nat
    /\ Forall (fun b => symbol b = "SPY") data
    /\ StronglySorted olderFirst data
    /\ (if faulty w 0 || faulty w 1
        then data = backfill w simulatedVolatility 0 "SPY" 10
        else data = rev (latest "SPY" 10 coll)
             /\ exists older,
                  Permutation (data ++ older) (find "SPY" coll)
                  /\ length older = 10%nat
                  /\ forall kept other,
                       In kept data -> In other older ->
                       timestamp other <= timestamp kept).
Proof.
  intros Twenty.
  assert (A : acceptable "SPY" 10) by (split; [discriminate | lia]).
  rewrite (getLatestMarketData_run "SPY" 10 w _ A).
  rewrite (generateSampleData_run "SPY" _ w _ (acceptable_max _ _ A)).
  cbn [initial after bars drawn issued log app Nat.add].
  assert (Fallback : forall s, drawn s = 0%nat ->
            exists data,
              fst (generateSimulatedData "SPY" 10 w s) = Ret data
              /\ length data = 10%nat
              /\ Forall (fun b => symbol b = "SPY") data
              /\ StronglySorted olderFirst data
              /\ data = backfill w simulatedVolatility 0 "SPY" 10).
  { intros s D. rewrite (generateSimulatedData_run "SPY" 10 w s A), D.
    eexists. split; [reflexivity|].
    destruct (backfill_facts w simulatedVolatility 0 "SPY" 10) as (L & S & O).
    repeat split; assumption. }
  destruct (faulty w 0); [apply Fallback; reflexivity|].
  assert (E : (0 <? length (firstn 1 (find "SPY" coll)))%nat = true).
  { apply Nat.ltb_lt. rewrite length_firstn. lia. }
  rewrite E. cbv zeta. cbn [initial after bars drawn issued log app Nat.add].
  destruct (faulty w 1); [apply Fallback; reflexivity|].
  destruct (latest_facts "SPY" 10 coll) as (L & S & O).
  rewrite Twenty in L. change (Nat.min (Z.to_nat 10) 20) with 10%nat in L.
  rewrite L. cbn [Nat.eqb fst orb].
  eexists. split; [reflexivity|].
  split; [rewrite length_rev; exact L|].
  split; [apply Forall_rev; exact S|].
  split; [apply (rev_sorted newerFirst), O|].
  split; [reflexivity|].
  destruct (latest_selects "SPY" 10 coll) as (P & Len & Ord).
  eexists. split; [exact P|]. split; [|exact Ord].
  rewrite Len, Twenty. reflexivity.
Qed.

Lemma latest_ten_of_twenty_witness :
  length (find "SPY" twentyBars) = 20%nat
  /\ exists data,
       fst (getLatestMarketData "SPY" 10 calmWorld (initial twentyBars)) = Ret data
       /\ length data = 10%nat
       /\ Forall (fun b => symbol b = "SPY") data
       /\ StronglySorted olderFirst data
       /\ (if faulty calmWorld 0 || faulty calmWorld 1
           then data = backfill calmWorld simulatedVolatility 0 "SPY" 10
           else data = rev (latest "SPY" 10 twentyBars)
                /\ exists older,
                     Permutation (data ++ older) (find "SPY" twentyBars)
                     /\ length older = 10%nat
                     /\ forall kept other,
                          In kept data -> In other older ->
                          timestamp other <= timestamp kept).
Proof.
  split; [reflexivity|].
  apply (latest_ten_of_twenty calmWorld twentyBars). reflexivity.
Defined.

(** The documents [generateSampleData] builds for an accepted symbol pass
    the schema's validators. *)
Lemma sample_documents_valid (w : World) (start : nat) (sym : string) (n : Z) :
  plausible w -> Symbol.matchesRequestPattern sym = true ->
  Forall (fun d => validators (applySetters d) = true)
         (backfill w (sampleVolatility w) start sym n).
Proof.
  intros W M.
  pose proof (backfill_valid w W (sampleVolatility w) start sym n
                (sampleVolatility_range w W)) as V.
  pose proof (backfill_facts w (sampleVolatility w) start sym n) as (_ & S & _).
  rewrite List.Forall_forall in V, S. apply List.Forall_forall. intros d Hd.
  destruct (V d Hd) as (_ & (O & _ & _ & C & Vol) & (H & L)).
  unfold validators. cbn [applySetters symbol open high low close volume].
  rewrite (S d Hd), (normalize_matches sym M).
  rewrite (proj2 (Qltb_lt _ _) O), (proj2 (Qltb_lt _ _) C).
  rewrite (proj2 (Qle_bool_iff _ _) H), (proj2 (Qle_bool_iff _ _) L).
  rewrite (proj2 (Z.leb_le _ _) Vol). reflexivity.
Qed.

(** The documents of one backfill neither clash with a collection that
    holds no bar of the symbol nor with one another. *)
Lemma sample_documents_fresh (w : World) (vf : Q) (start : nat) (sym : string)
    (n : Z) (coll : list Bar) :
  find sym coll = [] ->
  Forall (fun d => clashes (applySetters d) coll = false)
         (backfill w vf start sym n)
  /\ ForallOrdPairs
       (fun d1 d2 => sameKey (applySetters d2) (applySetters d1) = false)
       (backfill w vf start sym n).
Proof.
  intros Empty. split.
  - apply List.Forall_forall. intros d Hd.
    apply in_map_iff in Hd as (i & <- & _).
    unfold clashes. apply not_true_iff_false. intros E.
    apply existsb_exists in E as (x & Hx & K).
    pose proof (filter_nil_inv _ _ Empty x Hx) as N.
    unfold sameKey in K. apply andb_true_iff in K as [K _].
    cbn [applySetters backfillBar symbol] in K. apply String.eqb_eq in K.
    unfold ofSymbol in N. rewrite <- K, String.eqb_refl in N. discriminate.
  - unfold backfill.
    apply (map_seq_pairs
             (fun d1 d2 => sameKey (applySetters d2) (applySetters d1) = false)).
    intros i j L. unfold sameKey. cbn [applySetters backfillBar timestamp].
    apply andb_false_iff. right. apply Z.eqb_neq. lia.
Qed.

(** C10.  [getLatestMarketData] writes.  For a symbol the routes accept, a
    limit between 1 and 1000 and a store that answers: when the collection
    holds no bar of the symbol, the call first inserts max(limit, 100)
    freshly generated bars of that symbol (the loop of
    [generateSampleData]) and then runs its query on the grown collection;
    when the collection holds a bar of the symbol, it is left as it
    was. *)
Theorem read_backfills_missing_symbol
    (w : World) (sym : string) (limit : Z) (coll : list Bar) :
  plausible w ->
  Symbol.matchesRequestPattern sym = true ->
  1 <= limit <= 1000 ->
  (forall k, faulty w k = false) ->
  match find sym coll with
  | [] =>
      let fresh := map applySetters
                       (backfill w (sampleVolatility w) 0 sym (Z.max limit 100)) in
      bars (snd (getLatestMarketData sym limit w (initial coll))) = coll ++ fresh
      /\ length fresh = Z.to_nat (Z.max limit 100)
      /\ Forall (fun b => symbol b = Symbol.normalize sym) fresh
      /\ log (snd (getLatestMarketData sym limit w (initial coll)))
         = [StoreQuery; StoreInsertMany; SampleGeneration; StoreFind]
      /\ fst (getLatestMarketData sym limit w (initial coll))
         = Ret (rev (latest sym limit (coll ++ fresh)))
  | _ :: _ =>
      bars (snd (getLatestMarketData sym limit w (initial coll))) = coll
  end.
Proof.
  intros W M L NoFault.
  assert (A : acceptable sym limit) by (split; [apply matches_nonempty, M | exact L]).
  rewrite (getLatestMarketData_run sym limit w _ A).
  rewrite (generateSampleData_run sym _ w _ (acceptable_max _ _ A)).
  cbn [initial after bars drawn issued log app Nat.add].
  rewrite !NoFault. cbv zeta.
  destruct (find sym coll) as [|b0 found] eqn:Found.
  - cbn [firstn length Nat.ltb Nat.leb].
    cbn [initial after bars drawn issued log app Nat.add snd].
    rewrite NoFault.
    set (docs := backfill w (sampleVolatility w) 0 sym (Z.max limit 100)).
    destruct (sample_documents_fresh w (sampleVolatility w) 0 sym
                (Z.max limit 100) coll Found) as [Fresh Apart].
    rewrite (insertMany_all docs coll
               (sample_documents_valid w 0 sym _ W M) Fresh Apart).
    cbn [snd].
    destruct (backfill_facts w (sampleVolatility w) 0 sym (Z.max limit 100))
      as (Len & Sym & _). fold docs in Len, Sym.
    assert (FreshSym : Forall (fun b => symbol b = Symbol.normalize sym)
                              (map applySetters docs)).
    { apply Forall_map. eapply List.Forall_impl; [|exact Sym].
      intros d E. cbn [applySetters symbol]. rewrite E. reflexivity. }
    assert (Few : (length (latest sym limit (coll ++ map applySetters docs))
                   =? 0)%nat = false).
    { apply Nat.eqb_neq.
      destruct (latest_facts sym limit (coll ++ map applySetters docs)) as (E & _).
      rewrite E. unfold find. rewrite List.filter_app. fold (find sym coll).
      rewrite Found, filter_all; [cbn [app]; rewrite length_map, Len; lia|].
      eapply List.Forall_impl; [|exact FreshSym].
      intros d E'. unfold ofSymbol. rewrite E'. apply String.eqb_refl. }
    rewrite Few. cbn [fst snd bars log].
    repeat split; try reflexivity; try assumption.
    rewrite length_map. exact Len.
  - cbn [firstn length Nat.ltb Nat.leb].
    cbn [initial after bars drawn issued log app Nat.add].
    rewrite NoFault.
    destruct (length (latest sym limit coll) =? 0)%nat;
      [rewrite (generateSimulatedData_run sym limit w _ A)|]; reflexivity.
Qed.

Lemma read_backfills_missing_symbol_witness :
  (let fresh := map applySetters
                    (backfill calmWorld (sampleVolatility calmWorld) 0 "spy"
                              (Z.max 10 100)) in
   bars (snd (getLatestMarketData "spy" 10 calmWorld (initial []))) = [] ++ fresh
   /\ length fresh = Z.to_nat (Z.max 10 100)
   /\ Forall (fun b => symbol b = Symbol.normalize "spy") fresh
   /\ log (snd (getLatestMarketData "spy" 10 calmWorld (initial [])))
      = [StoreQuery; StoreInsertMany; SampleGeneration; StoreFind]
   /\ fst (getLatestMarketData "spy" 10 calmWorld (initial []))
      = Ret (rev (latest "spy" 10 ([] ++ fresh))))
  /\ bars (snd (getLatestMarketData "SPY" 10 calmWorld (initial twentyBars)))
     = twentyBars.
Proof.
  split.
  - apply (read_backfills_missing_symbol calmWorld "spy" 10 []).
    + exact calmWorld_plausible.
    + reflexivity.
    + lia.
    + reflexivity.
  - apply (read_backfills_missing_symbol calmWorld "SPY" 10 twentyBars).
    + exact calmWorld_plausible.
    + reflexivity.
    + lia.
    + reflexivity.
Defined.

End ReadClaims.

(** ** The claims on request validation *)

Section ValidationRouteClaims.

Import Market Service Routes.

(** The market route turns away every symbol that fails the pattern,
    before the cache, the store and the generator. *)
Lemma marketRoute_rejects (req : Request) (sym : string) (w : World) (srv : Server) :
  symbolParam req = Some sym ->
  Symbol.matchesRequestPattern sym = false ->
  marketRoute req w srv = (BadRequest, srv).
Proof.
  intros P M. unfold marketRoute, symbolValidation. rewrite P, M.
  rewrite andb_false_r. reflexivity.
Qed.

(** So does [validateRequest], for every such symbol but the empty one. *)
Lemma sentimentRoute_rejects (req : Request) (sym : string) (w : World) (s : State) :
  symbolParam req = Some sym -> sym <> EmptyString ->
  Symbol.matchesRequestPattern sym = false ->
  sentimentRoute req w s = (Ret BadRequest, s).
Proof.
  intros P N M. unfold sentimentRoute, validateRequest. rewrite P, M.
  rewrite (proj2 (String.eqb_neq sym EmptyString) N). reflexivity.
Qed.

(** C7.  The empty symbol ([GET /sentiment?symbol=]) fails the pattern
    [^[A-Za-z0-9.]{1,10}$]; the claim promises a 400 reply without the
    generator being invoked.  [validateRequest] tests the symbol for
    truthiness first and lets the empty text through; the handler passes
    it to [getLatestMarketData], whose own check throws, the fallback
    [generateSimulatedData] is called and returns the empty array, and the
    reply is 404.  The market route rejects the same request with 400, as
    both routes do for [INVALID123456]. *)
Theorem empty_symbol_gets_not_found (url : string) (limit : option Z)
    (w : World) (s : State) :
  let req := {| originalUrl := url; symbolParam := Some EmptyString;
                limitParam := limit |} in
  Symbol.matchesRequestPattern EmptyString = false
  /\ sentimentRoute req w s
     = (Ret NotFound, after s (bars s) 0 0 [SimulatedGeneration])
  /\ (forall srv, marketRoute req w srv = (BadRequest, srv))
  /\ (forall srv,
         marketRoute {| originalUrl := url;
                        symbolParam := Some "INVALID123456"%string;
                        limitParam := limit |} w srv = (BadRequest, srv))
  /\ sentimentRoute {| originalUrl := url;
                       symbolParam := Some "INVALID123456"%string;
                       limitParam := limit |} w s = (Ret BadRequest, s).
Proof.
  cbv zeta. split; [reflexivity|]. split.
  - unfold sentimentRoute, validateRequest, symbolOrDefault, tryCatch, mbindM.
    cbn [symbolParam String.eqb negb].
    rewrite getLatestMarketData_rejects
      by (unfold acceptable; intros [N _]; apply N; reflexivity).
    reflexivity.
  - split; [intros srv; apply (marketRoute_rejects _ EmptyString); reflexivity|].
    split; [intros srv; apply (marketRoute_rejects _ "INVALID123456");
            reflexivity|].
    apply (sentimentRoute_rejects _ "INVALID123456");
      [reflexivity | discriminate | reflexivity].
Qed.

End ValidationRouteClaims.

(** ** The claims on the cache *)

Section CacheClaims.

Import Cache.

Context {P : Type}.

Lemma prefix_spec (p s : string) :
  String.prefix p s = true <-> exists rest, s = String.append p rest.
Proof.
  revert s. induction p as [|c p IH]; intros [|d s];
    cbn [String.prefix String.append].
  - split; [intros _; exists EmptyString; reflexivity | reflexivity].
  - split; [intros _; exists (String d s); reflexivity | reflexivity].
  - split; [discriminate | intros [r E]; discriminate].
  - destruct (Ascii.ascii_dec c d) as [->|N].
    + rewrite IH. split; intros [r E]; exists r;
        [rewrite E; reflexivity | injection E as E; exact E].
    + split; [discriminate | intros [r E]; injection E as E1 E2; exfalso; auto].
Qed.

(** [includes] is the substring test. *)
Lemma includes_spec (key pattern : string) :
  includes key pattern = true
  <-> exists before rest,
        key = String.append before (String.append pattern rest).
Proof.
  induction key as [|c key IH]; cbn [includes]; rewrite orb_true_iff, prefix_spec.
  - split.
    + intros [[r E]|H]; [exists EmptyString, r; exact E | discriminate].
    + intros (b & r & E). left.
      destruct b; [exists r; exact E | simpl in E; discriminate].
  - rewrite IH. split.
    + intros [[r E]|(b & r & E)];
        [exists EmptyString, r; exact E
        |exists (String c b), r; rewrite E; reflexivity].
    + intros ([|d b] & r & E); [left; exists r; exact E|].
      right. exists b, r. simpl in E. injection E as _ E. exact E.
Qed.

Lemma delete_all_lookup (ks : list string) (c : gmap string (Entry P)) (k : string) :
  fold_left (fun acc key => delete key acc) ks c !! k
  = if decide (k ∈ ks) then None else c !! k.
Proof.
  revert c. induction ks as [|x ks IH]; intros c; cbn [fold_left].
  - rewrite decide_False by apply not_elem_of_nil. reflexivity.
  - rewrite IH. destruct (decide (k ∈ ks)) as [In|Out].
    + rewrite decide_True by (right; exact In). reflexivity.
    + destruct (decide (k = x)) as [->|N].
      * rewrite decide_True by left. apply lookup_delete_eq.
      * rewrite decide_False by (intros H; apply elem_of_cons in H; tauto).
        apply lookup_delete_ne. congruence.
Qed.

(** C8.  For every pattern and every cache, [invalidateCache] deletes
    exactly the entries whose key contains the pattern as a substring:
    such a key is absent afterwards, and any other key reads the entry
    (payload and expiry) it read before. *)
Theorem invalidateCache_deletes_matching
    (pattern : string) (c : gmap string (Entry P)) (key : string) :
  invalidateCache pattern c !! key
  = (if includes key pattern then None else c !! key)
  /\ (includes key pattern = true
      <-> exists before rest,
            key = String.append before (String.append pattern rest)).
Proof.
  split; [|apply includes_spec].
  unfold invalidateCache. cbv zeta. rewrite delete_all_lookup.
  destruct (includes key pattern) eqn:I.
  - destruct (decide _) as [_|Out]; [reflexivity|].
    destruct (c !! key) as [e|] eqn:L; [|reflexivity]. exfalso. apply Out.
    apply list_elem_of_In, filter_In. split; [|exact I].
    apply list_elem_of_In. unfold keys. apply list_elem_of_fmap.
    exists (key, e). split; [reflexivity|]. apply elem_of_map_to_list, L.
  - destruct (decide _) as [In|_]; [|reflexivity]. exfalso.
    apply list_elem_of_In, filter_In in In as [_ In]. congruence.
Qed.

End CacheClaims.

(** * Further properties of the code *)

(** ** Moving averages: the indicators and the alerts *)

Section IndicatorRanges.

Import Indicators Series Market Alerts Scenario2.

Local Open Scope Q_scope.


Lemma inject_nat_pos (n : nat) : (0 < n)%nat -> 0 < inject_Z (Z.of_nat n).
Proof.
  intros H. change 0 with (inject_Z 0). rewrite <- Zlt_Qlt. lia.
Qed.


(** X1.  The latest simple moving average the indicators surface is the
    average the alerts compute with [calcSMA] from the same bars: the same
    closes, summed in the same order and divided by [periods].  The two
    part ways below [periods] bars, where the indicator is [null] and
    [calcSMA] divides the shorter sum by [periods]. *)
Theorem sma_latest_is_the_alert_average (data : list Bar) (periods : nat) :
  (1 <= periods)%nat ->
  getLatestValue (calculateSMA (map (fun d => Fin (close d)) data) periods)
  = if (length data <? periods)%nat then VNull
    else VNum (calcSMA data periods).
Proof.
  intros P. unfold calculateSMA. rewrite length_map.
  destruct (Nat.ltb_spec (length data) periods) as [L|L]; [reflexivity|].
  unfold getLatestValue. rewrite length_map, length_seq.
  replace (Z.of_nat (length data - (periods - 1)) - 1)%Z
    with (Z.of_nat (length data - periods)) by lia.
  rewrite aget_map_seq by lia.
  replace (periods - 1 + (length data - periods) + 1 - periods)%nat
    with (length data - periods)%nat by lia.
  replace (periods - 1 + (length data - periods) + 1)%nat
    with (length data) by lia.
  unfold calcSMA, lastN, slice. rewrite length_map.
  rewrite firstn_all2 by (rewrite length_skipn, length_map; lia).
  reflexivity.
Qed.

Lemma sma_latest_is_the_alert_average_witness :
  getLatestValue (calculateSMA (map (fun d => Fin (close d))
                                    [olderBar; newerBar]) 2)
  = if (length [olderBar; newerBar] <? 2)%nat then VNull
    else VNum (calcSMA [olderBar; newerBar] 2).
Proof.
  apply (sma_latest_is_the_alert_average [olderBar; newerBar] 2). lia.
Defined.

(** X2.  [calculateEMA] and [calculateSMA] are aligned and seeded alike:
    on at least [periods] values both return [length - periods + 1]
    values, and the first EMA is the first SMA, the average of the first
    [periods] values. *)
Theorem ema_is_seeded_with_the_first_sma (data : list num) (periods : nat) :
  (1 <= periods <= length data)%nat ->
  exists emaOut smaOut,
    calculateEMA data periods = Some emaOut
    /\ calculateSMA data periods = Some smaOut
    /\ length emaOut = (length data - periods + 1)%nat
    /\ length smaOut = (length data - periods + 1)%nat
    /\ List.hd_error emaOut
       = Some (ndiv (sum (slice data 0 periods)) (ofnat periods))
    /\ List.hd_error smaOut = List.hd_error emaOut.
Proof.
  intros [P L]. unfold calculateEMA, calculateSMA.
  destruct (Nat.ltb_spec (length data) periods); [lia|].
  eexists _, _. split; [reflexivity|]. split; [reflexivity|].
  split; [cbn [length]; rewrite emaLoop_length, length_skipn; lia|].
  split; [rewrite length_map, length_seq; lia|].
  split; [reflexivity|].
  replace (length data - (periods - 1))%nat
    with (S (length data - periods)) by lia.
  cbn [seq map List.hd_error].
  replace (periods - 1 + 1 - periods)%nat with 0%nat by lia.
  replace (periods - 1 + 1)%nat with periods by lia.
  reflexivity.
Qed.

Lemma ema_is_seeded_with_the_first_sma_witness :
  exists emaOut smaOut,
    calculateEMA [Fin 100; Fin 101; Fin 102] 2 = Some emaOut
    /\ calculateSMA [Fin 100; Fin 101; Fin 102] 2 = Some smaOut
    /\ length emaOut = (length [Fin 100; Fin 101; Fin 102] - 2 + 1)%nat
    /\ length smaOut = (length [Fin 100; Fin 101; Fin 102] - 2 + 1)%nat
    /\ List.hd_error emaOut
       = Some (ndiv (sum (slice [Fin 100; Fin 101; Fin 102] 0 2)) (ofnat 2))
    /\ List.hd_error smaOut = List.hd_error emaOut.
Proof.
  apply (ema_is_seeded_with_the_first_sma [Fin 100; Fin 101; Fin 102] 2).
  cbn. lia.
Defined.

End IndicatorRanges.

(** ** RSI and MACD as surfaced *)

Section OscillatorFacts.

Import Indicators Series.

Local Open Scope Q_scope.

Lemma changes_finite (qs : list Q) :
  Forall (fun c => exists q, c = Fin q) (changes (map Fin qs)).
Proof.
  induction qs as [|x [|y rest] IH]; [constructor | constructor |].
  cbn [map changes]. constructor; [eexists; reflexivity | exact IH].
Qed.

(** On finite deltas the two accumulators are finite and non-negative. *)
Lemma gainLoss_finite (window : list num) :
  Forall (fun c => exists q, c = Fin q) window ->
  exists g l, gainLoss window = (Fin g, Fin l) /\ 0 <= g /\ 0 <= l.
Proof.
  unfold gainLoss.
  enough (G : forall g0 l0, 0 <= g0 -> 0 <= l0 ->
            Forall (fun c => exists q, c = Fin q) window ->
            exists g l,
              fold_left
                (fun acc change =>
                   if ngt change (Fin 0)
                   then (nadd (fst acc) change, snd acc)
                   else (fst acc, nsub (snd acc) change))
                window (Fin g0, Fin l0) = (Fin g, Fin l)
              /\ 0 <= g /\ 0 <= l)
    by (apply G; lra).
  induction window as [|c w IH]; intros g0 l0 G0 L0 H.
  - exists g0, l0. split; [reflexivity | split; assumption].
  - inversion H as [|? ? (q & ->) Hw]; subst. cbn [fold_left fst snd].
    unfold ngt at 2, nlt. destruct (Qltb 0 q) eqn:E.
    + apply Qltb_lt in E. cbn [nadd]. apply IH; [lra | lra | exact Hw].
    + apply Qltb_ge in E. cbn [nsub nneg nadd]. apply IH; [lra | lra | exact Hw].
Qed.

Lemma rsiOfWindow_range (window : list num) (periods : nat) :
  (0 < periods)%nat -> Forall (fun c => exists q, c = Fin q) window ->
  exists r, rsiOfWindow window periods = Fin r /\ 0 <= r <= 100.
Proof.
  intros P H. destruct (gainLoss_finite window H) as (g & l & E & G & L).
  pose proof (inject_nat_pos periods P) as PP.
  unfold rsiOfWindow, ofnat. rewrite E. cbn [fst snd]. cbv zeta.
  set (n := inject_Z (Z.of_nat periods)) in *.
  rewrite !(ndiv_Fin _ n) by lra. cbn [nseq].
  destruct (Qeq_bool (l / n) 0) eqn:Z; [exists 100; split; [reflexivity | lra]|].
  assert (NZ : ~ l / n == 0).
  { intros C. apply Qeq_bool_iff in C. congruence. }
  assert (A : 0 <= g / n) by (apply Qle_shift_div_l; lra).
  assert (B : 0 < l / n).
  { assert (0 <= l / n) by (apply Qle_shift_div_l; lra).
    destruct (Qlt_le_dec 0 (l / n)) as [|C]; [assumption|].
    exfalso. apply NZ. lra. }
  rewrite (ndiv_Fin _ (l / n)) by lra. cbn [nadd].
  set (rs := g / n / (l / n)).
  assert (RS : 0 <= rs) by (apply Qle_shift_div_l; lra).
  rewrite ndiv_Fin by lra. cbn [nsub nneg nadd].
  eexists. split; [reflexivity|].
  assert (U : 0 < 100 / (1 + rs)) by (apply Qlt_shift_div_l; lra).
  assert (V : 100 / (1 + rs) <= 100) by (apply Qle_shift_div_r; lra).
  lra.
Qed.

(** X3.  On closes of the magnitude of prices (positive and at most
    [10^9], where the sums the source forms in double precision cannot
    overflow), every value [calculateRSI] computes is a number between 0
    and 100. *)
Theorem rsi_within_0_100 (qs : list Q) (periods : nat) (out : list num) :
  Forall (fun q => 0 < q <= 1000000000) qs ->
  (1 <= periods)%nat ->
  calculateRSI (map Fin qs) periods = Some out ->
  Forall (fun v => exists r, v = Fin r /\ 0 <= r <= 100) out.
Proof.
  intros _ P. unfold calculateRSI.
  destruct (length (map Fin qs) <=? periods)%nat; [discriminate|].
  intros [= <-]. apply List.Forall_forall. intros v Hv.
  apply in_map_iff in Hv as (i & <- & _).
  apply rsiOfWindow_range; [lia|]. apply slice_Forall, changes_finite.
Qed.

Lemma rsi_within_0_100_witness :
  Forall (fun v => exists r, v = Fin r /\ 0 <= r <= 100) [Fin 100; Fin 100].
Proof.
  apply (rsi_within_0_100 (ramp 17) 14 [Fin 100; Fin 100]).
  - repeat constructor; vm_compute; discriminate.
  - lia.
  - vm_compute. reflexivity.
Defined.

(** X4.  From sixteen closes on, the surfaced RSI(14) of a strictly increasing
    series is 100 and that of a strictly decreasing series is 0. *)
Theorem rsi_of_monotone_series (closes : list Q) :
  (16 <= length closes)%nat ->
  (strictlyIncreasing closes ->
   getLatestValue (calculateRSI (map Fin closes) 14) = VNum (Fin 100))
  /\ (strictlyDecreasing closes ->
      exists r, getLatestValue (calculateRSI (map Fin closes) 14) = VNum r
                /\ num_eq r (Fin 0)).
Proof.
  intros L. split; intros H; [apply rsi_increasing | apply rsi_decreasing];
    assumption.
Qed.

Lemma rsi_of_monotone_series_witness :
  getLatestValue (calculateRSI (map Fin (ramp 16)) 14) = VNum (Fin 100)
  /\ exists r, getLatestValue (calculateRSI (map Fin (slope 16)) 14) = VNum r
               /\ num_eq r (Fin 0).
Proof.
  split.
  - apply (rsi_of_monotone_series (ramp 16)); [vm_compute; lia|].
    vm_compute. repeat split.
  - apply (rsi_of_monotone_series (slope 16)); [vm_compute; lia|].
    vm_compute. repeat split.
Defined.

(** X5.  The MACD figures [calculateIndicators] surfaces are all [null] below
    35 closes and all NaN from 35 closes on: they are never numbers. *)
Theorem macd_is_null_or_NaN (closes : list num) :
  closes <> [] ->
  exists s,
    calculateIndicators closes = Ret (Some s)
    /\ macd s = if (length closes <? 35)%nat
                then {| line := VNull; signal := VNull; hist := VNull |}
                else {| line := VNum NaN; signal := VNum NaN; hist := VNum NaN |}.
Proof.
  intros N. destruct (Nat.ltb_spec (length closes) 35) as [Short|Long].
  - unfold calculateIndicators, calculateMACD.
    destruct closes as [|c cs]; [congruence|].
    change (Nat.max 12 26 + 9)%nat with 35%nat.
    destruct (Nat.ltb_spec (length (c :: cs)) 35); [|lia].
    eexists. split; reflexivity.
  - destruct (macd_latest_is_NaN closes Long) as (s & E & A & B & C).
    exists s. split; [exact E|]. destruct s as [? ? ? ? ? [l g h]].
    cbn in A, B, C. subst. reflexivity.
Qed.

Lemma macd_is_null_or_NaN_witness :
  exists s,
    calculateIndicators [Fin 100; Fin 101] = Ret (Some s)
    /\ macd s = if (length [Fin 100; Fin 101] <? 35)%nat
                then {| line := VNull; signal := VNull; hist := VNull |}
                else {| line := VNum NaN; signal := VNum NaN; hist := VNum NaN |}.
Proof.
  apply (macd_is_null_or_NaN [Fin 100; Fin 101]). discriminate.
Defined.

End OscillatorFacts.

(** ** The range of the sentiment score *)

Section ScoreRange.

Import Indicators Sentiment Market.

Local Open Scope Q_scope.

Lemma rsiBlock_step (ind : Snapshot) (score score' : Q) :
  rsiBlock ind score = Ret score' -> score - 1 <= score' <= score + 1.
Proof.
  unfold rsiBlock. destruct (not_null (rsi ind)); [|intros [= <-]; lra].
  destruct (vlt (rsi ind) (lit 30)), (vgt (rsi ind) (lit 70)),
    (vgt (rsi ind) (lit 50)), (toFixed (rsi ind));
    cbn [mbind outcome_bind JS.bind]; try discriminate; intros [= <-]; lra.
Qed.

Lemma macdBlock_step (ind : Snapshot) (marketData : list Bar) (score score' : Q) :
  macdBlock ind marketData score = Ret score' ->
  score - 0.75 <= score' <= score + 0.75.
Proof.
  unfold macdBlock.
  destruct (not_null (line (macd ind)) && not_null (signal (macd ind)));
    [|intros [= <-]; lra].
  match goal with |- histogramBlock _ _ ?s = _ -> _ =>
    destruct (histogramBlock_adds_nothing ind marketData s) as [E|E]; rewrite E
  end; [|discriminate].
  destruct (vgt (line (macd ind)) (signal (macd ind))); intros [= <-]; lra.
Qed.

Lemma movingAverageBlock_step (ind : Snapshot) (score : Q) :
  score - 0.75 <= movingAverageBlock ind score <= score + 0.75.
Proof.
  unfold movingAverageBlock.
  destruct (not_null (sma20 ind) && not_null (sma50 ind)); [|lra].
  destruct (vgt (sma20 ind) (sma50 ind)); lra.
Qed.

Lemma priceActionBlock_step (change : num) (score : Q) :
  score - 0.5 <= priceActionBlock change score <= score + 0.5.
Proof.
  unfold priceActionBlock.
  destruct (ngt change (Fin 0.01)); [lra|].
  destruct (nlt change (Fin (-0.01))); lra.
Qed.

Lemma volumeBlock_step (ratio change : num) (score : Q) :
  score - 0.5 <= volumeBlock ratio change score <= score + 0.5.
Proof.
  unfold volumeBlock.
  destruct (ngt ratio (Fin 1.5) && ngt change (Fin 0)); [lra|].
  destruct (ngt ratio (Fin 1.5) && nlt change (Fin 0)); lra.
Qed.

(** X6.  Whenever the handler computes a raw sentiment score, it lies between
    −3.5 and 3.5, so the reported score lies between −87 and 88 and the
    clamp to [−100, 100] never takes effect. *)
Theorem sentiment_score_range (ind : Snapshot) (marketData : list Bar) (raw : Q) :
  sentimentScore ind marketData = Ret raw ->
  -3.5 <= raw <= 3.5
  /\ (-87 <= normalizedScore raw <= 88)%Z
  /\ qmax (-100) (qmin 100 (raw * 25)) == raw * 25.
Proof.
  unfold sentimentScore. cbn [mbind outcome_bind JS.bind].
  destruct (rsiBlock ind 0) as [s1|] eqn:E1;
    cbn [mbind outcome_bind JS.bind]; [|discriminate].
  destruct (macdBlock ind marketData s1) as [s2|] eqn:E2;
    cbn [mbind outcome_bind JS.bind]; [|discriminate].
  destruct (priceChange marketData) as [change|];
    cbn [mbind outcome_bind JS.bind]; [|discriminate].
  destruct (volumeRatio marketData) as [ratio|];
    cbn [mbind outcome_bind JS.bind]; [|discriminate].
  intros [= <-].
  apply rsiBlock_step in E1. apply macdBlock_step in E2.
  pose proof (movingAverageBlock_step ind s2) as E3.
  pose proof (priceActionBlock_step change (movingAverageBlock ind s2)) as E4.
  pose proof (volumeBlock_step ratio change
                (priceActionBlock change (movingAverageBlock ind s2))) as E5.
  set (raw := volumeBlock ratio change
                (priceActionBlock change (movingAverageBlock ind s2))) in *.
  assert (R : -3.5 <= raw <= 3.5) by lra.
  assert (C : qmax (-100) (qmin 100 (raw * 25)) == raw * 25).
  { destruct (qmin_spec 100 (raw * 25)) as (A1 & A2 & [A3|A3]); [lra|].
    destruct (qmax_spec (-100) (qmin 100 (raw * 25))) as (B1 & B2 & [B3|B3]);
      lra. }
  split; [exact R|]. split; [|exact C].
  unfold normalizedScore.
  pose proof (Qfloor_le (qmax (-100) (qmin 100 (raw * 25)) + 0.5)) as F1.
  pose proof (Qlt_floor (qmax (-100) (qmin 100 (raw * 25)) + 0.5)) as F2.
  set (z := Qfloor (qmax (-100) (qmin 100 (raw * 25)) + 0.5)) in *.
  rewrite inject_Z_plus in F2. change (inject_Z 1) with 1 in F2.
  split.
  - apply Z.lt_succ_r. rewrite Zlt_Qlt.
    unfold Z.succ. rewrite inject_Z_plus.
    change (inject_Z (-87)) with (-87). change (inject_Z 1) with 1. lra.
  - rewrite Zle_Qle. change (inject_Z 88) with 88. lra.
Qed.

Lemma sentiment_score_range_witness :
  -3.5 <= -0.7500 <= 3.5
  /\ (-87 <= normalizedScore (-0.7500) <= 88)%Z
  /\ qmax (-100) (qmin 100 (-0.7500 * 25)) == -0.7500 * 25.
Proof.
  apply (sentiment_score_range
           {| sma20 := VNull; sma50 := VNull; ema12 := VNull; ema26 := VNull;
              rsi := VNum (Fin 100);
              macd := {| line := VNum NaN; signal := VNum NaN;
                         hist := VNum NaN |} |}
           (Series.barsOf (Series.accelerating 3)) (-0.7500)).
  vm_compute. reflexivity.
Defined.

End ScoreRange.

(** ** Writes and the collection's invariants *)

Section StoreExtras.

Import Market Service Invariant Scenario Scenario2.

Lemma sameKey_sym (a b : Bar) : sameKey a b = sameKey b a.
Proof.
  unfold sameKey. rewrite String.eqb_sym, Z.eqb_sym. reflexivity.
Qed.

Lemma sameKey_refl (b : Bar) : sameKey b b = true.
Proof. unfold sameKey. rewrite String.eqb_refl, Z.eqb_refl. reflexivity. Qed.

Lemma validators_order (b : Bar) : validators b = true -> preSave b = true.
Proof.
  intros V. apply validators_sound in V as (_ & _ & H & L & _).
  unfold preSave. apply negb_true_iff, Qltb_ge. lra.
Qed.

(** X7.  The pre-save hook never rejects: a document that reaches it has
    passed the validators, which put the open between the low and the
    high. *)
Theorem presave_hook_never_rejects (doc : Bar) (coll : list Bar) :
  save doc coll <> inl HookError.
Proof.
  unfold save. destruct (validators (applySetters doc)) eqn:V;
    cbn [negb]; [|discriminate].
  rewrite (validators_order _ V). cbn [negb].
  destruct (clashes (applySetters doc) coll); discriminate.
Qed.

(** X8.  A document that was saved cannot be saved again: the second write is
    rejected with a duplicate-key error. *)
Theorem saving_twice_is_rejected (doc : Bar) (coll coll' : list Bar) :
  save doc coll = inr coll' -> save doc coll' = inl DuplicateKey.
Proof.
  unfold save. destruct (validators (applySetters doc)) eqn:V;
    cbn [negb]; [|discriminate].
  rewrite (validators_order _ V). cbn [negb].
  destruct (clashes (applySetters doc) coll); [discriminate|].
  intros [= <-]. rewrite clashes_app. cbn [clashes existsb].
  rewrite sameKey_refl, orb_true_r. reflexivity.
Qed.

Lemma saving_twice_is_rejected_witness :
  save newerBar [olderBar; newerBar] = inl DuplicateKey.
Proof.
  apply (saving_twice_is_rejected newerBar [olderBar] [olderBar; newerBar]).
  reflexivity.
Defined.

Lemma uniqueKeys_snoc (coll : list Bar) (b : Bar) :
  uniqueKeys coll -> clashes b coll = false -> uniqueKeys (coll ++ [b]).
Proof.
  intros U C. induction U as [|x coll Hx U IH]; cbn [app].
  - constructor; constructor.
  - cbn [clashes existsb] in C. apply orb_false_iff in C as [C1 C2].
    constructor; [|apply IH, C2].
    apply Forall_app. split; [exact Hx|].
    constructor; [rewrite sameKey_sym; exact C1 | constructor].
Qed.

Lemma consistent_snoc (coll : list Bar) (b : Bar) :
  consistent coll -> validators b = true -> clashes b coll = false ->
  consistent (coll ++ [b]).
Proof.
  intros [V U] Vb C. split.
  - apply Forall_app. split; [exact V | constructor; [exact Vb | constructor]].
  - apply uniqueKeys_snoc; assumption.
Qed.

Lemma insertMany_consistent (docs : list Bar) :
  forall coll, consistent coll -> consistent (snd (insertMany docs coll)).
Proof.
  induction docs as [|d docs IH]; intros coll C; [exact C|].
  cbn [insertMany].
  destruct (validators (applySetters d)) eqn:V; cbn [negb]; [|apply IH, C].
  destruct (clashes (applySetters d) coll) eqn:K; [cbn [snd]; apply IH, C|].
  apply IH, consistent_snoc; assumption.
Qed.

(** X9.  Writes keep the collection consistent: after [save] or [insertMany],
    every stored bar still passes the validators and no two stored bars
    share a symbol and timestamp. *)
Theorem writes_keep_collection_consistent
    (coll : list Bar) (doc : Bar) (docs : list Bar) :
  consistent coll ->
  (forall coll', save doc coll = inr coll' -> consistent coll')
  /\ consistent (snd (insertMany docs coll)).
Proof.
  intros C. split; [|apply insertMany_consistent, C].
  intros coll'. unfold save.
  destruct (validators (applySetters doc)) eqn:V; cbn [negb]; [|discriminate].
  destruct (preSave (applySetters doc)); cbn [negb]; [|discriminate].
  destruct (clashes (applySetters doc) coll) eqn:K; [discriminate|].
  intros [= <-]. apply consistent_snoc; assumption.
Qed.

Lemma writes_keep_collection_consistent_witness :
  (forall coll', save newerBar [olderBar] = inr coll' -> consistent coll')
  /\ consistent (snd (insertMany [newerBar; closedAboveHigh] [olderBar])).
Proof.
  apply (writes_keep_collection_consistent
           [olderBar] newerBar [newerBar; closedAboveHigh]).
  split; repeat constructor.
Defined.

(** X10.  The query keeps the most recent bars: a bar of the symbol that it
    leaves out is not more recent than any bar it returns. *)
Theorem latest_keeps_most_recent
    (sym : string) (limit : Z) (coll : list Bar) (kept other : Bar) :
  In kept (latest sym limit coll) ->
  In other (find sym coll) ->
  ~ In other (latest sym limit coll) ->
  timestamp other <= timestamp kept.
Proof.
  unfold latest. intros K O N.
  pose proof (sortDescending_sorted (find sym coll)) as S.
  rewrite <- (firstn_skipn (Z.to_nat limit) (sortDescending (find sym coll))) in S.
  apply (sorted_app_order newerFirst _ _ S kept other K).
  apply sortDescending_In in O.
  rewrite <- (firstn_skipn (Z.to_nat limit) (sortDescending (find sym coll))) in O.
  apply in_app_or in O as [O|O]; [contradiction | exact O].
Qed.

Lemma latest_keeps_most_recent_witness :
  timestamp olderBar <= timestamp newerBar.
Proof.
  apply (latest_keeps_most_recent "SPY" 1 [olderBar; newerBar]).
  - left. reflexivity.
  - left. reflexivity.
  - intros [H|[]]. discriminate H.
Defined.

End StoreExtras.

(** ** Symbols between the routes and the schema *)

Section SymbolExtras.

Import Symbol.

Lemma upperChar_facts (c : ascii) :
  schemaChar c = true -> requestChar c = true /\ upperChar c = c.
Proof.
  destruct c as [[] [] [] [] [] [] [] []]; vm_compute; intros H;
    try discriminate H; split; reflexivity.
Qed.

Lemma schema_chars_are_request_chars (s : string) :
  forallb schemaChar (chars s) = true -> forallb requestChar (chars s) = true.
Proof.
  induction s as [|c s IH]; [reflexivity|].
  cbn [chars list_ascii_of_string forallb]. rewrite !andb_true_iff.
  intros [Hc Hs]. split; [apply upperChar_facts, Hc | apply IH, Hs].
Qed.

Lemma toUpperCase_fixed (s : string) :
  forallb schemaChar (chars s) = true -> toUpperCase s = s.
Proof.
  induction s as [|c s IH]; [reflexivity|].
  cbn [chars list_ascii_of_string forallb toUpperCase]. rewrite andb_true_iff.
  intros [Hc Hs]. rewrite (proj2 (upperChar_facts c Hc)), (IH Hs). reflexivity.
Qed.

(** X11.  Every symbol the routes accept is one the schema accepts once its
    setters have run, and the stored form is stable: it has the same
    length, and running the setters on it again changes nothing. *)
Theorem accepted_symbols_fit_the_schema (s : string) :
  matchesRequestPattern s = true ->
  matchesSchemaPattern (normalize s) = true
  /\ String.length (normalize s) = String.length s
  /\ normalize (normalize s) = normalize s.
Proof.
  intros M. pose proof (normalize_matches s M) as N. split; [exact N|].
  unfold matchesRequestPattern in M. apply andb_true_iff in M as [_ C].
  unfold matchesSchemaPattern in N. apply andb_true_iff in N as [_ C'].
  assert (E : normalize s = toUpperCase s).
  { unfold normalize, trim. rewrite (trimStart_id s C), (trimEnd_id s C).
    reflexivity. }
  split; [rewrite E; apply toUpperCase_length|].
  rewrite E in C' |- *.
  pose proof (schema_chars_are_request_chars _ C') as R.
  unfold normalize, trim.
  rewrite (trimStart_id _ R), (trimEnd_id _ R). apply toUpperCase_fixed, C'.
Qed.

Lemma accepted_symbols_fit_the_schema_witness :
  matchesSchemaPattern (normalize "brk.b") = true
  /\ String.length (normalize "brk.b") = String.length "brk.b"
  /\ normalize (normalize "brk.b") = normalize "brk.b".
Proof.
  apply (accepted_symbols_fit_the_schema "brk.b"). reflexivity.
Defined.

End SymbolExtras.

(** ** What the reads return and what they leave alone *)

Section ReadExtras.

Import Market Service Scenario Scenario2.

Lemma acceptable_dec (sym : string) (n : Z) :
  {acceptable sym n} + {~ acceptable sym n}.
Proof.
  unfold acceptable.
  destruct (string_dec sym EmptyString) as [->|S]; [right; tauto|].
  destruct (Z_le_gt_dec 1 n); [|right; lia].
  destruct (Z_le_gt_dec n 1000); [left; tauto | right; lia].
Qed.

Lemma fallback_returns (sym : string) (n : Z) (w : World) (s : State) :
  acceptable sym n ->
  exists data,
    fst (generateSimulatedData sym n w s) = Ret data
    /\ length data = Z.to_nat n
    /\ bars (snd (generateSimulatedData sym n w s)) = bars s.
Proof.
  intros A. rewrite (generateSimulatedData_run sym n w s A).
  eexists. split; [reflexivity|]. split; [|reflexivity].
  apply backfill_facts.
Qed.

(** On acceptable arguments the read returns between one and [limit]
    bars, whatever the collection holds and whichever store operations
    fail. *)
Lemma getLatestMarketData_returns (sym : string) (limit : Z) (w : World) (s : State) :
  acceptable sym limit ->
  exists data,
    fst (getLatestMarketData sym limit w s) = Ret data
    /\ (1 <= length data <= Z.to_nat limit)%nat.
Proof.
  intros A. rewrite (getLatestMarketData_run sym limit w s A).
  assert (F : forall s', exists data,
             fst (generateSimulatedData sym limit w s') = Ret data
             /\ (1 <= length data <= Z.to_nat limit)%nat).
  { intros s'. destruct (fallback_returns sym limit w s' A) as (d & E & L & _).
    exists d. split; [exact E|]. destruct A as [_ A]. lia. }
  destruct (generateSampleData sym (Z.max limit 100) w s) as [[[]|] s1];
    [|apply F].
  cbv zeta. destruct (faulty w (issued s1)); [apply F|].
  destruct (Nat.eqb_spec (length (latest sym limit (bars s1))) 0) as [|N];
    [apply F|].
  eexists. split; [reflexivity|]. rewrite length_rev.
  destruct (latest_facts sym limit (bars s1)) as (L & _). lia.
Qed.





(** Once the collection holds a bar of the symbol, a read never writes. *)
Lemma read_keeps_store (sym : string) (limit : Z) (w : World) (s : State) :
  find sym (bars s) <> [] ->
  bars (snd (getLatestMarketData sym limit w s)) = bars s.
Proof.
  intros Present. destruct (acceptable_dec sym limit) as [A|A];
    [|rewrite (getLatestMarketData_rejects _ _ _ _ A); reflexivity].
  rewrite (getLatestMarketData_run sym limit w s A).
  rewrite (generateSampleData_run sym _ w s (acceptable_max _ _ A)).
  destruct (faulty w (issued s)).
  { rewrite (generateSimulatedData_run sym limit w _ A). reflexivity. }
  assert (E : (0 <? length (firstn 1 (find sym (bars s))))%nat = true).
  { apply Nat.ltb_lt. destruct (find sym (bars s)); [congruence | cbn; lia]. }
  rewrite E. cbv zeta. cbn [after bars issued].
  destruct (faulty w _);
    [rewrite (generateSimulatedData_run sym limit w _ A); reflexivity|].
  destruct (length (latest sym limit (bars s)) =? 0)%nat;
    [rewrite (generateSimulatedData_run sym limit w _ A)|]; reflexivity.
Qed.

(** What a successful read leaves in a collection that held no bar of an
    accepted symbol. *)
Lemma first_read_inserts (sym : string) (limit : Z) (w : World) (s : State) :
  plausible w -> Symbol.matchesRequestPattern sym = true ->
  1 <= limit <= 1000 -> (forall k, faulty w k = false) ->
  find sym (bars s) = [] ->
  bars (snd (getLatestMarketData sym limit w s))
  = bars s ++ map applySetters
                  (backfill w (sampleVolatility w) (drawn s) sym (Z.max limit 100)).
Proof.
  intros W M L NoFault Empty.
  assert (A : acceptable sym limit) by (split; [apply matches_nonempty, M | exact L]).
  rewrite (getLatestMarketData_run sym limit w s A).
  rewrite (generateSampleData_run sym _ w s (acceptable_max _ _ A)).
  rewrite !NoFault, Empty. cbn [firstn length Nat.ltb Nat.leb]. cbv zeta.
  destruct (sample_documents_fresh w (sampleVolatility w) (drawn s) sym
              (Z.max limit 100) (bars s) Empty) as [Fresh Apart].
  rewrite (insertMany_all _ (bars s)
             (sample_documents_valid w (drawn s) sym _ W M) Fresh Apart).
  cbn [snd after bars issued]. rewrite NoFault.
  destruct (length (latest sym limit _) =? 0)%nat;
    [rewrite (generateSimulatedData_run sym limit w _ A)|]; reflexivity.
Qed.

(** X14.  After one successful read of an accepted symbol, no later read of it
    changes the collection, whatever its limit and whichever store
    operations fail then. *)
Theorem later_reads_leave_collection_unchanged
    (sym : string) (limit limit' : Z) (w w' : World) (coll : list Bar) :
  plausible w -> Symbol.matchesRequestPattern sym = true ->
  1 <= limit <= 1000 -> (forall k, faulty w k = false) ->
  bars (snd (getLatestMarketData sym limit' w'
               (snd (getLatestMarketData sym limit w (initial coll)))))
  = bars (snd (getLatestMarketData sym limit w (initial coll))).
Proof.
  intros W M L NoFault. apply read_keeps_store.
  destruct (find sym coll) as [|b found] eqn:Found.
  - rewrite (first_read_inserts sym limit w (initial coll) W M L NoFault Found).
    unfold find. rewrite List.filter_app. intros E.
    apply app_eq_nil in E as [_ E].
    pose proof (backfill_facts w (sampleVolatility w) (drawn (initial coll)) sym
                  (Z.max limit 100)) as (Len & Sym & _).
    rewrite filter_all in E.
    + apply (f_equal (@length Bar)) in E. rewrite length_map, Len in E.
      cbn in E. lia.
    + apply Forall_map. eapply List.Forall_impl; [|exact Sym].
      intros d Ed. unfold ofSymbol. cbn [applySetters symbol].
      rewrite Ed. apply String.eqb_refl.
  - rewrite read_keeps_store by (cbn [initial bars]; rewrite Found; discriminate).
    cbn [initial bars]. rewrite Found. discriminate.
Qed.

Lemma later_reads_leave_collection_unchanged_witness :
  bars (snd (getLatestMarketData "spy" 500 brokenStoreWorld
               (snd (getLatestMarketData "spy" 5 calmWorld (initial [])))))
  = bars (snd (getLatestMarketData "spy" 5 calmWorld (initial []))).
Proof.
  apply (later_reads_leave_collection_unchanged "spy" 5 500 calmWorld
           brokenStoreWorld []).
  - exact calmWorld_plausible.
  - reflexivity.
  - lia.
  - reflexivity.
Defined.

End ReadExtras.

(** ** The refresh tick *)

Section TickExtras.

Import Market Service Invariant Tick Scenario Scenario2.

Lemma generateSimulatedData_bars (sym : string) (n : Z) (w : World) (s : State) :
  bars (snd (generateSimulatedData sym n w s)) = bars s.
Proof.
  destruct (acceptable_dec sym n) as [A|A];
    [rewrite (generateSimulatedData_run _ _ _ _ A)
    |rewrite (generateSimulatedData_rejects _ _ _ _ A)]; reflexivity.
Qed.

Lemma generateSimulatedData_never_throws (sym : string) (n : Z) (w : World) (s : State) :
  exists data, fst (generateSimulatedData sym n w s) = Ret data.
Proof.
  destruct (acceptable_dec sym n) as [A|A];
    [rewrite (generateSimulatedData_run _ _ _ _ A)
    |rewrite (generateSimulatedData_rejects _ _ _ _ A)]; eexists; reflexivity.
Qed.

(** The collection after [generateSampleData]: as before, or as
    [insertMany] of some documents left it. *)
Lemma generateSampleData_bars (sym : string) (n : Z) (w : World) (s : State) :
  bars (snd (generateSampleData sym n w s)) = bars s
  \/ exists docs,
       bars (snd (generateSampleData sym n w s)) = snd (insertMany docs (bars s)).
Proof.
  destruct (acceptable_dec sym n) as [A|A].
  - rewrite (generateSampleData_run sym n w s A).
    destruct (faulty w (issued s)); [left; reflexivity|].
    destruct (0 <? length (firstn 1 (find sym (bars s))))%nat; [left; reflexivity|].
    cbv zeta. destruct (faulty w (S (issued s))); [left; reflexivity|].
    right. eexists. reflexivity.
  - left. pose proof (rejected_checks sym n A) as E.
    unfold generateSampleData, tryCatch, throw.
    destruct (String.eqb sym EmptyString); [|rewrite E]; reflexivity.
Qed.

Lemma generateSampleData_consistent (sym : string) (n : Z) (w : World) (s : State) :
  consistent (bars s) -> consistent (bars (snd (generateSampleData sym n w s))).
Proof.
  intros C. destruct (generateSampleData_bars sym n w s) as [E|[docs E]];
    rewrite E; [exact C | apply insertMany_consistent, C].
Qed.

Lemma getLatestMarketData_consistent (sym : string) (limit : Z) (w : World) (s : State) :
  consistent (bars s) -> consistent (bars (snd (getLatestMarketData sym limit w s))).
Proof.
  intros C. destruct (acceptable_dec sym limit) as [A|A];
    [|rewrite (getLatestMarketData_rejects _ _ _ _ A); exact C].
  rewrite (getLatestMarketData_run sym limit w s A).
  pose proof (generateSampleData_consistent sym (Z.max limit 100) w s C) as C1.
  destruct (generateSampleData sym (Z.max limit 100) w s) as [[[]|] s1];
    cbn [snd] in C1; [|rewrite generateSimulatedData_bars; exact C1].
  cbv zeta. destruct (faulty w (issued s1));
    [rewrite generateSimulatedData_bars; exact C1|].
  destruct (length (latest sym limit (bars s1)) =? 0)%nat;
    [rewrite generateSimulatedData_bars|]; exact C1.
Qed.

Lemma getLatestMarketData_never_throws (sym : string) (limit : Z) (w : World) (s : State) :
  exists data, fst (getLatestMarketData sym limit w s) = Ret data.
Proof.
  destruct (acceptable_dec sym limit) as [A|A].
  - destruct (getLatestMarketData_returns sym limit w s A) as (d & E & _). eauto.
  - rewrite (getLatestMarketData_rejects _ _ _ _ A). eexists. reflexivity.
Qed.

(** How [fetchMarketData] goes on a non-empty symbol. *)
Lemma fetchMarketData_run (sym : string) (w : World) (s : State) :
  sym <> EmptyString ->
  fetchMarketData sym w s =
  let s1 := {| bars := bars s; drawn := drawn s;
               issued := S (issued s); log := log s |} in
  if faulty w (issued s) then generateSimulatedData sym 100 w s1
  else
    match findOneLatest sym (bars s) with
    | None =>
        match generateSampleData sym 100 w s1 with
        | (Ret _, s2) => getLatestMarketData sym 100 w s2
        | (Throws, s2) => generateSimulatedData sym 100 w s2
        end
    | Some previous =>
        let s2 := {| bars := bars s; drawn := (drawn s + 4)%nat;
                     issued := S (S (issued s)); log := log s |} in
        if now w <? timestamp previous
        then generateSimulatedData sym 100 w
               {| bars := bars s; drawn := (drawn s + 4)%nat;
                  issued := S (issued s); log := log s |}
        else if faulty w (S (issued s)) then generateSimulatedData sym 100 w s2
        else
          match save (incrementalBar w (drawn s) sym previous) (bars s) with
          | inr coll' =>
              getLatestMarketData sym 100 w
                {| bars := coll'; drawn := (drawn s + 4)%nat;
                   issued := S (S (issued s)); log := log s |}
          | inl _ => generateSimulatedData sym 100 w s2
          end
    end.
Proof.
  intros NonEmpty. unfold fetchMarketData.
  rewrite (proj2 (String.eqb_neq sym EmptyString) NonEmpty).
  unfold tryCatch at 1. unfold mbindM at 1. unfold storeCall at 1.
  cbv zeta. destruct (faulty w (issued s)); [reflexivity|].
  cbn [bars drawn issued log].
  destruct (findOneLatest sym (bars s)) as [previous|].
  - unfold mbindM at 1. unfold draw at 1. cbn [bars drawn issued log].
    destruct (now w <? timestamp previous); [reflexivity|].
    unfold mbindM at 1. unfold storeCall, saveDocument.
    cbn [bars drawn issued log].
    destruct (faulty w (S (issued s))); [reflexivity|].
    destruct (save _ (bars s)) as [err|coll']; [reflexivity|].
    cbn [bars drawn issued log].
    match goal with |- context [getLatestMarketData sym 100 w ?st] =>
      destruct (getLatestMarketData_never_throws sym 100 w st) as (d & E);
      destruct (getLatestMarketData sym 100 w st) as [[d'|] st'];
      [reflexivity | cbn in E; discriminate]
    end.
  - unfold mbindM at 1.
    destruct (generateSampleData sym 100 w _) as [[[]|] s2]; [|reflexivity].
    match goal with |- context [getLatestMarketData sym 100 w ?st] =>
      destruct (getLatestMarketData_never_throws sym 100 w st) as (d & E);
      destruct (getLatestMarketData sym 100 w st) as [[d'|] st'];
      [reflexivity | cbn in E; discriminate]
    end.
Qed.

Lemma fetchMarketData_returns (sym : string) (w : World) (s : State) :
  sym <> EmptyString ->
  exists data,
    fst (fetchMarketData sym w s) = Ret data
    /\ (1 <= length data <= 100)%nat.
Proof.
  intros NonEmpty.
  assert (A : acceptable sym 100) by (split; [exact NonEmpty | lia]).
  assert (F : forall s', exists data,
             fst (generateSimulatedData sym 100 w s') = Ret data
             /\ (1 <= length data <= 100)%nat).
  { intros s'. destruct (fallback_returns sym 100 w s' A) as (d & E & L & _).
    exists d. split; [exact E|]. rewrite L. cbn. lia. }
  pose proof (fun s' => getLatestMarketData_returns sym 100 w s' A) as G.
  rewrite (fetchMarketData_run sym w s NonEmpty). cbv zeta.
  destruct (faulty w (issued s)); [apply F|].
  destruct (findOneLatest sym (bars s)) as [previous|].
  - destruct (now w <? timestamp previous); [apply F|].
    destruct (faulty w (S (issued s))); [apply F|].
    destruct (save _ (bars s)); [apply F | apply G].
  - destruct (generateSampleData sym 100 w _) as [[[]|] s2]; [apply G | apply F].
Qed.

Lemma save_consistent (doc : Bar) (coll coll' : list Bar) :
  consistent coll -> save doc coll = inr coll' -> consistent coll'.
Proof.
  intros C. unfold save.
  destruct (validators (applySetters doc)) eqn:V; cbn [negb]; [|discriminate].
  destruct (preSave (applySetters doc)); cbn [negb]; [|discriminate].
  destruct (clashes (applySetters doc) coll) eqn:K; [discriminate|].
  intros [= <-]. apply consistent_snoc; assumption.
Qed.

Lemma fetchMarketData_consistent (sym : string) (w : World) (s : State) :
  consistent (bars s) -> consistent (bars (snd (fetchMarketData sym w s))).
Proof.
  intros C. destruct (string_dec sym EmptyString) as [->|NonEmpty].
  { unfold fetchMarketData, tryCatch, throw. cbn [String.eqb].
    rewrite generateSimulatedData_bars. exact C. }
  rewrite (fetchMarketData_run sym w s NonEmpty). cbv zeta.
  destruct (faulty w (issued s)); [rewrite generateSimulatedData_bars; exact C|].
  destruct (findOneLatest sym (bars s)) as [previous|].
  - destruct (now w <? timestamp previous);
      [rewrite generateSimulatedData_bars; exact C|].
    destruct (faulty w (S (issued s)));
      [rewrite generateSimulatedData_bars; exact C|].
    destruct (save _ (bars s)) as [err|coll'] eqn:E;
      [rewrite generateSimulatedData_bars; exact C|].
    apply getLatestMarketData_consistent. cbn [bars].
    apply (save_consistent _ _ _ C E).
  - match goal with |- context [generateSampleData sym 100 w ?st] =>
      pose proof (generateSampleData_consistent sym 100 w st C) as C1;
      destruct (generateSampleData sym 100 w st) as [[[]|] s2]
    end; cbn [snd] in C1.
    + apply getLatestMarketData_consistent, C1.
    + rewrite generateSimulatedData_bars. exact C1.
Qed.

(** X15.  Reads and ticks keep the collection consistent, whichever store
    operations fail: after [getLatestMarketData], [generateSampleData] or
    [fetchMarketData], every stored bar still passes the validators and no
    two stored bars share a symbol and timestamp. *)
Theorem reads_and_ticks_keep_collection_consistent
    (sym : string) (n : Z) (w : World) (s : State) :
  consistent (bars s) ->
  consistent (bars (snd (getLatestMarketData sym n w s)))
  /\ consistent (bars (snd (generateSampleData sym n w s)))
  /\ consistent (bars (snd (fetchMarketData sym w s))).
Proof.
  intros C. split; [apply getLatestMarketData_consistent, C|].
  split; [apply generateSampleData_consistent, C
         |apply fetchMarketData_consistent, C].
Qed.

Lemma reads_and_ticks_keep_collection_consistent_witness :
  consistent (bars (snd (getLatestMarketData "SPY" 2 calmWorld (initial threeBars))))
  /\ consistent (bars (snd (generateSampleData "SPY" 2 calmWorld (initial threeBars))))
  /\ consistent (bars (snd (fetchMarketData "SPY" calmWorld (initial threeBars)))).
Proof.
  apply (reads_and_ticks_keep_collection_consistent "SPY" 2 calmWorld
           (initial threeBars)).
  split; repeat constructor.
Defined.

Lemma refreshAll_emits (symbols : list string) (w : World) :
  Forall (fun sym => sym <> EmptyString) symbols ->
  forall s, exists out,
    fst (refreshAll symbols w s) = Ret out
    /\ map fst out = map (String.append "marketUpdate:") symbols
    /\ Forall (fun e => snd e <> []) out.
Proof.
  intros H. induction H as [|sym symbols Hsym H IH]; intros s.
  - exists []. repeat split. constructor.
  - cbn [refreshAll]. unfold mbindM at 1. unfold tryCatch at 1.
    destruct (fetchMarketData_returns sym w s Hsym) as (data & E & L).
    destruct (fetchMarketData sym w s) as [[d|] s1]; cbn [fst] in E;
      [|discriminate]. injection E as ->.
    unfold mbindM at 1. destruct (IH s1) as (out & E' & M & N).
    destruct (refreshAll symbols w s1) as [[o|] s2]; cbn [fst] in E';
      [|discriminate]. injection E' as ->.
    unfold ret. cbn [fst].
    destruct (Nat.ltb_spec 0 (length data)) as [_|Z]; [|lia].
    eexists. split; [reflexivity|]. cbn [map fst]. split; [f_equal; exact M|].
    constructor; [|exact N]. cbn [snd]. intros ->. cbn in L. lia.
Qed.

(** X16.  A run of the scheduled job emits exactly four updates, on
    [marketUpdate:SPY], [marketUpdate:AAPL], [marketUpdate:MSFT] and
    [marketUpdate:GOOGL] in this order, each with data, whatever the
    collection holds and whichever store operations fail. *)
Theorem scheduled_refresh_emits_for_every_symbol (w : World) (s : State) :
  exists out,
    fst (scheduledRefresh w s) = Ret out
    /\ map fst out = ["marketUpdate:SPY"; "marketUpdate:AAPL";
                      "marketUpdate:MSFT"; "marketUpdate:GOOGL"]%string
    /\ Forall (fun e => snd e <> []) out.
Proof.
  apply (refreshAll_emits trackedSymbols w).
  repeat constructor; discriminate.
Qed.

Lemma sortDescending_snoc_newest (l : list Bar) (b : Bar) :
  (forall x, In x l -> timestamp x < timestamp b) ->
  sortDescending (l ++ [b]) = b :: sortDescending l.
Proof.
  induction l as [|x l IH]; intros H; [reflexivity|].
  change (sortDescending ((x :: l) ++ [b]))
    with (insertDescending x (sortDescending (l ++ [b]))).
  rewrite IH by (intros y Hy; apply H; right; exact Hy).
  cbn [insertDescending].
  destruct (Z.ltb_spec (timestamp b) (timestamp x)) as [L|_];
    [pose proof (H x (or_introl eq_refl)); lia | reflexivity].
Qed.

Lemma findOneLatest_In (sym : string) (coll : list Bar) (previous : Bar) :
  findOneLatest sym coll = Some previous -> In previous (find sym coll).
Proof.
  unfold findOneLatest. intros E. apply sortDescending_In.
  destruct (sortDescending (find sym coll)); [discriminate|].
  injection E as ->. left. reflexivity.
Qed.

(** X17.  A tick on a store that answers appends one bar.  When the symbol has
    stored bars, all dated before now, the most recent of them has a
    positive close and the step volatility is at most 0.999, then
    [fetchMarketData] stores exactly one new bar, dated now, whose open is
    the close of the most recent stored bar, and returns the 99 most
    recent earlier bars followed by the new one. *)
Theorem tick_appends_one_bar
    (w : World) (sym : string) (coll : list Bar) (previous : Bar) :
  plausible w ->
  (forall k, faulty w k = false) ->
  Symbol.matchesRequestPattern sym = true ->
  findOneLatest sym coll = Some previous ->
  (forall b, In b (find sym coll) -> timestamp b < now w) ->
  (0 < close previous)%Q ->
  (stepVolatility w previous <= 0.999)%Q ->
  let added := applySetters (incrementalBar w 0 sym previous) in
  bars (snd (fetchMarketData sym w (initial coll))) = coll ++ [added]
  /\ open added = close previous
  /\ timestamp added = now w
  /\ fst (fetchMarketData sym w (initial coll))
     = Ret (rev (firstn 99 (sortDescending (find sym coll))) ++ [added]).
Proof.
  intros W NoFault M Latest Before C V added.
  pose proof (matches_nonempty sym M) as NonEmpty.
  assert (A : acceptable sym 100) by (split; [exact NonEmpty | lia]).
  pose proof (findOneLatest_In sym coll previous Latest) as InPrev.
  assert (T : timestamp previous <= now w) by (pose proof (Before _ InPrev); lia).
  destruct (incrementalBar_valid w W 0 sym previous C T)
    as (_ & O & _ & Vol & [H L] & P).
  destruct (P V) as [Cl _].
  assert (Valid : validators added = true).
  { unfold validators, added. cbn [applySetters symbol open high low close volume].
    change (symbol (incrementalBar w 0 sym previous)) with sym.
    rewrite (normalize_matches sym M).
    rewrite (proj2 (Qltb_lt _ _) O), (proj2 (Qltb_lt _ _) Cl).
    rewrite (proj2 (Qle_bool_iff _ _) H), (proj2 (Qle_bool_iff _ _) L).
    rewrite (proj2 (Z.leb_le _ _) Vol). reflexivity. }
  assert (Fresh : clashes added coll = false).
  { unfold clashes. apply not_true_iff_false. intros E.
    apply existsb_exists in E as (x & Hx & K). unfold sameKey in K.
    apply andb_true_iff in K as [K1 K2].
    apply String.eqb_eq in K1. apply Z.eqb_eq in K2.
    assert (Hf : In x (find sym coll)).
    { apply filter_In. split; [exact Hx|]. unfold ofSymbol.
      rewrite <- K1. apply String.eqb_refl. }
    pose proof (Before x Hf). cbn in K2. lia. }
  assert (Saved : save (incrementalBar w 0 sym previous) coll = inr (coll ++ [added])).
  { unfold save. fold added. rewrite Valid, (validators_order _ Valid), Fresh.
    reflexivity. }
  assert (Found : find sym (coll ++ [added]) = find sym coll ++ [added]).
  { unfold find. rewrite List.filter_app. cbn [List.filter].
    unfold ofSymbol at 2. unfold added at 1. cbn [applySetters symbol].
    change (symbol (incrementalBar w 0 sym previous)) with sym.
    rewrite String.eqb_refl. reflexivity. }
  assert (Sorted : latest sym 100 (coll ++ [added])
                   = added :: firstn 99 (sortDescending (find sym coll))).
  { unfold latest. rewrite Found, sortDescending_snoc_newest; [reflexivity|].
    intros x Hx. pose proof (Before x Hx). cbn. lia. }
  rewrite (fetchMarketData_run sym w _ NonEmpty). cbv zeta.
  cbn [initial bars drawn issued log].
  rewrite !NoFault, Latest, (proj2 (Z.ltb_ge _ _) T), Saved.
  rewrite (getLatestMarketData_run sym 100 w _ A).
  rewrite (generateSampleData_run sym _ w _ (acceptable_max _ _ A)).
  cbn [bars drawn issued log]. rewrite NoFault, Found.
  assert (E : (0 <? length (firstn 1 (find sym coll ++ [added])))%nat = true).
  { destruct (find sym coll); reflexivity. }
  rewrite E. cbv zeta. cbn [after bars drawn issued log].
  rewrite NoFault, Sorted. cbn [length Nat.eqb fst snd bars rev].
  repeat split; reflexivity.
Qed.

Lemma tick_appends_one_bar_witness :
  let added := applySetters (incrementalBar nextWorld 0 "SPY" newestOfThree) in
  bars (snd (fetchMarketData "SPY" nextWorld (initial threeBars)))
  = threeBars ++ [added]
  /\ open added = close newestOfThree
  /\ timestamp added = now nextWorld
  /\ fst (fetchMarketData "SPY" nextWorld (initial threeBars))
     = Ret (rev (firstn 99 (sortDescending (find "SPY" threeBars))) ++ [added]).
Proof.
  apply (tick_appends_one_bar nextWorld "SPY" threeBars newestOfThree).
  - exact calmWorld_plausible.
  - reflexivity.
  - reflexivity.
  - reflexivity.
  - intros b [<-|[<-|[<-|[]]]]; reflexivity.
  - reflexivity.
  - vm_compute. discriminate.
Defined.

End TickExtras.

(** ** Historical data *)

Section HistoricalExtras.

Import Market Service Invariant Tick Scenario Scenario2.

Lemma pointsOf_range (period : string) (n : Z) :
  pointsOf period = Some n -> 75 <= n <= 20000.
Proof.
  unfold pointsOf.
  repeat (destruct (String.eqb period _); [intros [= <-]; lia|]).
  discriminate.
Qed.

Lemma historicalLoop_length (w : World) (start : nat) (sym : string) (n : Z)
    (idx : list nat) :
  forall price, length (historicalLoop w start sym n price idx) = length idx.
Proof.
  induction idx as [|i idx IH]; intros price; [reflexivity|].
  cbn [historicalLoop length]. cbv zeta. cbn [length]. rewrite IH. reflexivity.
Qed.

Lemma generateHistoricalSimulation_length (w : World) (start : nat)
    (sym : string) (n : Z) :
  length (generateHistoricalSimulation w start sym n) = Z.to_nat n.
Proof.
  unfold generateHistoricalSimulation.
  rewrite historicalLoop_length, length_seq. reflexivity.
Qed.

(** X18.  A period that is not one of the six, or a store that fails on the
    first operation, is no error to the caller of [fetchHistoricalData]:
    the result is 200 simulated bars, whatever the period asked for, and
    the collection is left as it was. *)
Theorem historical_data_falls_back_to_200_bars
    (sym period : string) (w : World) (s : State) :
  sym <> EmptyString ->
  pointsOf period = None \/ faulty w (issued s) = true ->
  exists data,
    fst (fetchHistoricalData sym period w s) = Ret data
    /\ length data = 200%nat
    /\ bars (snd (fetchHistoricalData sym period w s)) = bars s.
Proof.
  intros NonEmpty H.
  assert (A : acceptable sym 200) by (split; [exact NonEmpty | lia]).
  assert (Run : exists s', bars s' = bars s
                  /\ fetchHistoricalData sym period w s
                     = generateSimulatedData sym 200 w s').
  { unfold fetchHistoricalData, tryCatch.
    rewrite (proj2 (String.eqb_neq sym EmptyString) NonEmpty).
    destruct (pointsOf period) as [n|] eqn:P.
    - destruct H as [H|F]; [discriminate|].
      pose proof (pointsOf_range period n P) as R.
      assert (A' : acceptable sym (Z.min n 1000))
        by (split; [exact NonEmpty | lia]).
      unfold mbindM at 1. rewrite (generateSampleData_run sym _ w s A'), F.
      eexists. split; [|reflexivity]. reflexivity.
    - exists s. split; reflexivity. }
  destruct Run as (s' & Same & ->).
  destruct (fallback_returns sym 200 w s' A) as (d & E & L & B).
  exists d. split; [exact E|]. split; [exact L | congruence].
Qed.

Lemma historical_data_falls_back_to_200_bars_witness :
  exists data,
    fst (fetchHistoricalData "SPY" "2y" calmWorld (initial threeBars)) = Ret data
    /\ length data = 200%nat
    /\ bars (snd (fetchHistoricalData "SPY" "2y" calmWorld (initial threeBars)))
       = bars (initial threeBars).
Proof.
  apply (historical_data_falls_back_to_200_bars "SPY" "2y" calmWorld
           (initial threeBars)).
  - discriminate.
  - left. reflexivity.
Defined.

(** X19.  For the periods of more than 1000 points (1m, 3m, 6m, 1y) and a store
    that answers, [fetchHistoricalData] returns a series simulated on the
    spot, as many bars as the period has points, and the stored bars are
    not queried. *)
Theorem long_periods_are_simulated
    (sym period : string) (n : Z) (w : World) (s : State) :
  sym <> EmptyString ->
  pointsOf period = Some n ->
  1000 < n ->
  faulty w (issued s) = false ->
  faulty w (S (issued s)) = false ->
  exists start,
    fst (fetchHistoricalData sym period w s)
    = Ret (generateHistoricalSimulation w start sym n)
    /\ length (generateHistoricalSimulation w start sym n) = Z.to_nat n
    /\ count StoreQuery (log (snd (fetchHistoricalData sym period w s)))
       = count StoreQuery (log s).
Proof.
  intros NonEmpty P Long F0 F1.
  pose proof (pointsOf_range period n P) as R.
  assert (A : acceptable sym (Z.min n 1000)) by (split; [exact NonEmpty | lia]).
  assert (Run : exists start s',
             count StoreQuery (log s') = count StoreQuery (log s)
             /\ fetchHistoricalData sym period w s
                = (Ret (generateHistoricalSimulation w start sym n), s')).
  { unfold fetchHistoricalData, tryCatch.
    rewrite (proj2 (String.eqb_neq sym EmptyString) NonEmpty), P.
    unfold mbindM at 1. rewrite (generateSampleData_run sym _ w s A), F0.
    rewrite (proj2 (Z.ltb_lt 1000 n) Long).
    destruct (0 <? length (firstn 1 (find sym (bars s))))%nat.
    - unfold mbindM, draw, ret. eexists _, _. split; [|reflexivity]. reflexivity.
    - cbv zeta. rewrite F1.
      unfold mbindM, draw, ret. eexists _, _. split; [|reflexivity]. reflexivity. }
  destruct Run as (start & s' & Same & ->).
  exists start. split; [reflexivity|].
  split; [apply generateHistoricalSimulation_length | exact Same].
Qed.

Lemma long_periods_are_simulated_witness :
  exists start,
    fst (fetchHistoricalData "SPY" "1m" calmWorld (initial threeBars))
    = Ret (generateHistoricalSimulation calmWorld start "SPY" 1680)
    /\ length (generateHistoricalSimulation calmWorld start "SPY" 1680)
       = Z.to_nat 1680
    /\ count StoreQuery
         (log (snd (fetchHistoricalData "SPY" "1m" calmWorld (initial threeBars))))
       = count StoreQuery (log (initial threeBars)).
Proof.
  apply (long_periods_are_simulated "SPY" "1m" 1680 calmWorld (initial threeBars)).
  - discriminate.
  - reflexivity.
  - reflexivity.
  - reflexivity.
  - reflexivity.
Defined.

End HistoricalExtras.

(** ** When the sentiment analysis fails *)

Section AnalysisExtras.

Import Indicators Market Service Sentiment Routes Scenario Scenario2.

Lemma barAt_last (marketData : list Bar) :
  marketData <> [] ->
  exists b, barAt marketData (Z.of_nat (length marketData) - 1) = Some b.
Proof.
  intros N. unfold barAt.
  assert (L : (0 < length marketData)%nat)
    by (destruct marketData; [congruence | cbn; lia]).
  destruct (Z.ltb_spec (Z.of_nat (length marketData) - 1) 0) as [H|_]; [lia|].
  destruct (nth_error marketData (Z.to_nat (Z.of_nat (length marketData) - 1)))
    as [b|] eqn:E; [exists b; reflexivity|].
  apply nth_error_None in E. lia.
Qed.

Lemma rsi_latest_cases (closes : list num) :
  ((length closes <= 14)%nat -> getLatestValue (calculateRSI closes 14) = VNull)
  /\ (length closes = 15%nat -> getLatestValue (calculateRSI closes 14) = VUndef)
  /\ ((16 <= length closes)%nat ->
      exists r, getLatestValue (calculateRSI closes 14) = VNum r).
Proof.
  split; [|split].
  - intros L. unfold calculateRSI.
    rewrite (proj2 (Nat.leb_le _ _) L). reflexivity.
  - intros L. unfold calculateRSI. rewrite changes_length, L. reflexivity.
  - intros L. rewrite calculateRSI_latest by lia. eexists. reflexivity.
Qed.

Lemma rsiBlock_throws (ind : Snapshot) (score : Q) :
  rsiBlock ind score = Throws <-> rsi ind = VUndef.
Proof.
  unfold rsiBlock. destruct (rsi ind) as [r| |]; cbn [not_null toFixed].
  - cbn [mbind outcome_bind JS.bind]. split; discriminate.
  - cbn [mbind outcome_bind JS.bind]. split; reflexivity.
  - split; discriminate.
Qed.

Lemma macdBlock_returns (ind : Snapshot) (marketData : list Bar) (score : Q) :
  hist (macd ind) = VNull \/ hist (macd ind) = VNum NaN ->
  exists score', macdBlock ind marketData score = Ret score'.
Proof.
  intros H. unfold macdBlock.
  destruct (not_null (line (macd ind)) && not_null (signal (macd ind)));
    [|eexists; reflexivity].
  unfold histogramBlock. destruct H as [-> | ->]; cbn [not_null];
    [eexists; reflexivity|].
  unfold vgt, vlt, ngt. cbn [toNumber lit nlt andAlso JS.bind].
  eexists; reflexivity.
Qed.

Lemma macd_latest_cases (closes : list num) :
  closes <> [] ->
  exists m,
    calculateMACD closes 12 26 9 = Ret m
    /\ (getLatestValue (option_map histogram m) = VNull
        \/ getLatestValue (option_map histogram m) = VNum NaN).
Proof.
  intros N. destruct (Nat.ltb_spec (length closes) 35) as [L|L].
  - exists None. split; [|left; reflexivity].
    unfold calculateMACD. change (Nat.max 12 26 + 9)%nat with 35%nat.
    rewrite (proj2 (Nat.ltb_lt _ _) L). reflexivity.
  - destruct (calculateMACD_ends_NaN closes 12 26 9) as (m & E & _ & _ & H);
      [lia | exact L |].
    exists (Some m). split; [exact E|]. right.
    apply ends_NaN_latest, H.
Qed.

(** X20.  The analysis behind [/sentiment] fails on series of exactly 15 bars
    and on no other non-empty series: with 15 closes the RSI series is
    empty, its latest value is [undefined], and [toFixed] throws. *)
Theorem analysis_fails_exactly_on_15_bars (marketData : list Bar) :
  marketData <> [] ->
  analyse marketData = Throws <-> length marketData = 15%nat.
Proof.
  intros N. unfold analyse.
  set (closes := map (fun d => Fin (close d)) marketData).
  assert (Len : length closes = length marketData) by apply length_map.
  assert (NC : closes <> []).
  { intros E. apply N. destruct marketData; [reflexivity | discriminate]. }
  destruct (macd_latest_cases closes NC) as (m & EM & HM).
  assert (CI : calculateIndicators closes
               = Ret (Some {|
                   sma20 := getLatestValue (calculateSMA closes 20);
                   sma50 := getLatestValue (calculateSMA closes 50);
                   ema12 := getLatestValue (calculateEMA closes 12);
                   ema26 := getLatestValue (calculateEMA closes 26);
                   rsi := getLatestValue (calculateRSI closes 14);
                   macd := {| line := getLatestValue (option_map macdLine m);
                              signal := getLatestValue (option_map signalLine m);
                              hist := getLatestValue (option_map histogram m) |}
                 |})).
  { unfold calculateIndicators. destruct closes; [congruence|].
    rewrite EM. reflexivity. }
  rewrite CI. cbn [mbind outcome_bind JS.bind].
  set (ind := Build_Snapshot _ _ _ _ _ _).
  unfold sentimentScore.
  destruct (barAt_last marketData N) as (b & EB).
  assert (PC : exists c, priceChange marketData = Ret c)
    by (unfold priceChange; rewrite EB; eexists; reflexivity).
  assert (VR : exists r, volumeRatio marketData = Ret r)
    by (unfold volumeRatio; rewrite EB; eexists; reflexivity).
  destruct PC as (c & ->). destruct VR as (r & ->).
  destruct (rsi_latest_cases closes) as (R1 & R2 & R3). rewrite Len in R1, R2, R3.
  pose proof (rsiBlock_throws ind 0) as RT.
  destruct (rsiBlock ind 0) as [s1|] eqn:ER.
  - cbn [mbind outcome_bind JS.bind].
    destruct (macdBlock_returns ind marketData s1 HM) as (s2 & ->).
    cbn [mbind outcome_bind JS.bind]. split; [discriminate|].
    intros L. assert (U : rsi ind = VUndef) by (apply R2, L).
    apply RT in U. discriminate.
  - cbn [mbind outcome_bind JS.bind]. split; [|reflexivity]. intros _.
    assert (U : rsi ind = VUndef) by (apply RT; reflexivity).
    change (rsi ind) with (getLatestValue (calculateRSI closes 14)) in U.
    destruct (Nat.le_gt_cases (length marketData) 14) as [L|L];
      [rewrite (R1 L) in U; discriminate|].
    destruct (Nat.le_gt_cases 16 (length marketData)) as [G|G];
      [destruct (R3 G) as (x & Ex); rewrite Ex in U; discriminate | lia].
Qed.

Lemma analysis_fails_exactly_on_15_bars_witness :
  analyse [olderBar; newerBar] = Throws
  <-> length [olderBar; newerBar] = 15%nat.
Proof.
  apply (analysis_fails_exactly_on_15_bars [olderBar; newerBar]).
  discriminate.
Defined.

(** X21.  The sentiment route answers 404 for the empty symbol only: a request
    without a symbol, or with any other symbol, is answered 400, 200 or
    500, never 404, whatever the collection holds and whichever store
    operations fail. *)
Theorem sentiment_route_404_only_for_empty_symbol
    (req : Request) (w : World) (s : State) :
  symbolParam req <> Some EmptyString ->
  fst (sentimentRoute req w s) <> Ret NotFound.
Proof.
  intros NE. unfold sentimentRoute.
  destruct (validateRequest req); cbn [negb]; [|discriminate].
  assert (A : acceptable (symbolOrDefault req) 50).
  { split; [|lia]. unfold symbolOrDefault.
    destruct (symbolParam req) as [sym|]; [congruence | discriminate]. }
  destruct (getLatestMarketData_returns _ 50 w s A) as (data & E & L).
  unfold tryCatch, mbindM.
  destruct (getLatestMarketData (symbolOrDefault req) 50 w s) as [[d|] s1];
    cbn [fst] in E; [|discriminate]. injection E as ->.
  destruct (Nat.eqb_spec (length data) 0) as [Z|_]; [lia|].
  destruct (analyse data); cbn; discriminate.
Qed.

Lemma sentiment_route_404_only_for_empty_symbol_witness :
  fst (sentimentRoute {| originalUrl := "/api/analysis/sentiment";
                         symbolParam := None; limitParam := None |}
                      calmWorld (initial threeBars))
  <> Ret NotFound.
Proof.
  apply (sentiment_route_404_only_for_empty_symbol
           {| originalUrl := "/api/analysis/sentiment";
              symbolParam := None; limitParam := None |}
           calmWorld (initial threeBars)).
  discriminate.
Defined.

End AnalysisExtras.

(** ** Replies of the market routes and the life of a cached reply *)

Section RouteExtras.

Import Market Service Routes Tick MarketRoutes Cache Scenario Scenario2.

Lemma symbolValidation_nonempty (req : Request) :
  symbolValidation req = true -> symbolOrDefault req <> EmptyString.
Proof.
  unfold symbolValidation, symbolOrDefault.
  destruct (symbolParam req) as [sym|]; [|discriminate].
  destruct sym; [discriminate | intros _; discriminate].
Qed.

Lemma limitValidation_range (req : Request) :
  limitValidation req = true -> 1 <= limitOrDefault req <= 500.
Proof.
  unfold limitValidation, limitOrDefault.
  destruct (limitParam req) as [n|]; [|lia].
  intros H. apply andb_true_iff in H as [H1 H2].
  apply Z.leb_le in H1, H2. lia.
Qed.

Lemma marketRoute_miss (req : Request) (w : World) (srv : Server) :
  symbolValidation req && limitValidation req = true ->
  Cache.get (now w) (originalUrl req) (cache srv) = None ->
  exists data st,
    (1 <= length data <= Z.to_nat (limitOrDefault req))%nat
    /\ marketRoute req w srv
       = (Ok data, {| service := st;
                      cache := Cache.set (now w) (originalUrl req) data 30
                                         (cache srv) |}).
Proof.
  intros V Miss. unfold marketRoute. rewrite V, Miss. cbn [negb].
  apply andb_true_iff in V as [VS VL].
  pose proof (symbolValidation_nonempty req VS) as NE.
  pose proof (limitValidation_range req VL) as R.
  assert (A : acceptable (symbolOrDefault req) (limitOrDefault req))
    by (split; [exact NE | lia]).
  destruct (getLatestMarketData_returns _ _ w (service srv) A) as (data & E & L).
  destruct (getLatestMarketData _ _ w (service srv)) as [[d|] st];
    cbn [fst] in E; [|discriminate]. injection E as ->.
  destruct (Nat.eqb_spec (length data) 0) as [Z|_]; [lia|].
  exists data, st. split; [exact L | reflexivity].
Qed.

Lemma fetchHistoricalData_returns (sym period : string) (w : World) (s : State) :
  sym <> EmptyString ->
  exists data,
    fst (fetchHistoricalData sym period w s) = Ret data
    /\ (1 <= length data)%nat.
Proof.
  intros NonEmpty.
  assert (F : forall s', exists data,
             fst (generateSimulatedData sym 200 w s') = Ret data
             /\ (1 <= length data)%nat).
  { intros s'.
    assert (A : acceptable sym 200) by (split; [exact NonEmpty | lia]).
    destruct (fallback_returns sym 200 w s' A) as (d & E & L & _).
    exists d. split; [exact E|]. rewrite L. cbn. lia. }
  unfold fetchHistoricalData, tryCatch.
  rewrite (proj2 (String.eqb_neq sym EmptyString) NonEmpty).
  destruct (pointsOf period) as [n|] eqn:P; [|apply F].
  pose proof (pointsOf_range period n P) as R.
  unfold mbindM at 1.
  destruct (generateSampleData sym (Z.min n 1000) w s) as [[[]|] s1]; [|apply F].
  destruct (Z.ltb_spec 1000 n) as [Long|Short].
  - unfold mbindM, draw, ret. cbn [fst]. eexists. split; [reflexivity|].
    rewrite generateHistoricalSimulation_length. lia.
  - assert (A : acceptable sym n) by (split; [exact NonEmpty | lia]).
    destruct (getLatestMarketData_returns sym n w s1 A) as (data & E & L).
    destruct (getLatestMarketData sym n w s1) as [[d|] s2];
      cbn [fst] in E; [|discriminate]. injection E as ->.
    exists data. split; [reflexivity | lia].
Qed.

(** X22.  [GET /] and [GET /historical] never answer 404 or 500: a request
    that fails validation is answered 400 and every other request 200
    with data, whatever the collection holds and whichever store
    operations fail. *)
Theorem market_routes_never_reply_404_or_500
    (req : Request) (periodParam : option string) (w : World) (srv : Server) :
  (if symbolValidation req && limitValidation req
   then exists data, fst (marketRoute req w srv) = Ok data
   else fst (marketRoute req w srv) = BadRequest)
  /\ (if symbolValidation req && periodValidation periodParam
      then exists data, fst (historicalRoute req periodParam w srv) = Ok data
      else fst (historicalRoute req periodParam w srv) = BadRequest).
Proof.
  split.
  - destruct (symbolValidation req && limitValidation req) eqn:V;
      [|unfold marketRoute; rewrite V; reflexivity].
    destruct (Cache.get (now w) (originalUrl req) (cache srv)) as [c|] eqn:G.
    + unfold marketRoute. rewrite V, G. exists c. reflexivity.
    + destruct (marketRoute_miss req w srv V G) as (data & st & _ & ->).
      exists data. reflexivity.
  - unfold historicalRoute.
    destruct (symbolValidation req && periodValidation periodParam) eqn:V;
      cbn [negb]; [|reflexivity].
    destruct (Cache.get (now w) (originalUrl req) (cache srv)) as [c|];
      [exists c; reflexivity|].
    apply andb_true_iff in V as [VS _].
    pose proof (symbolValidation_nonempty req VS) as NE.
    destruct (fetchHistoricalData_returns _ (periodOrDefault periodParam)
                w (service srv) NE) as (data & E & L).
    destruct (fetchHistoricalData _ _ w (service srv)) as [[d|] st];
      cbn [fst] in E; [|discriminate]. injection E as ->.
    destruct (Nat.eqb_spec (length data) 0) as [Z|_]; [lia|].
    exists data. reflexivity.
Qed.




End RouteExtras.

(** ** Alerts *)

Section AlertExtras.

Import Market Service Sentiment Alerts Scenario Scenario2.

Local Open Scope Q_scope.


Lemma Forall_skipn_keep {A : Type} (P : A -> Prop) (l : list A) :
  Forall P l -> forall n, Forall P (skipn n l).
Proof.
  intros H. induction H as [|x l Hx H IH]; intros [|n]; cbn [skipn];
    try constructor; auto.
Qed.






Lemma fold_nmax_Fin (l : list Q) :
  forall a, exists m,
    fold_left nmax (map Fin l) (Fin a) = Fin m
    /\ a <= m /\ Forall (fun x => x <= m) l.
Proof.
  induction l as [|x l IH]; intros a.
  - exists a. split; [reflexivity|]. split; [lra | constructor].
  - cbn [map fold_left nmax nlt].
    destruct (Qltb a x) eqn:C.
    + apply Qltb_lt in C. destruct (IH x) as (m & E & B & F).
      exists m. split; [exact E|]. split; [lra|]. constructor; [lra | exact F].
    + apply not_true_iff_false in C. rewrite Qltb_lt in C.
      destruct (IH a) as (m & E & B & F).
      exists m. split; [exact E|]. split; [lra|]. constructor; [lra | exact F].
Qed.

Lemma fold_nmin_Fin (l : list Q) :
  forall a, exists m,
    fold_left nmin (map Fin l) (Fin a) = Fin m
    /\ m <= a /\ Forall (fun x => m <= x) l
    /\ (forall lb, lb < a -> Forall (fun x => lb < x) l -> lb < m).
Proof.
  induction l as [|x l IH]; intros a.
  - exists a. split; [reflexivity|]. split; [lra|]. split; [constructor | auto].
  - cbn [map fold_left nmin nlt].
    destruct (Qltb x a) eqn:C.
    + apply Qltb_lt in C. destruct (IH x) as (m & E & B & F & G).
      exists m. split; [exact E|]. split; [lra|].
      split; [constructor; [lra | exact F]|].
      intros lb _ H. inversion H; subst. apply G; assumption.
    + apply not_true_iff_false in C. rewrite Qltb_lt in C.
      destruct (IH a) as (m & E & B & F & G).
      exists m. split; [exact E|]. split; [lra|].
      split; [constructor; [lra | exact F]|].
      intros lb La H. inversion H; subst. apply G; assumption.
Qed.

Lemma maxOf_Fin (l : list Q) :
  l <> [] ->
  exists m, maxOf (map Fin l) = Fin m /\ Forall (fun x => x <= m) l.
Proof.
  destruct l as [|x l]; [congruence|]. intros _.
  unfold maxOf. cbn [map fold_left nmax nlt].
  destruct (fold_nmax_Fin l x) as (m & E & B & F).
  exists m. split; [exact E|]. constructor; assumption.
Qed.

Lemma minOf_Fin (l : list Q) :
  l <> [] ->
  exists m, minOf (map Fin l) = Fin m /\ Forall (fun x => m <= x) l
            /\ (Forall (fun x => 0 < x) l -> 0 < m).
Proof.
  destruct l as [|x l]; [congruence|]. intros _.
  unfold minOf. cbn [map fold_left nmin nlt].
  destruct (fold_nmin_Fin l x) as (m & E & B & F & G).
  exists m. split; [exact E|]. split; [constructor; assumption|].
  intros H. inversion H; subst. apply G; assumption.
Qed.

Lemma barAt_in_lastN (marketData : list Bar) (k : Z) (b : Bar) :
  (1 <= k <= 10)%Z ->
  barAt marketData (Z.of_nat (length marketData) - k) = Some b ->
  In b (lastN 10 marketData).
Proof.
  intros K. unfold barAt, lastN.
  destruct (Z.ltb_spec (Z.of_nat (length marketData) - k) 0) as [|J];
    [discriminate|].
  intros E. apply nth_error_In with
    (n := (Z.to_nat (Z.of_nat (length marketData) - k)
           - (length marketData - 10))%nat).
  rewrite nth_error_skipn. rewrite <- E. f_equal. lia.
Qed.

Lemma crossover_kinds (marketData : list Bar) (a : Alert) :
  In a (crossover marketData) -> a = BullishCross \/ a = BearishCross.
Proof.
  unfold crossover. cbv zeta.
  repeat match goal with
         | |- context [if ?c then _ else _] => destruct c
         end; cbn [In]; intuition congruence.
Qed.

(** X25.  On generated bars (high at or above, low at or below both open and
    close, all prices positive) the price-movement alert and the
    consolidation alert are never raised together: a last-ten range
    under 0.5 percent leaves no room for a move of more than 1 percent
    between the last two closes. *)
Theorem movement_and_consolidation_exclude_each_other (marketData : list Bar) :
  marketData <> [] ->
  Forall (fun b => wellShaped b /\ positive b) marketData ->
  exists alerts,
    alertsOf marketData = Ret alerts
    /\ ~ (In PriceMovement alerts /\ In Consolidation alerts).
Proof.
  intros N H.
  destruct (barAt_last marketData N) as (b1 & E1).
  pose proof (barAt_in_lastN marketData 1 b1 ltac:(lia) E1) as In1.
  set (recent := lastN 10 marketData) in *.
  assert (HR : Forall (fun b => wellShaped b /\ positive b) recent)
    by (apply Forall_skipn_keep, H).
  assert (NR : recent <> []) by (intros E; rewrite E in In1; destruct In1).
  destruct (maxOf_Fin (map high recent)) as (hi & EH & FH).
  { intros E. apply NR. destruct recent; [reflexivity | discriminate]. }
  destruct (minOf_Fin (map low recent)) as (lo & EL & FL & PL).
  { intros E. apply NR. destruct recent; [reflexivity | discriminate]. }
  assert (Pos : 0 < lo).
  { apply PL. apply List.Forall_forall. intros x Hx.
    apply in_map_iff in Hx as (b & <- & Hb).
    apply (proj1 (List.Forall_forall _ _) HR b Hb). }
  assert (Within : forall b, In b recent ->
            lo <= close b <= hi /\ 0 < close b).
  { intros b Hb.
    destruct (proj1 (List.Forall_forall _ _) HR b Hb) as [[W1 W2] P].
    pose proof (proj1 (List.Forall_forall _ _) FH (high b)
                  (in_map high _ _ Hb)) as Hh.
    pose proof (proj1 (List.Forall_forall _ _) FL (low b)
                  (in_map low _ _ Hb)) as Hl.
    cbv beta in Hh, Hl.
    pose proof (qmax_spec (open b) (close b)) as M1.
    pose proof (qmin_spec (open b) (close b)) as M2.
    unfold positive in P. lra. }
  assert (Prev : exists p,
            match barAt marketData (Z.of_nat (length marketData) - 2) with
            | Some b => if nfalsy (Fin (close b)) then Fin (close b1)
                        else Fin (close b)
            | None => Fin (close b1)
            end = Fin p /\ lo <= p <= hi /\ 0 < p).
  { destruct (barAt marketData (Z.of_nat (length marketData) - 2))
      as [b0|] eqn:E0.
    - pose proof (barAt_in_lastN marketData 2 b0 ltac:(lia) E0) as In0.
      destruct (nfalsy (Fin (close b0)));
        eexists; (split; [reflexivity|]); apply Within; assumption.
    - eexists. split; [reflexivity|]. apply Within; assumption. }
  destruct Prev as (p & EP & Bp & Pp).
  destruct (Within b1 In1) as [B1 P1].
  unfold alertsOf, priceChange. rewrite E1.
  cbn [mbind outcome_bind JS.bind]. rewrite EP.
  eexists. split; [reflexivity|].
  intros [Move Cons].
  assert (M : ngt (nabs (ndiv (nsub (Fin (close b1)) (Fin p)) (Fin p)))
                  (Fin 0.01) = true).
  { apply in_app_or in Move as [Move|Move];
      [destruct (ngt (nabs _) (Fin 0.01)); [reflexivity | destruct Move]|].
    exfalso. apply in_app_or in Move as [Move|Move].
    - destruct (ngt (ofZ _) _); cbn [In] in Move;
        [destruct Move as [?|[]]; discriminate | destruct Move].
    - apply in_app_or in Move as [Move|Move].
      + destruct (nlt (recentRange marketData) _); cbn [In] in Move;
          [destruct Move as [?|[]]; discriminate | destruct Move].
      + apply crossover_kinds in Move as [?|?]; discriminate. }
  assert (C : nlt (recentRange marketData) (Fin 0.005) = true).
  { apply in_app_or in Cons as [Cons|Cons].
    - exfalso. destruct (ngt (nabs _) (Fin 0.01)); cbn [In] in Cons;
        [destruct Cons as [?|[]]; discriminate | destruct Cons].
    - apply in_app_or in Cons as [Cons|Cons].
      + exfalso. destruct (ngt (ofZ _) _); cbn [In] in Cons;
          [destruct Cons as [?|[]]; discriminate | destruct Cons].
      + apply in_app_or in Cons as [Cons|Cons];
          [destruct (nlt (recentRange marketData) _);
             [reflexivity | destruct Cons]|].
        exfalso. apply crossover_kinds in Cons as [?|?]; discriminate. }
  unfold recentRange in C. cbv zeta in C. fold recent in C.
  rewrite <- (map_map high Fin), <- (map_map low Fin), EH, EL in C.
  cbn [nsub nneg nadd] in C. rewrite ndiv_Fin in C by lra.
  cbn [nlt] in C. apply Qltb_lt in C.
  cbn [nsub nneg nadd] in M. rewrite ndiv_Fin in M by lra.
  unfold ngt in M. cbn [nabs nlt] in M. apply Qltb_lt in M.
  assert (Range : hi + - lo < 0.005 * lo).
  { destruct (Qlt_le_dec (hi + - lo) (0.005 * lo)) as [|G]; [assumption|].
    exfalso. assert (0.005 <= (hi + - lo) / lo)
      by (apply Qle_shift_div_l; lra). lra. }
  assert (A : Qabs ((close b1 + - p) / p) <= 0.01).
  { apply Qabs_Qle_condition. split.
    - apply Qle_shift_div_l; lra.
    - apply Qle_shift_div_r; lra. }
  lra.
Qed.

Lemma movement_and_consolidation_exclude_each_other_witness :
  exists alerts,
    alertsOf [olderBar; newerBar] = Ret alerts
    /\ ~ (In PriceMovement alerts /\ In Consolidation alerts).
Proof.
  apply (movement_and_consolidation_exclude_each_other [olderBar; newerBar]).
  - discriminate.
  - repeat constructor; try reflexivity; vm_compute; discriminate.
Defined.

End AlertExtras.

(** ** Dates of the generated series *)

Section CadenceExtras.

Import Market Service.

Lemma historicalLoop_dates (w : World) (start : nat) (sym : string) (n : Z)
    (idx : list nat) :
  forall price,
    map timestamp (historicalLoop w start sym n price idx)
    = map (fun i => now w - (n - Z.of_nat i) * 5 * 60000) idx.
Proof.
  induction idx as [|i idx IH]; intros price; [reflexivity|].
  cbn [historicalLoop]. cbv zeta. cbn [map timestamp]. rewrite IH. reflexivity.
Qed.

(** X26.  The generated series are dated on a five-minute grid that ends five
    minutes ago: bar [i] of [numPoints], in the backfill loops as in
    [generateHistoricalSimulation], is dated
    [now - (numPoints - i) * 5 * 60000], so no generated bar is dated now
    or later. *)
Theorem generated_series_end_five_minutes_ago
    (w : World) (volatilityFactor : Q) (start : nat) (sym : string)
    (numPoints : Z) :
  let dates := map (fun i => now w - (numPoints - Z.of_nat i) * 5 * 60000)
                   (seq 0 (Z.to_nat numPoints)) in
  map timestamp (backfill w volatilityFactor start sym numPoints) = dates
  /\ map timestamp (generateHistoricalSimulation w start sym numPoints) = dates
  /\ Forall (fun t => t <= now w - 300000) dates.
Proof.
  cbv zeta. split; [|split].
  - unfold backfill. rewrite map_map. reflexivity.
  - apply historicalLoop_dates.
  - apply List.Forall_forall. intros t Ht.
    apply in_map_iff in Ht as (i & <- & Hi). apply in_seq in Hi. lia.
Qed.

End CadenceExtras.

(** ** Symbol subscriptions *)

Section SocketExtras.

Import Market Service Sockets Scenario Scenario2.

(** X27.  Subscriptions are kept in upper case: unsubscribing with any
    spelling that differs only in case undoes a subscription, and leaves
    the set as it was when the symbol was not subscribed before. *)
Theorem subscribe_then_unsubscribe
    (sym sym' : string) (subscribed : gset string) :
  Symbol.toUpperCase sym' = Symbol.toUpperCase sym ->
  Symbol.toUpperCase sym ∉ subscribed ->
  unsubscribeSymbol sym' (fst (subscribeSymbol sym subscribed)) = subscribed.
Proof.
  intros Same Fresh. unfold unsubscribeSymbol, subscribeSymbol. rewrite Same.
  destruct (0 <? String.length sym)%nat; cbn [fst]; apply set_eq; intros x;
    rewrite elem_of_difference, ?elem_of_union, !elem_of_singleton.
  - split; [intros [[E|Hx] Nx]; [contradiction | exact Hx]|].
    intros Hx. split; [right; exact Hx | intros ->; contradiction].
  - split; [intros [Hx _]; exact Hx|].
    intros Hx. split; [exact Hx | intros ->; contradiction].
Qed.

Lemma subscribe_then_unsubscribe_witness :
  unsubscribeSymbol "Aapl" (fst (subscribeSymbol "aapl" defaultSubscriptions))
  = defaultSubscriptions.
Proof.
  apply (subscribe_then_unsubscribe "aapl" "Aapl" defaultSubscriptions).
  - reflexivity.
  - intros H. apply elem_of_singleton in H. discriminate H.
Defined.

(** X28.  Subscribing to a non-empty symbol records it in upper case and sends
    between 1 and 100 bars on the channel named after the symbol as the
    client spelled it, whatever the collection holds and whichever store
    operations fail. *)
Theorem subscribing_sends_initial_data
    (sym : string) (subscribed : gset string) (w : World) (s : State) :
  sym <> EmptyString ->
  Symbol.toUpperCase sym ∈ fst (subscribeSymbol sym subscribed)
  /\ exists data,
       fst (snd (subscribeSymbol sym subscribed) w s)
       = Ret (Some (String.append "marketUpdate:" sym, data))
       /\ (1 <= length data <= 100)%nat.
Proof.
  intros NonEmpty. unfold subscribeSymbol.
  assert (L : (0 <? String.length sym)%nat = true).
  { destruct sym; [congruence | reflexivity]. }
  rewrite L. cbn [fst snd]. split; [set_solver|].
  assert (A : acceptable sym 100) by (split; [exact NonEmpty | lia]).
  destruct (getLatestMarketData_returns sym 100 w s A) as (data & E & Len).
  unfold tryCatch, mbindM.
  destruct (getLatestMarketData sym 100 w s) as [[d|] s1];
    cbn [fst] in E; [|discriminate]. injection E as ->.
  unfold ret. cbn [fst].
  destruct (Nat.ltb_spec 0 (length data)) as [_|Z]; [|lia].
  exists data. split; [reflexivity | exact Len].
Qed.

Lemma subscribing_sends_initial_data_witness :
  Symbol.toUpperCase "aapl" ∈ fst (subscribeSymbol "aapl" defaultSubscriptions)
  /\ exists data,
       fst (snd (subscribeSymbol "aapl" defaultSubscriptions)
                calmWorld (initial threeBars))
       = Ret (Some (String.append "marketUpdate:" "aapl", data))
       /\ (1 <= length data <= 100)%nat.
Proof.
  apply (subscribing_sends_initial_data "aapl" defaultSubscriptions
           calmWorld (initial threeBars)).
  discriminate.
Defined.

End SocketExtras.

(** ** Symbol search *)

Section SearchExtras.

Import Symbol Search.

Lemma lowerChar_upperChar (c : ascii) : lowerChar (upperChar c) = lowerChar c.
Proof. destruct c as [[] [] [] [] [] [] [] []]; vm_compute; reflexivity. Qed.

Lemma toLowerCase_toUpperCase (s : string) :
  toLowerCase (toUpperCase s) = toLowerCase s.
Proof.
  induction s as [|c s IH]; [reflexivity|].
  cbn [toUpperCase toLowerCase]. rewrite lowerChar_upperChar, IH. reflexivity.
Qed.

Lemma lowerChar_space (c : ascii) :
  isSpace c = true -> isSpace (lowerChar c) = true.
Proof.
  destruct c as [[] [] [] [] [] [] [] []]; vm_compute; intros H;
    try discriminate H; reflexivity.
Qed.

Lemma trim_blank (s : string) :
  forallb isSpace (chars s) = true -> trim (toLowerCase s) = EmptyString.
Proof.
  intros H. unfold trim.
  assert (E : trimStart (toLowerCase s) = EmptyString).
  { induction s as [|c s IH]; [reflexivity|].
    cbn [chars list_ascii_of_string forallb] in H.
    apply andb_true_iff in H as [Hc Hs].
    cbn [toLowerCase trimStart]. rewrite (lowerChar_space c Hc).
    apply IH, Hs. }
  rewrite E. reflexivity.
Qed.

(** X29.  For a query of ASCII characters the search does not depend on
    the case of the query, and every listed symbol is among the results
    of a search for its own ticker: the cut to ten results never drops
    it. *)
Theorem search_ignores_case_and_finds_tickers (query : string) :
  forallb isAscii (chars query) = true ->
  searchSymbols (toUpperCase query) = searchSymbols query
  /\ searchSymbols (toLowerCase query) = searchSymbols query
  /\ Forall (fun item => In item (searchSymbols (fst item))) symbols.
Proof.
  intros _.
  assert (Idem : forall c, lowerChar (lowerChar c) = lowerChar c)
    by (intros c; destruct c as [[] [] [] [] [] [] [] []]; vm_compute; reflexivity).
  assert (Low : forall s, toLowerCase (toLowerCase s) = toLowerCase s).
  { induction s as [|c s IH]; [reflexivity|].
    cbn [toLowerCase]. rewrite Idem, IH. reflexivity. }
  split; [|split].
  - unfold searchSymbols. rewrite toLowerCase_toUpperCase.
    destruct query; reflexivity.
  - unfold searchSymbols. rewrite Low. destruct query; reflexivity.
  - apply List.Forall_forall. intros item H. cbn [symbols In] in H.
    repeat (destruct H as [<-|H];
            [vm_compute; repeat (first [left; reflexivity | right])|]).
    destruct H.
Qed.

Lemma search_ignores_case_and_finds_tickers_witness :
  searchSymbols (toUpperCase "Apple") = searchSymbols "Apple"
  /\ searchSymbols (toLowerCase "Apple") = searchSymbols "Apple"
  /\ Forall (fun item => In item (searchSymbols (fst item))) symbols.
Proof.
  apply (search_ignores_case_and_finds_tickers "Apple"). reflexivity.
Defined.

(** X30.  A query of white space only is not empty, so it is searched
    for; trimmed, it is contained in every symbol, and the result is the
    first ten entries of the table: the last four are cut. *)
Theorem blank_query_lists_first_ten (query : string) :
  query <> EmptyString ->
  forallb isSpace (chars query) = true ->
  searchSymbols query = firstn 10 symbols
  /\ length (searchSymbols query) = 10%nat.
Proof.
  intros N B. unfold searchSymbols.
  rewrite (proj2 (String.eqb_neq query EmptyString) N). cbv zeta.
  rewrite (trim_blank query B). split; reflexivity.
Qed.

Lemma blank_query_lists_first_ten_witness :
  searchSymbols " " = firstn 10 symbols
  /\ length (searchSymbols " ") = 10%nat.
Proof.
  apply (blank_query_lists_first_ten " ").
  - discriminate.
  - reflexivity.
Defined.

End SearchExtras.
